(** * Parquet consolidation workflow: a shallow embedding and its properties

    The development embeds the consolidation workflow of
    [parquet_consolidator.py] (class [ParquetConsolidator] and [main]),
    the planning arithmetic of [consolidate_remote.py]
    ([consolidate_date_dry_run]) and of [demo_consolidation.py]
    ([demo_analysis]).

    Modelling conventions.
    - Python [str] is [string]: a sequence of 8-bit characters.  White
      space is the ASCII white space of [str.isspace].
    - Python [int] is [Z]; [float] values are exact rationals ([Q]):
      the only float operations of the sources are divisions by the
      powers of two [1024 * 1024] and [128], and a truncation [int(..)].
    - A [dict] keyed by paths is a [gmap string _].
    - Everything outside the interpreter (the [hdfs] command line run
      through [subprocess.run], the [hdfs3] client, the local file
      system, [pyarrow], the clock, the completion order of the thread
      pool) is an environment [Env]: a state machine over an arbitrary
      world [W] that answers each call with a value or an exception.
    - A method is a computation [M A]: from a world it yields a value or a
      raised exception, the next world, and the calls it issued, each
      labelled with the method that issued it.  [try]/[except]/[finally]
      are combinators of [M].
    - Calls to [logger] have no effect on control flow and are left out. *)

From Stdlib Require Import ZArith QArith Qround List String Ascii Bool Lia.
From Stdlib Require Import Permutation DecimalString.
From stdpp Require Import gmap strings list fin_maps.
Import ListNotations.

Local Open Scope string_scope.
Local Open Scope Z_scope.
Local Open Scope list_scope.

(** ** Python string built-ins *)

Module Py.

(** [str.isspace] on one ASCII character. *)
Definition isspace (c : ascii) : bool :=
  let n := nat_of_ascii c in
  ((9 <=? n)%nat && (n <=? 13)%nat) || ((28 <=? n)%nat && (n <=? 32)%nat).

(** [s.startswith(p)]. *)
Fixpoint startswith (p s : string) : bool :=
  match p, s with
  | EmptyString, _ => true
  | String a p', String b s' => Ascii.eqb a b && startswith p' s'
  | String _ _, EmptyString => false
  end.

(** [p in s]. *)
Fixpoint contains (p s : string) : bool :=
  startswith p s ||
  match s with
  | EmptyString => false
  | String _ s' => contains p s'
  end.

Definition rev_string (s : string) : string :=
  string_of_list_ascii (List.rev (list_ascii_of_string s)).

(** [s.endswith(p)]. *)
Definition endswith (p s : string) : bool :=
  startswith (rev_string p) (rev_string s).

(** [s.lstrip()], [s.rstrip()], [s.strip()]. *)
Fixpoint lstrip (s : string) : string :=
  match s with
  | EmptyString => EmptyString
  | String c s' => if isspace c then lstrip s' else s
  end.

Definition rstrip (s : string) : string := rev_string (lstrip (rev_string s)).

Definition strip (s : string) : string := rstrip (lstrip s).

(** [s.split(sep)] for a one-character separator: the pieces between the
    separators, [n + 1] pieces for [n] separators. *)
Fixpoint split_on_aux (sep : ascii) (s : string) (cur : string) : list string :=
  match s with
  | EmptyString => [rev_string cur]
  | String c s' =>
      if Ascii.eqb c sep then rev_string cur :: split_on_aux sep s' EmptyString
      else split_on_aux sep s' (String c cur)
  end.

Definition split_on (sep : ascii) (s : string) : list string :=
  split_on_aux sep s EmptyString.

(** [s.split()]: the maximal runs of characters that are not white space. *)
Fixpoint split_aux (s : string) (cur : string) : list string :=
  match s with
  | EmptyString =>
      match cur with EmptyString => [] | _ => [rev_string cur] end
  | String c s' =>
      if isspace c then
        match cur with
        | EmptyString => split_aux s' EmptyString
        | _ => rev_string cur :: split_aux s' EmptyString
        end
      else split_aux s' (String c cur)
  end.

Definition split (s : string) : list string := split_aux s EmptyString.

(** [int(s)]: optional white space, an optional sign, decimal digits with
    single underscores between digits.  [None] stands for [ValueError]. *)
Definition digit_of (c : ascii) : option Z :=
  let n := nat_of_ascii c in
  if ((48 <=? n)%nat && (n <=? 57)%nat) then Some (Z.of_nat n - 48) else None.

Fixpoint int_digits (s : string) (acc : Z) (after_digit : bool) : option Z :=
  match s with
  | EmptyString => if after_digit then Some acc else None
  | String c s' =>
      match digit_of c with
      | Some d => int_digits s' (10 * acc + d) true
      | None =>
          if Ascii.eqb c "_" && after_digit then int_digits s' acc false
          else None
      end
  end.

Definition int (s : string) : option Z :=
  match strip s with
  | String "-" s' => option_map Z.opp (int_digits s' 0 false)
  | String "+" s' => int_digits s' 0 false
  | s' => int_digits s' 0 false
  end.

(** [parts[-1]] of a non-empty list, [parts[i]]. *)
Definition last_part (parts : list string) : string := List.last parts "".
Definition part (i : nat) (parts : list string) : string := List.nth i parts "".

(** [posixpath.basename]: what follows the last slash. *)
Fixpoint basename_aux (s : string) (cur : string) : string :=
  match s with
  | EmptyString => rev_string cur
  | String c s' =>
      if Ascii.eqb c "/" then basename_aux s' EmptyString
      else basename_aux s' (String c cur)
  end.

Definition basename (p : string) : string := basename_aux p EmptyString.

(** [posixpath.dirname]: what precedes the last slash, without its
    trailing slashes unless it consists of slashes only. *)
Fixpoint rstrip_slash_rev (r : string) : string :=
  match r with
  | String c r' => if Ascii.eqb c "/" then rstrip_slash_rev r' else r
  | EmptyString => EmptyString
  end.

Fixpoint drop_to_slash_rev (r : string) : string :=
  match r with
  | String c r' => if Ascii.eqb c "/" then r else drop_to_slash_rev r'
  | EmptyString => EmptyString
  end.

Definition dirname (p : string) : string :=
  let head_rev := drop_to_slash_rev (rev_string p) in
  match rstrip_slash_rev head_rev with
  | EmptyString => rev_string head_rev
  | stripped => rev_string stripped
  end.

(** [posixpath.join(a, b)]. *)
Definition join (a b : string) : string :=
  if startswith "/" b then b
  else if String.eqb a "" || endswith "/" a then a +:+ b
  else a +:+ "/" +:+ b.

(** [int(x)] of a float: truncation toward zero. *)
Definition int_of_float (x : Q) : Z := Z.quot (Qnum x) (Zpos (Qden x)).

End Py.

(** ** Exceptions, processes and the environment *)

(** The exception classes the sources distinguish or can meet; all of them
    derive from [Exception]. *)
Inductive exn : Type :=
| TimeoutExpired
| ValueError
| IndexError
| KeyError
| OSError
| OverflowError
| ArrowInvalid.

(** The keyword arguments of [subprocess.run] that differ between call
    sites: [env] with [HADOOP_USER_NAME=hdfs], and [timeout]. *)
Record RunOpts : Type := mkRunOpts {
  as_hdfs_user : bool;
  timeout : option Z
}.

Record CompletedProcess : Type := mkCompletedProcess {
  returncode : Z;
  stdout : string;
  stderr : string
}.

(** The method of the source that issues a call. *)
Inductive Site : Type :=
| In_init
| In_cleanup_corrupted_files
| In_get_daily_files
| In_get_file_info
| In_download_single_file
| In_download_files
| In_consolidate_parquet_files
| In_upload_consolidated_file
| In_remove_source_files
| In_consolidate_date.

(** A call together with its outcome. *)
Inductive Op (Table : Type) : Type :=
| Run (argv : list string) (opts : RunOpts) (res : exn + CompletedProcess)
| HdfsConnect (host : string) (port : Z) (res : exn + unit)
| HdfsLs (path : string) (res : exn + list string)
| HdfsInfo (path : string) (res : exn + Z)
| HdfsGet (src dst : string) (res : exn + unit)
| HdfsPut (src dst : string) (res : exn + unit)
| HdfsRm (path : string) (res : exn + unit)
| Makedirs (dir : string) (res : exn + unit)
| PathExists (dir : string) (res : bool)
| Rmtree (dir : string) (res : exn + unit)
| Now (res : string)
| AsCompleted (n : nat) (res : list nat)
| ReadTable (file : string) (res : exn + Table)
| WriteTable (table : Table) (file : string) (res : exn + unit).

Arguments Run {Table}.
Arguments HdfsConnect {Table}.
Arguments HdfsLs {Table}.
Arguments HdfsInfo {Table}.
Arguments HdfsGet {Table}.
Arguments HdfsPut {Table}.
Arguments HdfsRm {Table}.
Arguments Makedirs {Table}.
Arguments PathExists {Table}.
Arguments Rmtree {Table}.
Arguments Now {Table}.
Arguments AsCompleted {Table}.
Arguments ReadTable {Table}.
Arguments WriteTable {Table}.

Record Event (Table : Type) : Type := mkEvent {
  ev_site : Site;
  ev_op : Op Table
}.

Arguments mkEvent {Table}.
Arguments ev_site {Table}.
Arguments ev_op {Table}.

(** The environment: every operation takes the world and returns its
    answer with the next world.  [hdfs_info] answers with [info['size']].
    [as_completed n] answers with the picks that order the [n] futures of
    the thread pool (see [arrange]).  The last five fields are the pure
    library functions the sources call: [len(table)], [pa.concat_tables],
    [datetime.strptime(_, "%Y-%m-%d")] as a proleptic Gregorian ordinal,
    [strftime("%Y-%m-%d")] of such an ordinal, and the import flag
    [HDFS3_AVAILABLE]. *)
Record Env (W Table : Type) : Type := mkEnv {
  subprocess_run : list string -> RunOpts -> W -> (exn + CompletedProcess) * W;
  hdfs_connect : string -> Z -> W -> (exn + unit) * W;
  hdfs_ls : string -> W -> (exn + list string) * W;
  hdfs_info : string -> W -> (exn + Z) * W;
  hdfs_get : string -> string -> W -> (exn + unit) * W;
  hdfs_put : string -> string -> W -> (exn + unit) * W;
  hdfs_rm : string -> W -> (exn + unit) * W;
  os_makedirs : string -> W -> (exn + unit) * W;
  os_path_exists : string -> W -> bool * W;
  shutil_rmtree : string -> W -> (exn + unit) * W;
  now_hms : W -> string * W;
  as_completed : nat -> W -> list nat * W;
  pq_read_table : string -> W -> (exn + Table) * W;
  pq_write_table : Table -> string -> W -> (exn + unit) * W;
  num_rows : Table -> Z;
  pa_concat_tables : list Table -> exn + Table;
  strptime : string -> exn + Z;
  strftime : Z -> string;
  HDFS3_AVAILABLE : bool
}.

Arguments subprocess_run {W Table}.
Arguments hdfs_connect {W Table}.
Arguments hdfs_ls {W Table}.
Arguments hdfs_info {W Table}.
Arguments hdfs_get {W Table}.
Arguments hdfs_put {W Table}.
Arguments hdfs_rm {W Table}.
Arguments os_makedirs {W Table}.
Arguments os_path_exists {W Table}.
Arguments shutil_rmtree {W Table}.
Arguments now_hms {W Table}.
Arguments as_completed {W Table}.
Arguments pq_read_table {W Table}.
Arguments pq_write_table {W Table}.
Arguments num_rows {W Table}.
Arguments pa_concat_tables {W Table}.
Arguments strptime {W Table}.
Arguments strftime {W Table}.
Arguments HDFS3_AVAILABLE {W Table}.

(** ** Computations *)

(** The outcome of a computation: value or exception, next world, calls
    issued in order. *)
Definition M (W Table A : Type) : Type :=
  W -> (exn + A) * W * list (Event Table).

Definition ret {W Table A} (a : A) : M W Table A :=
  fun w => (inr a, w, []).

Definition raise {W Table A} (e : exn) : M W Table A :=
  fun w => (inl e, w, []).

Definition bind {W Table A B} (m : M W Table A) (k : A -> M W Table B)
  : M W Table B :=
  fun w =>
    match m w with
    | (inr a, w1, t1) =>
        match k a w1 with
        | (r, w2, t2) => (r, w2, t1 ++ t2)
        end
    | (inl e, w1, t1) => (inl e, w1, t1)
    end.

(** [try: m except Exception as e: h e]. *)
Definition try_except {W Table A} (m : M W Table A) (h : exn -> M W Table A)
  : M W Table A :=
  fun w =>
    match m w with
    | (inl e, w1, t1) =>
        match h e w1 with
        | (r, w2, t2) => (r, w2, t1 ++ t2)
        end
    | (inr a, w1, t1) => (inr a, w1, t1)
    end.

(** [try: m finally: f]: [f] runs on every exit of [m]; an exception of
    [f] replaces the outcome of [m]. *)
Definition try_finally {W Table A} (m : M W Table A) (f : M W Table unit)
  : M W Table A :=
  fun w =>
    match m w with
    | (r, w1, t1) =>
        match f w1 with
        | (inr _, w2, t2) => (r, w2, t1 ++ t2)
        | (inl e, w2, t2) => (inl e, w2, t1 ++ t2)
        end
    end.

(** A call that may raise, and a call that cannot. *)
Definition perform {W Table A} (site : Site) (f : W -> (exn + A) * W)
    (op : exn + A -> Op Table) : M W Table A :=
  fun w =>
    match f w with
    | (r, w1) => (r, w1, [mkEvent site (op r)])
    end.

Definition observe {W Table A} (site : Site) (f : W -> A * W)
    (op : A -> Op Table) : M W Table A :=
  fun w =>
    match f w with
    | (a, w1) => (inr a, w1, [mkEvent site (op a)])
    end.

(** A pure library call that may raise. *)
Definition of_result {W Table A} (r : exn + A) : M W Table A :=
  match r with
  | inr a => ret a
  | inl e => raise e
  end.

Definition of_option {W Table A} (e : exn) (o : option A) : M W Table A :=
  match o with
  | Some a => ret a
  | None => raise e
  end.

Declare Scope comp_scope.
Delimit Scope comp_scope with comp.
Notation "x <- m ;; k" := (bind m (fun x => k))
  (at level 100, m at next level, right associativity) : comp_scope.
Local Open Scope comp_scope.

(** [for x in xs: s = body x s], the loop variables threaded as [s]. *)
Fixpoint for_each {W Table A S} (xs : list A) (body : A -> S -> M W Table S)
    (s : S) : M W Table S :=
  match xs with
  | [] => ret s
  | x :: xs' => s1 <- body x s ;; for_each xs' body s1
  end.

(** [[f(i) for i in xs]] where [f] may raise. *)
Fixpoint map_m {W Table A B} (f : A -> M W Table B) (xs : list A)
  : M W Table (list B) :=
  match xs with
  | [] => ret []
  | x :: xs' => y <- f x ;; ys <- map_m f xs' ;; ret (y :: ys)
  end.

Definition outcome {W Table A} (r : (exn + A) * W * list (Event Table))
  : exn + A := fst (fst r).
Definition world {W Table A} (r : (exn + A) * W * list (Event Table))
  : W := snd (fst r).
Definition trace {W Table A} (r : (exn + A) * W * list (Event Table))
  : list (Event Table) := snd r.

(** [range(n)]. *)
Definition range (n : Z) : list Z := List.map Z.of_nat (List.seq 0 (Z.to_nat n)).

(** The futures of the pool complete in an order the environment picks:
    each pick selects one of the futures still pending; when the picks run
    out the rest complete in submission order. *)
Fixpoint arrange {A} (picks : list nat) (xs : list A) : list A :=
  match picks, xs with
  | _, [] => []
  | [], _ => xs
  | p :: picks', x0 :: _ =>
      let i := (p mod List.length xs)%nat in
      List.nth i xs x0 :: arrange picks' (List.firstn i xs ++ List.skipn (S i) xs)
  end.

Definition newline : ascii := "010"%char.

(** ** parquet_consolidator.py *)

(** Module constants.  Both branches of the configuration loading assign
    the same values to the last five. *)
Definition PARALLEL_DOWNLOADS : Z := 8.
Definition CLEANUP_THRESHOLD_BYTES : Z := 1024.
Definition HDFS_NAMENODE : string := "big-data-005.kuhn-labs.com".
Definition HDFS_PORT : Z := 8020.
Definition BASE_PATH : string := "/insurance-megacorp/telemetry-data-v2".
Definition TARGET_FILE_SIZE_MB : Z := 128.
Definition MIN_FILES_TO_CONSOLIDATE : Z := 5.
Definition MIN_FILE_SIZE_BYTES : Z := 1024.
Definition TEMP_LOCAL_DIR : string := "/tmp/parquet_consolidation".

(** [self]: [hdfs self] tells whether [self.hdfs] is a client ([true]) or
    [None] ([false]). *)
Record ParquetConsolidator : Type := mkParquetConsolidator {
  hdfs : bool
}.

(** One entry of [file_info], and the dictionary [get_file_info] returns. *)
Record FileMeta : Type := mkFileMeta {
  size_bytes : Z;
  size_mb : Q
}.

Record FileInfo : Type := mkFileInfo {
  fi_files : gmap string FileMeta;
  fi_total_size_mb : Q;
  fi_file_count : Z
}.

(** The local variables of [get_file_info]. *)
Record InfoState : Type := mkInfoState {
  file_info : gmap string FileMeta;
  total_size : Z;
  skipped_files : list string
}.

(** [size / (1024 * 1024)]. *)
Definition to_mb (size : Z) : Q := inject_Z size / inject_Z (1024 * 1024).

(** [subprocess.run] keyword arguments of the call sites. *)
Definition plain : RunOpts := mkRunOpts false None.
Definition plain_timeout (t : Z) : RunOpts := mkRunOpts false (Some t).
Definition hdfs_user : RunOpts := mkRunOpts true None.
Definition hdfs_user_timeout (t : Z) : RunOpts := mkRunOpts true (Some t).

(** [f"{BASE_PATH}/date={date}"]. *)
Definition date_path (date : string) : string :=
  BASE_PATH +:+ "/date=" +:+ date.

(** Truth value of a string. *)
Definition truthy (s : string) : bool := negb (String.eqb s "").

Section Consolidator.

Context {W Table : Type} (env : Env W Table).

Local Abbreviation Comp := (M W Table).

Definition run (site : Site) (argv : list string) (opts : RunOpts)
  : Comp CompletedProcess :=
  perform site (subprocess_run env argv opts) (Run argv opts).

(** [__init__]. *)
Definition init (hdfs_host : string) (hdfs_port : Z) : Comp ParquetConsolidator :=
  if HDFS3_AVAILABLE env then
    try_except
      (_ <- perform In_init (hdfs_connect env hdfs_host hdfs_port)
              (HdfsConnect hdfs_host hdfs_port) ;;
       ret (mkParquetConsolidator true))
      (fun _ => ret (mkParquetConsolidator false))
  else ret (mkParquetConsolidator false).

(** The body of the loop of [cleanup_corrupted_files] over the lines of
    the listing; [deleted_count] is the loop variable. *)
Definition cleanup_line (dry_run : bool) (line : string) (deleted_count : Z)
  : Comp Z :=
  if Py.contains "telemetry-" line && Py.contains ".parquet" line then
    let parts := Py.split line in
    if (8 <=? List.length parts)%nat then
      try_except
        (size <- of_option ValueError (Py.int (Py.part 4 parts)) ;;
         let file_path := Py.last_part parts in
         if size <=? CLEANUP_THRESHOLD_BYTES then
           if dry_run then ret deleted_count
           else
             del_result <- run In_cleanup_corrupted_files
                             ["hdfs"; "dfs"; "-rm"; file_path] hdfs_user ;;
             if returncode del_result =? 0 then ret (deleted_count + 1)
             else ret deleted_count
         else ret deleted_count)
        (fun e =>
           match e with
           | ValueError | IndexError => ret deleted_count
           | _ => raise e
           end)
    else ret deleted_count
  else ret deleted_count.

Definition cleanup_corrupted_files (self : ParquetConsolidator)
    (date : string) (dry_run : bool) : Comp Z :=
  try_except
    (result <- run In_cleanup_corrupted_files
                 ["hdfs"; "dfs"; "-ls"; date_path date] plain ;;
     if negb (returncode result =? 0) then ret 0
     else for_each (Py.split_on newline (stdout result))
            (cleanup_line dry_run) 0)
    (fun _ => ret 0).

(** The filter of the [hdfs3] branch of [get_daily_files]. *)
Definition wanted (f : string) : bool :=
  Py.endswith ".parquet" f && Py.contains "telemetry-" f
  && negb (Py.contains "consolidated" f).

(** What one line of the listing adds to [files] in the subprocess branch
    of [get_daily_files]. *)
Definition listed_file (line : string) : option string :=
  if Py.contains "telemetry-" line && Py.contains ".parquet" line then
    if Py.contains "consolidated" line then None
    else
      let parts := Py.split line in
      if (8 <=? List.length parts)%nat then Some (Py.last_part parts)
      else None
  else None.

Definition get_daily_files (self : ParquetConsolidator) (date : string)
  : Comp (list string) :=
  try_except
    (if hdfs self then
       l <- perform In_get_daily_files (hdfs_ls env (date_path date))
              (HdfsLs (date_path date)) ;;
       ret (List.filter wanted l)
     else
       result <- run In_get_daily_files
                   ["hdfs"; "dfs"; "-ls"; date_path date] plain ;;
       if negb (returncode result =? 0) then ret []
       else ret (omap listed_file (Py.split_on newline (stdout result))))
    (fun _ => ret []).

(** [skipped_files.append(file_path)] and [skipped_files.extend(files)]. *)
Definition skip (file_path : string) (st : InfoState) : InfoState :=
  mkInfoState (file_info st) (total_size st) (skipped_files st ++ [file_path]).

Definition skip_all (files : list string) (st : InfoState) : InfoState :=
  mkInfoState (file_info st) (total_size st) (skipped_files st ++ files).

(** What both branches of [get_file_info] do with a file of known size. *)
Definition account (file_path : string) (size : Z) (st : InfoState)
  : InfoState :=
  if size <? MIN_FILE_SIZE_BYTES then skip file_path st
  else
    mkInfoState
      (<[file_path := mkFileMeta size (to_mb size)]> (file_info st))
      (total_size st + size)
      (skipped_files st).

(** The loop of the subprocess branch that fills [size_map]. *)
Definition parse_size_line (size_map : gmap string Z) (line : string)
  : gmap string Z :=
  if Py.startswith "Found " line || Py.startswith "drw" line
     || negb (truthy (Py.strip line)) then size_map
  else
    let parts := Py.split line in
    if (8 <=? List.length parts)%nat then
      let size_str := Py.part 4 parts in
      let path := Py.part 7 parts in
      match Py.int size_str with
      | Some size => <[path := size]> size_map
      | None => size_map
      end
    else size_map.

Definition parse_size_map (out : string) : gmap string Z :=
  List.fold_left parse_size_line (Py.split_on newline (Py.strip out)) ∅.

(** The loop that matches files with their sizes. *)
Definition match_file (size_map : gmap string Z) (st : InfoState)
    (file_path : string) : InfoState :=
  match size_map !! file_path with
  | Some size => account file_path size st
  | None => skip file_path st
  end.

(** The body of the loop of the [hdfs3] branch of [get_file_info]. *)
Definition info_one (file_path : string) (st : InfoState) : Comp InfoState :=
  try_except
    (size <- perform In_get_file_info (hdfs_info env file_path)
               (HdfsInfo file_path) ;;
     ret (account file_path size st))
    (fun _ => ret (skip file_path st)).

(** The local variables of [get_file_info] when it reaches its [return].
    In both branches the only statement of a [try] block that can raise is
    its first, so a handler always starts from the state the block was
    entered with. *)
Definition get_file_info_state (self : ParquetConsolidator)
    (files : list string) : Comp InfoState :=
  let st0 := mkInfoState ∅ 0 [] in
  if hdfs self then
    for_each files info_one st0
  else
    match files with
    | [] => ret st0
    | first :: _ =>
        let dir_path := Py.dirname first in
        try_except
          (result <- run In_get_file_info
                       ["hdfs"; "dfs"; "-ls"; dir_path] (plain_timeout 60) ;;
           if returncode result =? 0 then
             let size_map := parse_size_map (stdout result) in
             ret (List.fold_left (match_file size_map) files st0)
           else ret (skip_all files st0))
          (fun e =>
             match e with
             | TimeoutExpired => ret (skip_all files st0)
             | _ => ret (skip_all files st0)
             end)
    end.

Definition get_file_info (self : ParquetConsolidator) (files : list string)
  : Comp FileInfo :=
  st <- get_file_info_state self files ;;
  ret (mkFileInfo (file_info st) (to_mb (total_size st))
         (Z.of_nat (List.length files))).

Definition _download_single_file (self : ParquetConsolidator)
    (hdfs_file local_dir : string) : Comp (option string) :=
  try_except
    (let filename := Py.basename hdfs_file in
     let local_file := Py.join local_dir filename in
     if hdfs self then
       _ <- perform In_download_single_file
              (hdfs_get env hdfs_file local_file)
              (HdfsGet hdfs_file local_file) ;;
       ret (Some local_file)
     else
       result <- run In_download_single_file
                   ["hdfs"; "dfs"; "-get"; hdfs_file; local_file] plain ;;
       if negb (returncode result =? 0) then ret None
       else ret (Some local_file))
    (fun _ => ret None).

(** The body of the loop of [download_files] over the completed futures;
    [local_files] is the loop variable. *)
Definition collect_one (self : ParquetConsolidator) (local_dir : string)
    (hdfs_file : string) (local_files : list string) : Comp (list string) :=
  try_except
    (local_file <- _download_single_file self hdfs_file local_dir ;;
     match local_file with
     | Some f => if truthy f then ret (local_files ++ [f])
                 else ret local_files
     | None => ret local_files
     end)
    (fun _ => ret local_files).

(** [download_files]: the futures are collected in the order the
    environment completes them. *)
Definition download_files (self : ParquetConsolidator) (files : list string)
    (local_dir : string) : Comp (list string) :=
  _ <- perform In_download_files (os_makedirs env local_dir)
         (Makedirs local_dir) ;;
  picks <- observe In_download_files (as_completed env (List.length files))
             (AsCompleted (List.length files)) ;;
  for_each (arrange picks files) (collect_one self local_dir) [].

(** The body of the loop of [consolidate_parquet_files] that reads the
    inputs; [tables] and [total_rows] are the loop variables. *)
Definition read_one (file_path : string) (st : list Table * Z)
  : Comp (list Table * Z) :=
  table <- perform In_consolidate_parquet_files
             (pq_read_table env file_path) (ReadTable file_path) ;;
  ret (fst st ++ [table], snd st + num_rows env table).

Definition consolidate_parquet_files (self : ParquetConsolidator)
    (local_files : list string) (output_file : string) : Comp bool :=
  try_except
    (st <- for_each local_files read_one ([], 0) ;;
     let tables := fst st in
     let total_rows := snd st in
     combined_table <- of_result (pa_concat_tables env tables) ;;
     _ <- perform In_consolidate_parquet_files
            (pq_write_table env combined_table output_file)
            (WriteTable combined_table output_file) ;;
     verification_table <- perform In_consolidate_parquet_files
                             (pq_read_table env output_file)
                             (ReadTable output_file) ;;
     if negb (num_rows env verification_table =? total_rows) then ret false
     else ret true)
    (fun _ => ret false).

Definition upload_consolidated_file (self : ParquetConsolidator)
    (local_file hdfs_path : string) : Comp bool :=
  try_except
    (if hdfs self then
       _ <- perform In_upload_consolidated_file
              (hdfs_put env local_file hdfs_path)
              (HdfsPut local_file hdfs_path) ;;
       ret true
     else
       result <- run In_upload_consolidated_file
                   ["hdfs"; "dfs"; "-put"; local_file; hdfs_path]
                   (hdfs_user_timeout 120) ;;
       if returncode result =? 0 then ret true else ret false)
    (fun _ => ret false).

(** The body of the loop of [remove_source_files]; [success_count] is the
    loop variable. *)
Definition remove_one (self : ParquetConsolidator) (file_path : string)
    (success_count : Z) : Comp Z :=
  try_except
    (if hdfs self then
       _ <- perform In_remove_source_files (hdfs_rm env file_path)
              (HdfsRm file_path) ;;
       ret (success_count + 1)
     else
       result <- run In_remove_source_files
                   ["hdfs"; "dfs"; "-rm"; file_path]
                   (hdfs_user_timeout 30) ;;
       if negb (returncode result =? 0) then ret success_count
       else ret (success_count + 1))
    (fun _ => ret success_count).

Definition remove_source_files (self : ParquetConsolidator)
    (files : list string) : Comp bool :=
  success_count <- for_each files (remove_one self) 0 ;;
  ret (success_count =? Z.of_nat (List.length files)).

(** The [finally] block of [consolidate_date]. *)
Definition cleanup_temp_dir (temp_dir : string) : Comp unit :=
  try_except
    (found <- observe In_consolidate_date (os_path_exists env temp_dir)
                (PathExists temp_dir) ;;
     if found then
       perform In_consolidate_date (shutil_rmtree env temp_dir)
         (Rmtree temp_dir)
     else ret tt)
    (fun _ => ret tt).

(** Steps 4 to 7 of [consolidate_date]: the body of its [try] block. *)
Definition consolidate_steps (self : ParquetConsolidator) (date : string)
    (files : list string) (temp_dir : string) : Comp bool :=
  local_files <- download_files self files temp_dir ;;
  match local_files with
  | [] => ret false
  | _ :: _ =>
      stamp <- observe In_consolidate_date (now_hms env) Now ;;
      let consolidated_filename :=
        "telemetry-" +:+ date +:+ "-consolidated-" +:+ stamp +:+ ".parquet" in
      let consolidated_local := Py.join temp_dir consolidated_filename in
      merged <- consolidate_parquet_files self local_files consolidated_local ;;
      if negb merged then ret false
      else
        let hdfs_consolidated_path :=
          BASE_PATH +:+ "/date=" +:+ date +:+ "/" +:+ consolidated_filename in
        uploaded <- upload_consolidated_file self consolidated_local
                      hdfs_consolidated_path ;;
        if negb uploaded then ret false
        else
          _ <- remove_source_files self files ;;
          ret true
  end.

Definition consolidate_date (self : ParquetConsolidator) (date : string)
    (target_size_mb : Z) (dry_run : bool) : Comp bool :=
  _ <- cleanup_corrupted_files self date dry_run ;;
  files <- get_daily_files self date ;;
  if Z.of_nat (List.length files) <? MIN_FILES_TO_CONSOLIDATE then ret true
  else
    file_info <- get_file_info self files ;;
    if dry_run then ret true
    else
      stamp <- observe In_consolidate_date (now_hms env) Now ;;
      let temp_dir :=
        Py.join TEMP_LOCAL_DIR ("consolidation_" +:+ date +:+ "_" +:+ stamp) in
      try_finally
        (try_except (consolidate_steps self date files temp_dir)
           (fun _ => ret false))
        (cleanup_temp_dir temp_dir).

(** ** [main] *)

Record Args : Type := mkArgs {
  arg_date : string;
  arg_target_size : Z;
  arg_dry_run : bool;
  arg_days_back : option Z;
  arg_verbose : bool
}.

(** [start_date - timedelta(days=i)] on ordinals; [datetime] covers the
    ordinals 1 to 3652059. *)
Definition minus_days (start_date i : Z) : exn + Z :=
  if (1 <=? start_date - i) && (start_date - i <=? 3652059)
  then inr (start_date - i) else inl OverflowError.

(** The list [dates] of [main]. *)
Definition batch_dates (args : Args) : Comp (list string) :=
  match arg_days_back args with
  | Some n =>
      if n =? 0 then ret [arg_date args]
      else
        start_date <- of_result (strptime env (arg_date args)) ;;
        map_m (fun i => d <- of_result (minus_days start_date i) ;;
                        ret (strftime env d))
          (range (n + 1))
  | None => ret [arg_date args]
  end.

(** The loop of [main] over [dates]. *)
Definition process_dates (consolidator : ParquetConsolidator) (args : Args)
    (dates : list string) : Comp Z :=
  for_each dates
    (fun date success_count =>
       ok <- consolidate_date consolidator date (arg_target_size args)
               (arg_dry_run args) ;;
       if ok then ret (success_count + 1) else ret success_count)
    0.

Definition main (args : Args) : Comp Z :=
  consolidator <- init HDFS_NAMENODE HDFS_PORT ;;
  dates <- batch_dates args ;;
  success_count <- process_dates consolidator args dates ;;
  ret (if success_count =? Z.of_nat (List.length dates) then 0 else 1).

End Consolidator.

(** [sys.exit(main())]: the status of the process is what [main] returns,
    and 1 when an exception leaves [main]. *)
Definition exit_status (r : exn + Z) : Z :=
  match r with
  | inr code => code
  | inl _ => 1
  end.

(** ** consolidate_remote.py *)

Module Remote.

Definition TARGET_FILE_SIZE_MB : Z := 128.
Definition MIN_FILES_TO_CONSOLIDATE : Z := 5.

(** What [consolidate_date_dry_run] reports: nothing below the minimum
    ("Would skip consolidation"), else the consolidation impact. *)
Inductive Report : Type :=
| WouldSkip
| Impact (target_files reduction_percent : Z).

(** [max(1, int(file_info['total_size_mb'] / TARGET_FILE_SIZE_MB))]. *)
Definition target_files (total_size_mb : Q) : Z :=
  Z.max 1 (Py.int_of_float (total_size_mb / inject_Z TARGET_FILE_SIZE_MB)).

(** [(file_count - target_files) * 100 // file_count]. *)
Definition reduction_percent (file_count target : Z) : Z :=
  (file_count - target) * 100 / file_count.

(** [consolidate_date_dry_run] after the listing: [n_files] is
    [len(files)], which is also [file_info['file_count']], and
    [total_size_mb] is [file_info['total_size_mb']]. *)
Definition consolidate_date_dry_run (n_files : Z) (total_size_mb : Q)
  : Report :=
  if n_files <? MIN_FILES_TO_CONSOLIDATE then WouldSkip
  else
    let target := target_files total_size_mb in
    Impact target (reduction_percent n_files target).

End Remote.

(** ** demo_consolidation.py *)

Module Demo.

Definition current_files : Z := 47.
Definition total_size_mb : Q := 164 # 100.
Definition target_file_size_mb : Z := 128.
Definition min_files_threshold : Z := 5.

Record Analysis : Type := mkAnalysis {
  target_files : Z;
  reduction_count : Z;
  reduction_percent : Z;
  recommended : bool
}.

Definition demo_analysis : Analysis :=
  let target_files :=
    Z.max 1 (Py.int_of_float (total_size_mb / inject_Z target_file_size_mb)) in
  let target_files := if target_files =? 0 then 1 else target_files in
  let reduction_count := current_files - target_files in
  let reduction_percent := (reduction_count * 100) / current_files in
  mkAnalysis target_files reduction_count reduction_percent
    (min_files_threshold <=? current_files).

End Demo.

(** ** The class of consolidate_remote.py *)

Module RemoteHDFS.

Definition HDFS_HOST : string := "hdfs@big-data-005.kuhn-labs.com".
Definition BASE_PATH : string := "/insurance-megacorp/telemetry-data-v2".

(** The environment of the class: [subprocess.run(command, shell=True,
    capture_output=True, text=True, timeout=30)] on a world, and [str(e)]
    of an exception. *)
Record Shell (W : Type) : Type := mkShell {
  shell_run : string -> W -> (exn + CompletedProcess) * W;
  describe : exn -> string
}.

Arguments shell_run {W}.
Arguments describe {W}.

(** A computation of the class: its value, the next world and the
    commands it has passed to the shell, in order.  No method modelled
    here lets an exception out. *)
Definition Sh (W A : Type) : Type := W -> A * W * list string.

Definition value {W A} (r : A * W * list string) : A := fst (fst r).
Definition after {W A} (r : A * W * list string) : W := snd (fst r).
Definition commands {W A} (r : A * W * list string) : list string := snd r.

Definition done {W A} (a : A) : Sh W A := fun w => (a, w, []).

Definition andthen {W A B} (m : Sh W A) (k : A -> Sh W B) : Sh W B :=
  fun w =>
    match m w with
    | (a, w1, t1) =>
        match k a w1 with
        | (b, w2, t2) => (b, w2, t1 ++ t2)
        end
    end.

(** [for x in xs: s = body x s]. *)
Fixpoint each {W A S} (xs : list A) (body : A -> S -> Sh W S) (s : S)
  : Sh W S :=
  match xs with
  | [] => done s
  | x :: xs' => andthen (body x s) (each xs' body)
  end.

(** [f"ssh {self.hdfs_host} '{command}'"]. *)
Definition ssh (command : string) : string :=
  "ssh " +:+ HDFS_HOST +:+ " '" +:+ command +:+ "'".

(** The commands of [get_daily_files] and of [get_file_sizes]. *)
Definition ls_command (date : string) : string :=
  "hdfs dfs -ls " +:+ (BASE_PATH +:+ "/date=" +:+ date) +:+ " 2>/dev/null".

Definition stat_command (file_path : string) : string :=
  "hdfs dfs -stat %s " +:+ file_path +:+ " 2>/dev/null".

(** The local variables of [get_file_sizes]. *)
Record SizeState : Type := mkSizeState {
  sized : gmap string FileMeta;
  sized_total : Z
}.

(** The command-line arguments of [main]. *)
Record Args : Type := mkArgs {
  arg_date : string;
  arg_dry_run : bool;
  arg_verbose : bool
}.

Section Consolidator.

Context {W : Type} (sh : Shell W).

Definition run_hdfs_command (command : string) : Sh W (bool * string) :=
  fun w =>
    match shell_run sh (ssh command) w with
    | (inr result, w1) =>
        (if returncode result =? 0 then (true, stdout result)
         else (false, stderr result), w1, [ssh command])
    | (inl TimeoutExpired, w1) =>
        ((false, "Command timed out"), w1, [ssh command])
    | (inl e, w1) => ((false, describe sh e), w1, [ssh command])
    end.

(** What one line of the listing adds to [files]. *)
Definition listed (line : string) : option string :=
  if Py.contains "telemetry-" line && Py.contains ".parquet" line then
    let parts := Py.split line in
    if (8 <=? List.length parts)%nat then Some (Py.last_part parts)
    else None
  else None.

Definition get_daily_files (date : string) : Sh W (list string) :=
  andthen (run_hdfs_command (ls_command date))
    (fun r =>
       if negb (fst r) then done []
       else done (omap listed (Py.split_on newline (snd r)))).

(** The body of the loop of [get_file_sizes]. *)
Definition size_one (file_path : string) (st : SizeState) : Sh W SizeState :=
  andthen (run_hdfs_command (stat_command file_path))
    (fun r =>
       if fst r then
         match Py.int (Py.strip (snd r)) with
         | Some size =>
             done (mkSizeState
                     (<[file_path := mkFileMeta size (to_mb size)]> (sized st))
                     (sized_total st + size))
         | None =>
             done (mkSizeState
                     (<[file_path := mkFileMeta 0 0]> (sized st))
                     (sized_total st))
         end
       else
         done (mkSizeState (<[file_path := mkFileMeta 0 0]> (sized st))
                 (sized_total st))).

Definition get_file_sizes_state (files : list string) : Sh W SizeState :=
  each files size_one (mkSizeState ∅ 0).

Definition get_file_sizes (files : list string) : Sh W FileInfo :=
  andthen (get_file_sizes_state files)
    (fun st =>
       done (mkFileInfo (sized st) (to_mb (sized_total st))
               (Z.of_nat (List.length files)))).

(** [consolidate_date_dry_run]: what it returns, with the report it
    logs. *)
Definition consolidate_date_dry_run (date : string)
  : Sh W (bool * Remote.Report) :=
  andthen (get_daily_files date)
    (fun files =>
       if Z.of_nat (List.length files) <? Remote.MIN_FILES_TO_CONSOLIDATE
       then done (true, Remote.WouldSkip)
       else
         andthen (get_file_sizes files)
           (fun file_info =>
              let target_files :=
                Remote.target_files (fi_total_size_mb file_info) in
              let reduction_percent :=
                Remote.reduction_percent (fi_file_count file_info)
                  target_files in
              done (true, Remote.Impact target_files reduction_percent))).

Definition main (args : Args) : Sh W Z :=
  if arg_dry_run args then
    andthen (consolidate_date_dry_run (arg_date args))
      (fun r => done (if fst r then 0 else 1))
  else done 1.

End Consolidator.

End RemoteHDFS.

(** ** The configuration file of parquet_consolidator.py *)

Module Config.

(** [s[n:]]. *)
Fixpoint drop (n : nat) (s : string) : string :=
  match n, s with
  | O, _ => s
  | S n', String _ s' => drop n' s'
  | S _, EmptyString => EmptyString
  end.

(** [s.split(sep, 1)] for a one-character separator: [s] alone when it
    holds no separator, else what precedes the first separator and what
    follows it. *)
Fixpoint split_once_aux (sep : ascii) (s cur : string) : list string :=
  match s with
  | EmptyString => [Py.rev_string cur]
  | String c s' =>
      if Ascii.eqb c sep then [Py.rev_string cur; s']
      else split_once_aux sep s' (String c cur)
  end.

Definition split_once (sep : ascii) (s : string) : list string :=
  split_once_aux sep s EmptyString.

(** [s.strip(chars)]. *)
Definition among (chars : list ascii) (c : ascii) : bool :=
  List.existsb (Ascii.eqb c) chars.

Fixpoint lstrip_chars (chars : list ascii) (s : string) : string :=
  match s with
  | EmptyString => EmptyString
  | String c s' => if among chars c then lstrip_chars chars s' else s
  end.

Definition strip_chars (chars : list ascii) (s : string) : string :=
  Py.rev_string
    (lstrip_chars chars (Py.rev_string (lstrip_chars chars s))).

(** The double and the single quote. *)
Definition quotes : list ascii := ["034"%char; "039"%char].

(** [key, value = parts]. *)
Definition unpack2 (parts : list string) : exn + (string * string) :=
  match parts with
  | [key; value] => inr (key, value)
  | _ => inl ValueError
  end.

(** The body of the loop of [load_config] over the lines of the file. *)
Definition config_line (config : gmap string string) (line : string)
  : exn + gmap string string :=
  let line := Py.strip line in
  if truthy line && negb (Py.startswith "#" line) && Py.contains "=" line then
    let line := if Py.startswith "export " line then drop 7 line else line in
    match unpack2 (split_once "=" line) with
    | inr (key, value) => inr (<[key := strip_chars quotes value]> config)
    | inl e => inl e
    end
  else inr config.

Fixpoint config_lines (lines : list string) (config : gmap string string)
  : exn + gmap string string :=
  match lines with
  | [] => inr config
  | line :: lines' =>
      match config_line config line with
      | inr config' => config_lines lines' config'
      | inl e => inl e
      end
  end.

(** [load_config]: [file] is the content of [config.env] line by line, or
    [None] when there is no such file ([FileNotFoundError] is an
    [OSError]). *)
Definition load_config (file : option (list string))
  : exn + gmap string string :=
  match file with
  | None => inl OSError
  | Some lines => config_lines lines ∅
  end.

(** [CONFIG.get(key, fallback)]. *)
Definition get (config : gmap string string) (key fallback : string)
  : string :=
  match config !! key with
  | Some value => value
  | None => fallback
  end.

(** The [try] block at the level of the module, for the two constants
    that are read from the file: [(HDFS_NAMENODE, HDFS_PORT)]. *)
Definition namenode (file : option (list string)) : string * Z :=
  match load_config file with
  | inr config =>
      match Py.int (get config "HDFS_NAMENODE_PORT" "8020") with
      | Some port =>
          (get config "HDFS_NAMENODE_HOST" "big-data-005.kuhn-labs.com", port)
      | None => ("big-data-005.kuhn-labs.com", 8020)
      end
  | inl _ => ("big-data-005.kuhn-labs.com", 8020)
  end.

End Config.

(** ** A simulated cluster

    A concrete environment on which the workflow runs: a remote store
    that holds the files of the partitions, a local disk, and switches
    that inject the faults the sources handle.  In [env] the [hdfs3]
    client is absent, so every remote access goes through the [hdfs]
    command line, whose [-get] refuses a local file that exists; in
    [client_env] every remote access goes through the client. *)

Module Sim.

Record Table : Type := mkTable {
  schema : string;
  rows : Z
}.

Record RemoteFile : Type := mkRemoteFile {
  rf_path : string;
  rf_size : Z;
  rf_table : Table
}.

Record Faults : Type := mkFaults {
  get_fails : list string;   (* remote paths whose download fails *)
  rm_denied : list string;   (* remote paths the store refuses to delete *)
  put_fails : bool;          (* the upload fails *)
  write_drops_row : bool;    (* the written file lacks one row *)
  rmtree_fails : bool        (* the staging directory cannot be removed *)
}.

Record World : Type := mkWorld {
  remote : list RemoteFile;
  disk : list (string * Table);
  dirs : list string;
  faults : Faults
}.

Definition no_faults : Faults := mkFaults [] [] false false false.

Definition mem (x : string) (l : list string) : bool :=
  List.existsb (String.eqb x) l.

Definition find_remote (p : string) (w : World) : option RemoteFile :=
  List.find (fun f => String.eqb (rf_path f) p) (remote w).

Definition find_disk (p : string) (w : World) : option Table :=
  option_map snd (List.find (fun e => String.eqb (fst e) p) (disk w)).

(** One line of [hdfs dfs -ls]. *)
Definition ls_line (f : RemoteFile) : string :=
  "-rw-r--r--   3 hdfs supergroup " +:+ NilZero.string_of_int (Z.to_int (rf_size f))
  +:+ " 2025-08-15 10:00 " +:+ rf_path f.

Definition unlines (l : list string) : string :=
  List.fold_right (fun line out => line +:+ String newline out) "" l.

Definition ls (dir : string) (w : World) : CompletedProcess :=
  let here := List.filter (fun f => String.eqb (Py.dirname (rf_path f)) dir)
                (remote w) in
  match here with
  | [] => mkCompletedProcess 1 "" "ls: No such file or directory"
  | _ => mkCompletedProcess 0 (unlines (List.map ls_line here)) ""
  end.

Definition ok : CompletedProcess := mkCompletedProcess 0 "" "".
Definition failed : CompletedProcess := mkCompletedProcess 1 "" "error".

Definition set_remote (r : list RemoteFile) (w : World) : World :=
  mkWorld r (disk w) (dirs w) (faults w).
Definition set_disk (d : list (string * Table)) (w : World) : World :=
  mkWorld (remote w) d (dirs w) (faults w).
Definition set_dirs (d : list string) (w : World) : World :=
  mkWorld (remote w) (disk w) d (faults w).

Definition subprocess_run (argv : list string) (opts : RunOpts) (w : World)
  : (exn + CompletedProcess) * World :=
  match argv with
  | ["hdfs"; "dfs"; "-ls"; dir] => (inr (ls dir w), w)
  | ["hdfs"; "dfs"; "-rm"; p] =>
      match find_remote p w with
      | Some _ =>
          if mem p (rm_denied (faults w)) then (inr failed, w)
          else (inr ok,
                set_remote
                  (List.filter (fun f => negb (String.eqb (rf_path f) p))
                     (remote w)) w)
      | None => (inr failed, w)
      end
  | ["hdfs"; "dfs"; "-get"; src; dst] =>
      match find_remote src w, find_disk dst w with
      | Some f, None =>
          if mem src (get_fails (faults w)) then (inr failed, w)
          else (inr ok, set_disk ((dst, rf_table f) :: disk w) w)
      | _, _ => (inr failed, w)
      end
  | ["hdfs"; "dfs"; "-put"; src; dst] =>
      match find_disk src w with
      | Some t =>
          if put_fails (faults w) then (inr failed, w)
          else (inr ok,
                set_remote (remote w ++ [mkRemoteFile dst (100 * rows t) t]) w)
      | None => (inr failed, w)
      end
  | _ => (inl OSError, w)
  end.

Definition pq_read_table (file : string) (w : World) : (exn + Table) * World :=
  match find_disk file w with
  | Some t => (inr t, w)
  | None => (inl OSError, w)
  end.

Definition pq_write_table (t : Table) (file : string) (w : World)
  : (exn + unit) * World :=
  let written :=
    if write_drops_row (faults w) then mkTable (schema t) (rows t - 1) else t in
  (inr tt, set_disk ((file, written) :: disk w) w).

Definition pa_concat_tables (tables : list Table) : exn + Table :=
  match tables with
  | [] => inl ValueError
  | t :: ts =>
      if List.forallb (fun u => String.eqb (schema u) (schema t)) ts
      then inr (mkTable (schema t)
                  (List.fold_left (fun n u => n + rows u) ts (rows t)))
      else inl ArrowInvalid
  end.

Definition os_makedirs (dir : string) (w : World) : (exn + unit) * World :=
  (inr tt, set_dirs (dir :: dirs w) w).

Definition os_path_exists (dir : string) (w : World) : bool * World :=
  (mem dir (dirs w), w).

Definition shutil_rmtree (dir : string) (w : World) : (exn + unit) * World :=
  if rmtree_fails (faults w) then (inl OSError, w)
  else
    (inr tt,
     mkWorld (remote w)
       (List.filter (fun e => negb (Py.startswith (dir +:+ "/") (fst e)))
          (disk w))
       (List.filter (fun d => negb (String.eqb d dir)) (dirs w))
       (faults w)).

(** The days of the calendar the examples use. *)
Definition calendar : list (string * Z) :=
  [("2025-08-13", 739476); ("2025-08-14", 739477); ("2025-08-15", 739478)].

Definition strptime (s : string) : exn + Z :=
  match List.find (fun e => String.eqb (fst e) s) calendar with
  | Some e => inr (snd e)
  | None => inl ValueError
  end.

Definition strftime (d : Z) : string :=
  match List.find (fun e => snd e =? d) calendar with
  | Some e => fst e
  | None => "0000-00-00"
  end.

Definition unavailable {A} (w : World) : (exn + A) * World := (inl OSError, w).

Definition env : Env World Table :=
  mkEnv World Table
    subprocess_run
    (fun _ _ => unavailable)
    (fun _ => unavailable)
    (fun _ => unavailable)
    (fun _ _ => unavailable)
    (fun _ _ => unavailable)
    (fun _ => unavailable)
    os_makedirs
    os_path_exists
    shutil_rmtree
    (fun w => ("101500", w))
    (fun _ w => ([], w))
    pq_read_table
    pq_write_table
    rows
    pa_concat_tables
    strptime
    strftime
    false.

(** The partition of 2025-08-15 with one file per given size; every file
    holds ten rows of the same schema. *)
Definition day : string := "2025-08-15".

Definition file_name (i : nat) : string :=
  date_path day +:+ "/telemetry-" +:+ NilZero.string_of_uint (Nat.to_uint i)
  +:+ ".parquet".

Definition partition_from (i : nat) (sizes : list Z) : list RemoteFile :=
  List.map (fun p => mkRemoteFile (file_name (fst p)) (snd p) (mkTable "v1" 10))
    (List.combine (List.seq i (List.length sizes)) sizes).

Definition cluster (sizes : list Z) (f : Faults) : World :=
  mkWorld (partition_from 1 sizes) [] [] f.

Definition self : ParquetConsolidator := mkParquetConsolidator false.

(** Five files of 2000 bytes under the given faults, and the paths the
    workflow derives for that partition at the time of the clock. *)
Definition five (f : Faults) : World :=
  cluster [2000; 2000; 2000; 2000; 2000] f.
Definition temp_dir : string :=
  "/tmp/parquet_consolidation/consolidation_2025-08-15_101500".
Definition output_name : string :=
  "telemetry-2025-08-15-consolidated-101500.parquet".
Definition output_local : string := temp_dir +:+ "/" +:+ output_name.
Definition output_remote : string := date_path day +:+ "/" +:+ output_name.

(** Three files of 2000 bytes and two of 500 bytes that the store refuses
    to delete. *)
Definition stubborn : World :=
  cluster [2000; 2000; 2000; 500; 500]
    (mkFaults [] [file_name 4; file_name 5] false false false).

(** Two files of one base name in two directories, and a staging
    directory. *)
Definition twin_a : string := "/landing/a/telemetry-7.parquet".
Definition twin_b : string := "/landing/b/telemetry-7.parquet".
Definition twins : World :=
  mkWorld [mkRemoteFile twin_a 2000 (mkTable "v1" 10);
           mkRemoteFile twin_b 3000 (mkTable "v1" 7)] [] [] no_faults.
Definition staging : string := "/tmp/parquet_consolidation/twins".

(** The same cluster reached through the hdfs3 client.  The command line
    is not used; [get] opens the local file for writing, so a file that
    is there already is replaced; a fault makes a call raise. *)
Definition hdfs_connect (host : string) (port : Z) (w : World)
  : (exn + unit) * World := (inr tt, w).

Definition hdfs_ls (dir : string) (w : World) : (exn + list string) * World :=
  match List.filter (fun f => String.eqb (Py.dirname (rf_path f)) dir)
          (remote w) with
  | [] => (inl OSError, w)
  | here => (inr (List.map rf_path here), w)
  end.

Definition hdfs_info (p : string) (w : World) : (exn + Z) * World :=
  match find_remote p w with
  | Some f => (inr (rf_size f), w)
  | None => (inl OSError, w)
  end.

Definition hdfs_get (src dst : string) (w : World) : (exn + unit) * World :=
  match find_remote src w with
  | Some f =>
      if mem src (get_fails (faults w)) then (inl OSError, w)
      else (inr tt, set_disk ((dst, rf_table f) :: disk w) w)
  | None => (inl OSError, w)
  end.

Definition hdfs_put (src dst : string) (w : World) : (exn + unit) * World :=
  match find_disk src w with
  | Some t =>
      if put_fails (faults w) then (inl OSError, w)
      else (inr tt,
            set_remote (remote w ++ [mkRemoteFile dst (100 * rows t) t]) w)
  | None => (inl OSError, w)
  end.

Definition hdfs_rm (p : string) (w : World) : (exn + unit) * World :=
  match find_remote p w with
  | Some _ =>
      if mem p (rm_denied (faults w)) then (inl OSError, w)
      else (inr tt,
            set_remote
              (List.filter (fun f => negb (String.eqb (rf_path f) p))
                 (remote w)) w)
  | None => (inl OSError, w)
  end.

Definition client_env : Env World Table :=
  mkEnv World Table
    (fun _ _ => unavailable)
    hdfs_connect
    hdfs_ls
    hdfs_info
    hdfs_get
    hdfs_put
    hdfs_rm
    os_makedirs
    os_path_exists
    shutil_rmtree
    (fun w => ("101500", w))
    (fun _ w => ([], w))
    pq_read_table
    pq_write_table
    rows
    pa_concat_tables
    strptime
    strftime
    true.

Definition client : ParquetConsolidator := mkParquetConsolidator true.

End Sim.

(** ** Classes of calls *)

(** What a call does to the remote store: it lists or sizes files, reads a
    file, writes a file, or deletes a file; or it is local to the machine
    the program runs on; or it is none of these. *)
Inductive Kind : Type :=
| Listing
| Get
| Put
| Delete
| Local
| Other.

(** The kind of an [hdfs dfs] command line. *)
Definition hdfs_command (argv : list string) : Kind :=
  match argv with
  | a :: b :: c :: _ =>
      if String.eqb a "hdfs" && String.eqb b "dfs" then
        if String.eqb c "-ls" then Listing
        else if String.eqb c "-get" then Get
        else if String.eqb c "-put" then Put
        else if String.eqb c "-rm" then Delete
        else Other
      else Other
  | _ => Other
  end.

Section Calls.

Context {Table : Type}.

Definition kind (e : Event Table) : Kind :=
  match ev_op e with
  | Run argv _ _ => hdfs_command argv
  | HdfsConnect _ _ _ => Other
  | HdfsLs _ _ | HdfsInfo _ _ => Listing
  | HdfsGet _ _ _ => Get
  | HdfsPut _ _ _ => Put
  | HdfsRm _ _ => Delete
  | Makedirs _ _ | PathExists _ _ | Rmtree _ _ | Now _ | AsCompleted _ _
  | ReadTable _ _ | WriteTable _ _ _ => Local
  end.

Definition is_listing (e : Event Table) : bool :=
  match kind e with Listing => true | _ => false end.
Definition is_get (e : Event Table) : bool :=
  match kind e with Get => true | _ => false end.
Definition is_put (e : Event Table) : bool :=
  match kind e with Put => true | _ => false end.
Definition is_delete (e : Event Table) : bool :=
  match kind e with Delete => true | _ => false end.

(** Whether a call reported success: it raised nothing and, on the command
    line, its return code is 0. *)
Definition succeeded (e : Event Table) : bool :=
  match ev_op e with
  | Run _ _ (inr p) => returncode p =? 0
  | HdfsConnect _ _ (inr _) | HdfsLs _ (inr _) | HdfsInfo _ (inr _)
  | HdfsGet _ _ (inr _) | HdfsPut _ _ (inr _) | HdfsRm _ (inr _)
  | Makedirs _ (inr _) | Rmtree _ (inr _) | ReadTable _ (inr _)
  | WriteTable _ _ (inr _) => true
  | PathExists _ _ | Now _ | AsCompleted _ _ => true
  | _ => false
  end.

Definition put_ok (e : Event Table) : bool := is_put e && succeeded e.
Definition get_ok (e : Event Table) : bool := is_get e && succeeded e.

(** The remote path a [get] reads or a [delete] removes. *)
Definition remote_path (e : Event Table) : option string :=
  match ev_op e with
  | Run (_ :: _ :: _ :: p :: _) _ _ => Some p
  | HdfsGet p _ _ => Some p
  | HdfsRm p _ => Some p
  | _ => None
  end.

(** The local path a [get] writes to. *)
Definition get_target (e : Event Table) : option string :=
  match ev_op e with
  | Run (_ :: _ :: _ :: _ :: l :: _) _ _ => Some l
  | HdfsGet _ l _ => Some l
  | _ => None
  end.

(** The remote path a [put] writes. *)
Definition put_target (e : Event Table) : option string :=
  match ev_op e with
  | Run (_ :: _ :: _ :: _ :: p :: _) _ _ => Some p
  | HdfsPut _ p _ => Some p
  | _ => None
  end.

(** Whether a call raised an exception. *)
Definition raised (e : Event Table) : bool :=
  match ev_op e with
  | Run _ _ (inl _) | HdfsConnect _ _ (inl _) | HdfsLs _ (inl _)
  | HdfsInfo _ (inl _) | HdfsGet _ _ (inl _) | HdfsPut _ _ (inl _)
  | HdfsRm _ (inl _) | Makedirs _ (inl _) | Rmtree _ (inl _)
  | ReadTable _ (inl _) | WriteTable _ _ (inl _) => true
  | _ => false
  end.

(** A delete that reported success. *)
Definition delete_ok (e : Event Table) : bool := is_delete e && succeeded e.

(** A delete issued by the Source Reaper, [remove_source_files]; one
    issued by the Sweeper, [cleanup_corrupted_files]. *)
Definition is_reap (e : Event Table) : bool :=
  is_delete e &&
  match ev_site e with In_remove_source_files => true | _ => false end.

Definition is_sweep (e : Event Table) : bool :=
  is_delete e &&
  match ev_site e with In_cleanup_corrupted_files => true | _ => false end.

(** A call that neither uploads nor reaps. *)
Definition quiet (e : Event Table) : Prop :=
  is_put e = false /\ is_reap e = false.

(** The paths a trace asks the store to delete as sources, in order. *)
Definition reaped_paths (t : list (Event Table)) : list string :=
  omap remote_path (List.filter is_reap t).

(** The paths whose download reported success, in order. *)
Definition downloaded_paths (t : list (Event Table)) : list string :=
  omap remote_path (List.filter get_ok t).

End Calls.

(** ** The two size thresholds *)

(** Every entry of the table of [get_file_info] is at least
    [MIN_FILE_SIZE_BYTES] long. *)
Definition sizes_admitted (st : InfoState) : Prop :=
  forall f meta,
    file_info st !! f = Some meta -> MIN_FILE_SIZE_BYTES <= size_bytes meta.

(** Every entry of the table holds the size the listing gave. *)
Definition sizes_listed (size_map : gmap string Z) (st : InfoState) : Prop :=
  forall f meta,
    file_info st !! f = Some meta -> size_map !! f = Some (size_bytes meta).

(** The files of [files] that [get_file_info] admitted to its table: the
    size-filtered set. *)
Definition eligible_entries (info : FileInfo) (files : list string)
  : list string :=
  List.filter
    (fun f => match fi_files info !! f with Some _ => true | None => false end)
    files.

(** The files [get_file_info] has looked at are those of its table and of
    its list of skipped files; and its total is 0 with an empty table and
    at least [MIN_FILE_SIZE_BYTES] otherwise. *)
Definition tracked (done : list string) (st : InfoState) : Prop :=
  (forall f, List.In f done <->
             (is_Some (file_info st !! f) \/ List.In f (skipped_files st))) /\
  ((file_info st = ∅ /\ total_size st = 0) \/
   (file_info st <> ∅ /\ MIN_FILE_SIZE_BYTES <= total_size st)).

(** The line of a listing makes the Sweeper delete [path]: its size field
    reads as a size of at most [CLEANUP_THRESHOLD_BYTES], and [path] is its
    last field. *)
Definition swept_by (line path : string) : Prop :=
  exists size,
    Py.int (Py.part 4 (Py.split line)) = Some size /\
    size <= CLEANUP_THRESHOLD_BYTES /\
    path = Py.last_part (Py.split line).

(** ** Reading the trace of a merge *)

(** The local path a remote file is staged at: [_download_single_file]
    joins the staging directory and the base name of the remote path. *)
Definition staged (local_dir hdfs_file : string) : string :=
  Py.join local_dir (Py.basename hdfs_file).

(** The remote path [consolidate_date] uploads its output to, given the
    time stamp the clock returned. *)
Definition consolidated_path (date stamp : string) : string :=
  BASE_PATH +:+ "/date=" +:+ date +:+ "/" +:+
  ("telemetry-" +:+ date +:+ "-consolidated-" +:+ stamp +:+ ".parquet").

Section Merge.

Context {W Table : Type} (env : Env W Table).

(** The file a [pq.read_table] call of the Merger reads. *)
Definition read_file (e : Event Table) : option string :=
  match ev_site e, ev_op e with
  | In_consolidate_parquet_files, ReadTable f _ => Some f
  | _, _ => None
  end.

(** The rows a [pq.read_table] call of the Merger returned. *)
Definition rows_of (e : Event Table) : Z :=
  match ev_site e, ev_op e with
  | In_consolidate_parquet_files, ReadTable _ (inr t) => num_rows env t
  | _, _ => 0
  end.

(** The sum of the rows of the tables the Merger read in a trace. *)
Definition rows_read (t : list (Event Table)) : Z :=
  List.fold_right (fun e n => rows_of e + n) 0 t.

(** The Merger wrote [table] to [file], and the call returned. *)
Definition wrote (table : Table) (file : string) : Event Table :=
  mkEvent In_consolidate_parquet_files (WriteTable table file (inr tt)).

(** The Merger read [file] and got [table]. *)
Definition read (file : string) (table : Table) : Event Table :=
  mkEvent In_consolidate_parquet_files (ReadTable file (inr table)).

(** The call of the clock in [consolidate_date]. *)
Definition stamped (stamp : string) : Event Table :=
  mkEvent In_consolidate_date (Now stamp).

(** A [pq.write_table] call of the Merger. *)
Definition is_write (e : Event Table) : bool :=
  match ev_site e, ev_op e with
  | In_consolidate_parquet_files, WriteTable _ _ _ => true
  | _, _ => false
  end.

(** The trace shows a merge that passed its verification: the output was
    written, and its re-read returned as many rows as the inputs read
    before held. *)
Definition merge_verified (t : list (Event Table)) : Prop :=
  exists pre c out v post,
    t = pre ++ wrote c out :: read out v :: post /\
    num_rows env v = rows_read pre.

(** A call that is not issued by the Merger. *)
Definition outside_merger (e : Event Table) : Prop :=
  ev_site e <> In_consolidate_parquet_files.

End Merge.

(** ** The runs of a batch *)

Section Batch.

Context {W Table : Type} (env : Env W Table).

(** The runs of [consolidate_date] over [dates], one after the other:
    each starts in the world the one before it left, whatever that one
    returned. *)
Fixpoint date_runs (consolidator : ParquetConsolidator) (args : Args)
    (dates : list string) (w : W)
  : list ((exn + bool) * W * list (Event Table)) :=
  match dates with
  | [] => []
  | date :: dates' =>
      let r := consolidate_date env consolidator date (arg_target_size args)
                 (arg_dry_run args) w in
      r :: date_runs consolidator args dates' (world r)
  end.

(** The run of a date that fully succeeded. *)
Definition fully_succeeded (r : (exn + bool) * W * list (Event Table))
  : bool :=
  match outcome r with
  | inr true => true
  | _ => false
  end.

(** The [n + 1] consecutive days that end at the day of ordinal
    [start_date], the latest first. *)
Definition days_ending_at (start_date n : Z) : list string :=
  List.map (fun i => strftime env (start_date - i)) (range (n + 1)).

End Batch.

(** ** Predicates on computations *)

(** Every call the computation issues, from any world, satisfies [P]. *)
Definition emits {W Table A} (P : Event Table -> Prop) (m : M W Table A)
  : Prop :=
  forall w, Forall P (trace (m w)).

(** The computation returns a value from every world: no exception leaves
    it. *)
Definition returns {W Table A} (m : M W Table A) : Prop :=
  forall w, exists a, outcome (m w) = inr a.

(** * Properties *)

(** ** The computation combinators *)

Section Combinators.

Context {W Table : Type}.

Local Abbreviation Comp := (M W Table).

Variable P : Event Table -> Prop.

Lemma emits_ret {A} (a : A) : emits P (ret a : Comp A).
Proof. intros w. constructor. Qed.

Lemma emits_raise {A} (e : exn) : emits P (raise e : Comp A).
Proof. intros w. constructor. Qed.

Lemma emits_bind {A B} (m : Comp A) (k : A -> Comp B) :
  emits P m -> (forall a, emits P (k a)) -> emits P (bind m k).
Proof.
  intros Hm Hk w. unfold bind. specialize (Hm w).
  destruct (m w) as [[[e|a] w1] t1]; simpl in *; [exact Hm|].
  specialize (Hk a w1). destruct (k a w1) as [[r w2] t2]; simpl in *.
  apply Forall_app; split; assumption.
Qed.

Lemma emits_try_except {A} (m : Comp A) (h : exn -> Comp A) :
  emits P m -> (forall e, emits P (h e)) -> emits P (try_except m h).
Proof.
  intros Hm Hh w. unfold try_except. specialize (Hm w).
  destruct (m w) as [[[e|a] w1] t1]; simpl in *; [|exact Hm].
  specialize (Hh e w1). destruct (h e w1) as [[r w2] t2]; simpl in *.
  apply Forall_app; split; assumption.
Qed.

Lemma emits_try_finally {A} (m : Comp A) (f : Comp unit) :
  emits P m -> emits P f -> emits P (try_finally m f).
Proof.
  intros Hm Hf w. unfold try_finally. specialize (Hm w).
  destruct (m w) as [[r w1] t1]; simpl in *.
  specialize (Hf w1). destruct (f w1) as [[[e|u] w2] t2]; simpl in *;
    apply Forall_app; split; assumption.
Qed.

Lemma emits_perform {A} site (f : W -> (exn + A) * W) (op : exn + A -> Op Table) :
  (forall r, P (mkEvent site (op r))) -> emits P (perform site f op).
Proof.
  intros H w. unfold perform. destruct (f w) as [r w1]; simpl.
  constructor; [apply H | constructor].
Qed.

Lemma emits_observe {A} site (f : W -> A * W) (op : A -> Op Table) :
  (forall r, P (mkEvent site (op r))) -> emits P (observe site f op).
Proof.
  intros H w. unfold observe. destruct (f w) as [r w1]; simpl.
  constructor; [apply H | constructor].
Qed.

Lemma emits_of_result {A} (r : exn + A) : emits P (of_result r : Comp A).
Proof. destruct r; [apply emits_raise | apply emits_ret]. Qed.

Lemma emits_of_option {A} e (o : option A) : emits P (of_option e o : Comp A).
Proof. destruct o; [apply emits_ret | apply emits_raise]. Qed.

Lemma emits_for_each {A S} (xs : list A) (body : A -> S -> Comp S) (s : S) :
  (forall x s', emits P (body x s')) -> emits P (for_each xs body s).
Proof.
  intros Hb. revert s. induction xs as [|x xs IH]; intros s; simpl.
  - apply emits_ret.
  - apply emits_bind; [apply Hb | intros; apply IH].
Qed.

Lemma emits_map_m {A B} (f : A -> Comp B) (xs : list A) :
  (forall x, emits P (f x)) -> emits P (map_m f xs).
Proof.
  intros Hf. induction xs as [|x xs IH]; simpl.
  - apply emits_ret.
  - apply emits_bind; [apply Hf | intros].
    apply emits_bind; [apply IH | intros; apply emits_ret].
Qed.

Lemma returns_ret {A} (a : A) : returns (ret a : Comp A).
Proof. intros w. exists a. reflexivity. Qed.

Lemma returns_bind {A B} (m : Comp A) (k : A -> Comp B) :
  returns m -> (forall a, returns (k a)) -> returns (bind m k).
Proof.
  intros Hm Hk w. unfold bind. destruct (Hm w) as [a Ha].
  destruct (m w) as [[r w1] t1]; unfold outcome in Ha; simpl in Ha; subst r.
  destruct (Hk a w1) as [b Hb].
  destruct (k a w1) as [[r w2] t2]. exists b. exact Hb.
Qed.

Lemma returns_try_except {A} (m : Comp A) (h : exn -> Comp A) :
  (forall e, returns (h e)) -> returns (try_except m h).
Proof.
  intros Hh w. unfold try_except.
  destruct (m w) as [[[e|a] w1] t1].
  - destruct (Hh e w1) as [b Hb].
    destruct (h e w1) as [[r w2] t2]. exists b. exact Hb.
  - exists a. reflexivity.
Qed.

Lemma returns_try_finally {A} (m : Comp A) (f : Comp unit) :
  returns m -> returns f -> returns (try_finally m f).
Proof.
  intros Hm Hf w. unfold try_finally. destruct (Hm w) as [a Ha].
  destruct (m w) as [[r w1] t1]; unfold outcome in Ha; simpl in Ha; subst r.
  destruct (Hf w1) as [u Hu].
  destruct (f w1) as [[r w2] t2]; unfold outcome in Hu; simpl in Hu; subst r.
  exists a. reflexivity.
Qed.

Lemma returns_observe {A} site (f : W -> A * W) (op : A -> Op Table) :
  returns (observe site f op).
Proof.
  intros w. unfold observe. destruct (f w) as [a w1]. exists a. reflexivity.
Qed.

Lemma returns_for_each {A S} (xs : list A) (body : A -> S -> Comp S) (s : S) :
  (forall x s', returns (body x s')) -> returns (for_each xs body s).
Proof.
  intros Hb. revert s. induction xs as [|x xs IH]; intros s; simpl.
  - apply returns_ret.
  - apply returns_bind; [apply Hb | intros; apply IH].
Qed.

End Combinators.

(** Syntax-directed proof of [emits] and [returns] goals. *)
Ltac emits_step :=
  lazymatch goal with
  | |- emits _ (ret _) => apply emits_ret
  | |- emits _ (raise _) => apply emits_raise
  | |- emits _ (bind _ _) => apply emits_bind; [|intros]
  | |- emits _ (try_except _ _) => apply emits_try_except; [|intros]
  | |- emits _ (try_finally _ _) => apply emits_try_finally
  | |- emits _ (for_each _ _ _) => apply emits_for_each; intros
  | |- emits _ (map_m _ _) => apply emits_map_m; intros
  | |- emits _ (perform _ _ _) => apply emits_perform; intros
  | |- emits _ (observe _ _ _) => apply emits_observe; intros
  | |- emits _ (of_result _) => apply emits_of_result
  | |- emits _ (of_option _ _) => apply emits_of_option
  | |- emits _ (if ?b then _ else _) => destruct b
  | |- emits _ (match ?x with _ => _ end) => destruct x
  | |- emits _ (let _ := _ in _) => cbv zeta
  end.

Ltac returns_step :=
  lazymatch goal with
  | |- returns (ret _) => apply returns_ret
  | |- returns (bind _ _) => apply returns_bind; [|intros]
  | |- returns (try_except _ _) => apply returns_try_except; intros
  | |- returns (try_finally _ _) => apply returns_try_finally
  | |- returns (for_each _ _ _) => apply returns_for_each; intros
  | |- returns (observe _ _ _) => apply returns_observe
  | |- returns (if ?b then _ else _) => destruct b
  | |- returns (match ?x with _ => _ end) => destruct x
  | |- returns (let _ := _ in _) => cbv zeta
  end.

(** ** The calls each method issues *)

Section Methods.

Context {W Table : Type} (env : Env W Table).

Local Abbreviation Comp := (M W Table).

Implicit Types (self : ParquetConsolidator) (e : Event Table) (w : W).

Lemma emits_weaken {A} (P Q : Event Table -> Prop) (m : Comp A) :
  emits P m -> (forall e, P e -> Q e) -> emits Q m.
Proof.
  intros Hm HPQ w. eapply Forall_impl; [apply Hm | exact HPQ].
Qed.

Ltac event_shape :=
  simpl;
  solve [ repeat split; reflexivity
        | left; repeat split; reflexivity
        | right; repeat split; reflexivity
        | split; [reflexivity | left; reflexivity]
        | split; [reflexivity | right; split; reflexivity] ].

Ltac emits_auto := repeat emits_step; try event_shape.

(** The Sweeper lists the partition and, unless it runs dry, deletes. *)
Lemma cleanup_corrupted_files_emits self date dry_run :
  emits (fun e => ev_site e = In_cleanup_corrupted_files /\
                  (kind e = Listing \/ (kind e = Delete /\ dry_run = false)))
    (cleanup_corrupted_files env self date dry_run).
Proof.
  unfold cleanup_corrupted_files, run. emits_auto.
  unfold cleanup_line, run. emits_auto.
Qed.

Lemma get_daily_files_emits self date :
  emits (fun e => ev_site e = In_get_daily_files /\ kind e = Listing)
    (get_daily_files env self date).
Proof. unfold get_daily_files, run. emits_auto. Qed.

Lemma get_file_info_state_emits self files :
  emits (fun e => ev_site e = In_get_file_info /\ kind e = Listing)
    (get_file_info_state env self files).
Proof. unfold get_file_info_state, info_one, run. emits_auto. Qed.

Lemma get_file_info_emits self files :
  emits (fun e => ev_site e = In_get_file_info /\ kind e = Listing)
    (get_file_info env self files).
Proof.
  unfold get_file_info. emits_step; [apply get_file_info_state_emits|].
  emits_auto.
Qed.

Lemma download_single_file_emits self hdfs_file local_dir :
  emits (fun e => ev_site e = In_download_single_file /\ kind e = Get)
    (_download_single_file env self hdfs_file local_dir).
Proof. unfold _download_single_file, run. emits_auto. Qed.

Lemma download_files_emits self files local_dir :
  emits (fun e => (ev_site e = In_download_files /\ kind e = Local) \/
                  (ev_site e = In_download_single_file /\ kind e = Get))
    (download_files env self files local_dir).
Proof.
  unfold download_files. emits_step; [emits_auto|].
  emits_step; [emits_auto|]. emits_step. unfold collect_one.
  emits_step; [|emits_auto]. emits_step; [|emits_auto].
  eapply emits_weaken; [apply download_single_file_emits|].
  intros e He. right. exact He.
Qed.

Lemma consolidate_parquet_files_emits self local_files output_file :
  emits (fun e => ev_site e = In_consolidate_parquet_files /\ kind e = Local)
    (consolidate_parquet_files env self local_files output_file).
Proof. unfold consolidate_parquet_files, read_one. emits_auto. Qed.

Lemma upload_consolidated_file_emits self local_file hdfs_path :
  emits (fun e => ev_site e = In_upload_consolidated_file /\ kind e = Put)
    (upload_consolidated_file env self local_file hdfs_path).
Proof. unfold upload_consolidated_file, run. emits_auto. Qed.

Lemma remove_source_files_emits self files :
  emits (fun e => ev_site e = In_remove_source_files /\ kind e = Delete)
    (remove_source_files env self files).
Proof. unfold remove_source_files, remove_one, run. emits_auto. Qed.

Lemma cleanup_temp_dir_emits temp_dir :
  emits (fun e => ev_site e = In_consolidate_date /\ kind e = Local)
    (cleanup_temp_dir env temp_dir).
Proof. unfold cleanup_temp_dir. emits_auto. Qed.

(** No exception leaves a method whose body is guarded. *)
Lemma cleanup_corrupted_files_returns self date dry_run :
  returns (cleanup_corrupted_files env self date dry_run).
Proof. unfold cleanup_corrupted_files. repeat returns_step. Qed.

Lemma get_daily_files_returns self date :
  returns (get_daily_files env self date).
Proof. unfold get_daily_files. repeat returns_step. Qed.

Lemma get_file_info_returns self files :
  returns (get_file_info env self files).
Proof.
  unfold get_file_info, get_file_info_state, info_one. repeat returns_step.
Qed.

Lemma consolidate_parquet_files_returns self local_files output_file :
  returns (consolidate_parquet_files env self local_files output_file).
Proof. unfold consolidate_parquet_files. repeat returns_step. Qed.

Lemma upload_consolidated_file_returns self local_file hdfs_path :
  returns (upload_consolidated_file env self local_file hdfs_path).
Proof. unfold upload_consolidated_file. repeat returns_step. Qed.

Lemma remove_source_files_returns self files :
  returns (remove_source_files env self files).
Proof. unfold remove_source_files, remove_one. repeat returns_step. Qed.

Lemma cleanup_temp_dir_returns temp_dir :
  returns (cleanup_temp_dir env temp_dir).
Proof. unfold cleanup_temp_dir. repeat returns_step. Qed.

Lemma consolidate_date_returns self date target_size_mb dry_run :
  returns (consolidate_date env self date target_size_mb dry_run).
Proof.
  unfold consolidate_date.
  returns_step; [apply cleanup_corrupted_files_returns|].
  returns_step; [apply get_daily_files_returns|].
  returns_step; [returns_step|].
  returns_step; [apply get_file_info_returns|].
  returns_step; [returns_step|].
  returns_step; [returns_step|].
  returns_step; [repeat returns_step | apply cleanup_temp_dir_returns].
Qed.

End Methods.

(** ** The runs of the methods *)

Section Runs.

Context {W Table : Type} (env : Env W Table).

Implicit Types (self : ParquetConsolidator) (w : W) (x : exn).

Lemma bind_eq {A B} (m : M W Table A) (k : A -> M W Table B) w :
  bind m k w =
  match m w with
  | (inr a, w1, t1) =>
      match k a w1 with (r, w2, t2) => (r, w2, t1 ++ t2) end
  | (inl e, w1, t1) => (inl e, w1, t1)
  end.
Proof. reflexivity. Qed.

Lemma try_except_eq {A} (m : M W Table A) (h : exn -> M W Table A) w :
  try_except m h w =
  match m w with
  | (inl e, w1, t1) =>
      match h e w1 with (r, w2, t2) => (r, w2, t1 ++ t2) end
  | (inr a, w1, t1) => (inr a, w1, t1)
  end.
Proof. reflexivity. Qed.

Lemma rows_read_app (t1 t2 : list (Event Table)) :
  rows_read env (t1 ++ t2) = rows_read env t1 + rows_read env t2.
Proof.
  induction t1 as [|e t1 IH]; simpl; [reflexivity|]. rewrite IH. lia.
Qed.

Lemma read_one_eq (f : string) (st : list Table * Z) w :
  read_one env f st w =
  match pq_read_table env f w with
  | (inl x, w1) =>
      (inl x, w1, [mkEvent In_consolidate_parquet_files (ReadTable f (inl x))])
  | (inr t, w1) =>
      (inr (fst st ++ [t], snd st + num_rows env t), w1, [read f t])
  end.
Proof.
  unfold read_one, bind, perform.
  destruct (pq_read_table env f w) as [[x|t] w1]; reflexivity.
Qed.

(** The loop that reads the inputs: it reads them in order, and stops at
    the first that cannot be read. *)
Lemma read_loop_run (fs : list string) (tables : list Table) (total : Z) w :
  exists reads w1,
    Forall (fun e => ev_site e = In_consolidate_parquet_files /\
                     is_write e = false /\ kind e = Local) reads /\
    ((exists tables',
        for_each fs (read_one env) (tables, total) w
        = (inr (tables', total + rows_read env reads), w1, reads) /\
        omap read_file reads = fs)
     \/ (exists x, for_each fs (read_one env) (tables, total) w
                   = (inl x, w1, reads))).
Proof.
  revert tables total w. induction fs as [|f fs IH]; intros tables total w.
  - exists [], w. split; [constructor|]. left. exists tables. simpl.
    rewrite Z.add_0_r. split; reflexivity.
  - simpl for_each. rewrite bind_eq, read_one_eq.
    destruct (pq_read_table env f w) as [[e|t] w1].
    + do 2 eexists. split; [|right; eexists; reflexivity].
      repeat constructor.
    + simpl fst. simpl snd. 
      destruct (IH (tables ++ [t]) (total + num_rows env t) w1)
        as (reads & w2 & Hall & [(tables' & -> & Hfs)|(e & ->)]).
      * exists (read f t :: reads), w2. split.
        { constructor; [repeat split|exact Hall]. }
        left. exists tables'. split.
        { assert (E : total + rows_read env (read f t :: reads)
                      = total + num_rows env t + rows_read env reads)
            by (simpl; unfold rows_of at 1; simpl; lia).
          rewrite E. reflexivity. }
        { simpl. f_equal. exact Hfs. }
      * exists (read f t :: reads), w2. split.
        { constructor; [repeat split|exact Hall]. }
        right. exists e. reflexivity.
Qed.

(** The runs of the Merger: the reads of the inputs, then possibly the
    write of the output and its verification read.  It reports success
    only when the verification read returned as many rows as the inputs
    hold. *)
Lemma consolidate_parquet_files_run self local_files output_file w :
  exists reads rest b w1,
    consolidate_parquet_files env self local_files output_file w
    = (inr b, w1, reads ++ rest) /\
    Forall (fun e => ev_site e = In_consolidate_parquet_files /\
                     is_write e = false /\ kind e = Local) reads /\
    ((b = false /\ rest = [])
     \/ (b = false /\ exists c x,
           rest = [mkEvent In_consolidate_parquet_files
                     (WriteTable c output_file (inl x))])
     \/ (b = false /\ exists c x,
           rest = [wrote c output_file;
                   mkEvent In_consolidate_parquet_files
                     (ReadTable output_file (inl x))])
     \/ (exists c v,
           rest = [wrote c output_file; read output_file v] /\
           b = (num_rows env v =? rows_read env reads) /\
           omap read_file reads = local_files)).
Proof.
  unfold consolidate_parquet_files. rewrite try_except_eq, bind_eq.
  destruct (read_loop_run local_files [] 0 w)
    as (reads & w1 & Hall & [(tables & -> & Hfs)|(e & ->)]).
  - simpl fst. simpl snd. rewrite bind_eq.
    destruct (pa_concat_tables env tables) as [e|c]; simpl.
    + exists reads, [], false, w1. rewrite !app_nil_r. auto.
    + unfold bind, perform.
      destruct (pq_write_table env c output_file w1) as [[e|[]] w2]; simpl.
      * exists reads, [mkEvent In_consolidate_parquet_files
                         (WriteTable c output_file (inl e))], false, w2.
        rewrite app_nil_r. split; [reflexivity|]. split; [exact Hall|].
        right. left. eauto.
      * destruct (pq_read_table env output_file w2) as [[e|v] w3]; simpl.
        -- exists reads, [wrote c output_file;
                          mkEvent In_consolidate_parquet_files
                            (ReadTable output_file (inl e))], false, w3.
           rewrite app_nil_r. split; [reflexivity|]. split; [exact Hall|].
           right. right. left. eauto.
        -- exists reads, [wrote c output_file; read output_file v],
             (num_rows env v =? rows_read env reads), w3.
           split.
           { rewrite Z.add_0_l.
             destruct (num_rows env v =? rows_read env reads); reflexivity. }
           split; [exact Hall|]. right. right. right. eauto.
  - simpl. exists reads, [], false, w1. rewrite !app_nil_r. auto.
Qed.

Lemma upload_consolidated_file_run self local_file hdfs_path w :
  exists up,
    trace (upload_consolidated_file env self local_file hdfs_path w) = [up] /\
    ev_site up = In_upload_consolidated_file /\
    kind up = Put /\
    outcome (upload_consolidated_file env self local_file hdfs_path w)
    = inr (succeeded up).
Proof.
  unfold upload_consolidated_file, try_except, bind, run, perform.
  destruct (hdfs self).
  - destruct (hdfs_put env local_file hdfs_path w) as [[x|[]] w1];
      eexists; repeat split; reflexivity.
  - destruct (subprocess_run env _ _ w) as [[x|p] w1].
    + eexists; repeat split; reflexivity.
    + destruct (returncode p =? 0) eqn:E; eexists; repeat split; simpl;
        try reflexivity; unfold succeeded; simpl; rewrite E; reflexivity.
Qed.

Lemma remove_one_run self f n w :
  exists k w1 up,
    remove_one env self f n w = (inr k, w1, [up]) /\
    is_reap up = true /\ remote_path up = Some f.
Proof.
  unfold remove_one, try_except, bind, run, perform. destruct (hdfs self).
  - destruct (hdfs_rm env f w) as [[x|[]] w1];
      do 3 eexists; repeat split; reflexivity.
  - destruct (subprocess_run env _ _ w) as [[x|p] w1].
    + do 3 eexists; repeat split; reflexivity.
    + destruct (negb (returncode p =? 0));
        do 3 eexists; repeat split; reflexivity.
Qed.

Lemma remove_loop_run self files n w :
  exists k w1 t,
    for_each files (remove_one env self) n w = (inr k, w1, t) /\
    Forall (fun e => is_reap e = true) t /\
    omap remote_path t = files.
Proof.
  revert n w. induction files as [|f files IH]; intros n w.
  - simpl. do 3 eexists. repeat split. constructor.
  - simpl for_each. rewrite bind_eq.
    destruct (remove_one_run self f n w) as (k & w1 & up & -> & Hup & Hp).
    destruct (IH k w1) as (k' & w2 & t & -> & Hall & Hpaths).
    do 3 eexists. split; [reflexivity|]. split.
    + constructor; assumption.
    + simpl. rewrite Hp. simpl. f_equal. exact Hpaths.
Qed.

Lemma remove_source_files_run self files w :
  exists b w1 t,
    remove_source_files env self files w = (inr b, w1, t) /\
    Forall (fun e => is_reap e = true) t /\
    omap remote_path t = files.
Proof.
  unfold remove_source_files. rewrite bind_eq.
  destruct (remove_loop_run self files 0 w) as (k & w1 & t & -> & Hall & Hp).
  simpl. do 3 eexists. split; [reflexivity|]. rewrite app_nil_r. auto.
Qed.

Ltac pick_event :=
  match goal with
  | |- exists w1 down, (_, ?w, [?ev]) = _ /\ _ => exists w, ev
  end.

(** One future of the pool: a single [get] of the remote file, staged at
    the join of the staging directory and the base name. *)
Lemma collect_one_run self (local_dir f : string) (local_files : list string) w :
  exists w1 (down : Event Table),
    collect_one env self local_dir f local_files w
    = (inr (if succeeded down && truthy (staged local_dir f)
            then local_files ++ [staged local_dir f] else local_files),
       w1, [down]) /\
    ev_site down = In_download_single_file /\
    kind down = Get /\
    remote_path down = Some f.
Proof.
  unfold collect_one, _download_single_file, try_except, bind, run, perform,
    staged.
  destruct (hdfs self).
  - destruct (hdfs_get env f _ w) as [[x|[]] w1]; simpl.
    + pick_event. repeat split.
    + destruct (truthy (Py.join local_dir (Py.basename f))) eqn:E;
        simpl; pick_event; simpl; rewrite ?E; repeat split.
  - destruct (subprocess_run env _ _ w) as [[x|p] w1]; simpl.
    + pick_event. repeat split.
    + destruct (returncode p =? 0) eqn:Erc; simpl.
      * destruct (truthy (Py.join local_dir (Py.basename f))) eqn:E;
          simpl; pick_event; unfold succeeded; simpl; rewrite ?Erc, ?E;
          repeat split.
      * pick_event. unfold succeeded. simpl. rewrite Erc. repeat split.
Qed.

Lemma download_loop_run self (local_dir : string) (fs local_files : list string) w :
  exists w1 (t : list (Event Table)),
    for_each fs (collect_one env self local_dir) local_files w
    = (inr (local_files ++
            List.filter truthy
              (List.map (staged local_dir) (downloaded_paths t))), w1, t) /\
    Forall (fun e => ev_site e = In_download_single_file /\ kind e = Get) t /\
    omap remote_path t = fs.
Proof.
  revert local_files w. induction fs as [|f fs IH]; intros local_files w.
  - exists w, []. simpl. rewrite app_nil_r. repeat split. constructor.
  - simpl for_each. rewrite bind_eq.
    destruct (collect_one_run self local_dir f local_files w)
      as (w1 & down & -> & Hsite & Hkind & Hpath).
    destruct (IH (if succeeded down && truthy (staged local_dir f)
                  then local_files ++ [staged local_dir f] else local_files)
                w1) as (w2 & t & -> & Hall & Hfs).
    exists w2, (down :: t). split; [|split].
    + assert (Hg : get_ok down = succeeded down)
        by (unfold get_ok, is_get; rewrite Hkind; reflexivity).
      simpl app. do 2 f_equal. unfold downloaded_paths. simpl List.filter.
      rewrite Hg. destruct (succeeded down); simpl.
      * rewrite Hpath. simpl.
        destruct (truthy (staged local_dir f)); simpl;
          [rewrite <- app_assoc|]; reflexivity.
      * reflexivity.
    + constructor; [split; assumption | exact Hall].
    + simpl. rewrite Hpath. simpl. f_equal. exact Hfs.
Qed.

(** The Fetcher: it creates the staging directory, then gets every file
    once, in the order the pool completes them, and returns the staged
    paths of the downloads that succeeded. *)
Lemma download_files_run self (files : list string) (local_dir : string) w :
  let r := download_files env self files local_dir w in
  Forall (fun e => kind e = Local \/ kind e = Get) (trace r) /\
  Forall (fun e => ev_site e = In_download_files \/
                   ev_site e = In_download_single_file) (trace r) /\
  ((exists x, outcome r = inl x /\ downloaded_paths (trace r) = [])
   \/ (outcome r
       = inr (List.filter truthy
                (List.map (staged local_dir) (downloaded_paths (trace r)))) /\
       exists picks,
         omap remote_path (List.filter is_get (trace r)) = arrange picks files)).
Proof.
  unfold download_files. cbv zeta. rewrite bind_eq. unfold perform.
  destruct (os_makedirs env local_dir w) as [[x|[]] w1].
  - simpl. repeat split.
    + repeat constructor.
    + repeat constructor.
    + left. exists x. split; reflexivity.
  - rewrite bind_eq. unfold observe.
    destruct (as_completed env (List.length files) w1) as [picks w2].
    destruct (download_loop_run self local_dir (arrange picks files) [] w2)
      as (w3 & t & -> & Hall & Hfs).
    simpl. repeat split.
    + constructor; [left; reflexivity|]. constructor; [left; reflexivity|].
      eapply Forall_impl; [exact Hall|]. intros e [_ He]. right. exact He.
    + constructor; [left; reflexivity|]. constructor; [left; reflexivity|].
      eapply Forall_impl; [exact Hall|]. intros e [He _]. right. exact He.
    + right. split; [reflexivity|]. exists picks.
      rewrite <- Hfs. f_equal.
      clear Hfs. induction Hall as [|e t [_ He] _ IH]; [reflexivity|].
      simpl. unfold is_get at 1. rewrite He. f_equal. exact IH.
Qed.

(** Steps 4 to 7: the trace is the trace of the Fetcher, then of the
    Merger, then the upload, then the deletes of the Reaper, and it stops
    at the first step that fails. *)
Lemma consolidate_steps_run self (date : string) (files : list string)
    (temp_dir : string) w :
  let r := consolidate_steps env self date files temp_dir w in
  let d := download_files env self files temp_dir w in
  (trace r = trace d /\ outcome r <> inr true)
  \/ exists local_files stamp output_file w1,
       outcome d = inr local_files /\
       let m := consolidate_parquet_files env self local_files output_file w1 in
       exists rest,
         trace r = trace d ++ stamped stamp :: trace m ++ rest /\
         ((outcome m = inr false /\ rest = [] /\ outcome r = inr false)
          \/ (outcome m = inr true /\
              exists up,
                ev_site up = In_upload_consolidated_file /\ kind up = Put /\
                ((succeeded up = false /\ rest = [up] /\
                  outcome r = inr false)
                 \/ (succeeded up = true /\ outcome r = inr true /\
                     exists reap,
                       rest = up :: reap /\
                       Forall (fun e => is_reap e = true) reap /\
                       omap remote_path reap = files)))).
Proof.
  cbv zeta. unfold consolidate_steps, bind, observe.
  destruct (download_files env self files temp_dir w)
    as [[[x|local_files] w0] td] eqn:Ed.
  { left. split; [reflexivity | discriminate]. }
  destruct local_files as [|f0 local_files].
  { left. simpl. rewrite app_nil_r. split; [reflexivity | discriminate]. }
  right.
  destruct (now_hms env w0) as [stamp w1].
  set (output_file :=
         Py.join temp_dir
           ("telemetry-" +:+ date +:+ "-consolidated-" +:+ stamp +:+ ".parquet")).
  exists (f0 :: local_files), stamp, output_file, w1.
  split; [reflexivity|]. cbv zeta.
  destruct (consolidate_parquet_files_run self (f0 :: local_files)
              output_file w1) as (reads & mrest & b & w2 & Em & _).
  destruct (consolidate_parquet_files env self (f0 :: local_files)
              output_file w1) as [[rm w2'] tm].
  injection Em as -> -> ->.
  destruct b; cbv beta iota delta [negb].
  - match goal with
    | |- context [upload_consolidated_file env self ?a ?b w2] =>
        destruct (upload_consolidated_file_run self a b w2)
          as (up & Htr & Hsite & Hkind & Hout);
        destruct (upload_consolidated_file env self a b w2)
          as [[ru w3] tu]
    end.
    unfold trace, outcome in Htr, Hout. simpl in Htr, Hout. subst tu ru.
    destruct (succeeded up) eqn:Hs; cbv beta iota delta [negb].
    + destruct (remove_source_files_run self files w3)
        as (br & w4 & reap & Er & Hreap & Hpaths).
      destruct (remove_source_files env self files w3) as [[rr w4'] tr].
      injection Er as -> -> ->.
      simpl. exists (up :: reap). split.
      { rewrite app_nil_r. reflexivity. }
      right. split; [reflexivity|]. exists up. repeat split; try assumption.
      right. split; [exact Hs|]. split; [reflexivity|].
      exists reap. auto.
    + simpl. exists [up]. split; [reflexivity|].
      right. split; [reflexivity|]. exists up. repeat split; try assumption.
      left. auto.
  - simpl. exists []. split.
    { rewrite !app_nil_r. reflexivity. }
    left. auto.
Qed.
Ltac returned H :=
  let a := fresh "a" in
  let Ha := fresh "Ha" in
  destruct H as [a Ha]; unfold outcome in Ha; simpl in Ha;
  try discriminate Ha.

(** [consolidate_date]: the Sweeper, the listing, the gate on the number
    of listed files, the sizes, the dry-run stop, then steps 4 to 7 and
    the cleanup of the staging directory. *)
Lemma consolidate_date_run self (date : string) (target_size_mb : Z)
    (dry_run : bool) w :
  let r := consolidate_date env self date target_size_mb dry_run w in
  let c := cleanup_corrupted_files env self date dry_run w in
  let l := get_daily_files env self date (world c) in
  exists files,
    outcome l = inr files /\
    ((Z.of_nat (List.length files) < MIN_FILES_TO_CONSOLIDATE /\
      trace r = trace c ++ trace l /\ outcome r = inr true)
     \/ (MIN_FILES_TO_CONSOLIDATE <= Z.of_nat (List.length files) /\
         let i := get_file_info env self files (world l) in
         ((dry_run = true /\
           trace r = trace c ++ trace l ++ trace i /\ outcome r = inr true)
          \/ (dry_run = false /\
              exists stamp w1,
                now_hms env (world i) = (stamp, w1) /\
                let temp_dir :=
                  Py.join TEMP_LOCAL_DIR
                    ("consolidation_" +:+ date +:+ "_" +:+ stamp) in
                let s := consolidate_steps env self date files temp_dir w1 in
                let f := cleanup_temp_dir env temp_dir (world s) in
                trace r = trace c ++ trace l ++ trace i ++
                          stamped stamp :: trace s ++ trace f /\
                outcome r = inr (match outcome s with
                                 | inr b => b
                                 | inl _ => false
                                 end))))).
Proof.
  cbv zeta. unfold consolidate_date, bind.
  pose proof (cleanup_corrupted_files_returns env self date dry_run w) as Hc.
  destruct (cleanup_corrupted_files env self date dry_run w)
    as [[[x|n] wc] tc]; returned Hc. clear Ha a.
  pose proof (get_daily_files_returns env self date wc) as Hl.
  unfold world. simpl fst. simpl snd.
  destruct (get_daily_files env self date wc)
    as [[[x|files] wl] tl]; returned Hl. clear Ha a.
  exists files. split; [reflexivity|].
  destruct (Z.of_nat (List.length files) <? MIN_FILES_TO_CONSOLIDATE) eqn:Hgate.
  { left. apply Z.ltb_lt in Hgate. split; [exact Hgate|].
    simpl. rewrite app_nil_r. split; reflexivity. }
  right. apply Z.ltb_ge in Hgate. split; [exact Hgate|].
  pose proof (get_file_info_returns env self files wl) as Hi.
  unfold world. simpl fst. simpl snd.
  destruct (get_file_info env self files wl)
    as [[[x|info] wi] ti]; returned Hi. clear Ha a.
  simpl fst. simpl snd.
  destruct dry_run.
  { left. simpl. rewrite app_nil_r. auto. }
  right. split; [reflexivity|]. unfold observe.
  destruct (now_hms env wi) as [stamp w1].
  exists stamp, w1. split; [reflexivity|].
  unfold try_finally, try_except.
  remember (Py.join TEMP_LOCAL_DIR
              ("consolidation_" +:+ date +:+ "_" +:+ stamp)) as temp_dir.
  destruct (consolidate_steps env self date files temp_dir w1)
    as [[[x|b] ws] ts]; simpl fst; simpl snd.
  - unfold ret. cbv beta iota.
    pose proof (cleanup_temp_dir_returns env temp_dir ws) as Hf.
    destruct (cleanup_temp_dir env temp_dir ws)
      as [[[x'|[]] wf] tf]; returned Hf.
    simpl. rewrite app_nil_r. split; reflexivity.
  - pose proof (cleanup_temp_dir_returns env temp_dir ws) as Hf.
    destruct (cleanup_temp_dir env temp_dir ws)
      as [[[x'|[]] wf] tf]; returned Hf.
    simpl. split; reflexivity.
Qed.

Lemma quiet_kind (e : Event Table) :
  kind e = Listing \/ kind e = Local \/ kind e = Get -> quiet e.
Proof.
  unfold quiet, is_put, is_reap, is_delete.
  intros [H|[H|H]]; rewrite H; split; reflexivity.
Qed.

Lemma quiet_sweep (e : Event Table) :
  ev_site e = In_cleanup_corrupted_files ->
  kind e = Listing \/ kind e = Delete -> quiet e.
Proof.
  unfold quiet, is_put, is_reap, is_delete.
  intros Hs [H|H]; rewrite H, ?Hs; split; reflexivity.
Qed.

Lemma quiet_not_reap (t : list (Event Table)) :
  Forall quiet t -> Forall (fun e => is_reap e = false) t.
Proof. intros H. eapply Forall_impl; [exact H|]. intros e [_ He]. exact He. Qed.

Lemma quiet_stamped (stamp : string) : quiet (stamped stamp : Event Table).
Proof. split; reflexivity. Qed.

Lemma cleanup_corrupted_files_quiet self (date : string) (dry_run : bool) w :
  Forall quiet (trace (cleanup_corrupted_files env self date dry_run w)).
Proof.
  eapply Forall_impl; [apply cleanup_corrupted_files_emits|].
  intros e [Hs [H|[H _]]]; apply quiet_sweep; auto.
Qed.

Lemma get_daily_files_quiet self (date : string) w :
  Forall quiet (trace (get_daily_files env self date w)).
Proof.
  eapply Forall_impl; [apply get_daily_files_emits|].
  intros e [_ H]. apply quiet_kind; auto.
Qed.

Lemma get_file_info_quiet self (files : list string) w :
  Forall quiet (trace (get_file_info env self files w)).
Proof.
  eapply Forall_impl; [apply get_file_info_emits|].
  intros e [_ H]. apply quiet_kind; auto.
Qed.

Lemma download_files_quiet self (files : list string) (local_dir : string) w :
  Forall quiet (trace (download_files env self files local_dir w)).
Proof.
  eapply Forall_impl; [apply download_files_emits|].
  intros e [[_ H]|[_ H]]; apply quiet_kind; auto.
Qed.

Lemma consolidate_parquet_files_quiet self (local_files : list string)
    (output_file : string) w :
  Forall quiet
    (trace (consolidate_parquet_files env self local_files output_file w)).
Proof.
  eapply Forall_impl; [apply consolidate_parquet_files_emits|].
  intros e [_ H]. apply quiet_kind; auto.
Qed.

Lemma cleanup_temp_dir_quiet (temp_dir : string) w :
  Forall quiet (trace (cleanup_temp_dir env temp_dir w)).
Proof.
  eapply Forall_impl; [apply cleanup_temp_dir_emits|].
  intros e [_ H]. apply quiet_kind; auto.
Qed.

(** The shape of every run of [consolidate_date]: calls that neither
    upload nor reap, then possibly the upload, followed when it succeeded
    by the deletes of the Reaper, one per listed file, then the cleanup of
    the staging directory. *)
Lemma consolidate_date_shape self (date : string) (target_size_mb : Z)
    (dry_run : bool) w :
  let r := consolidate_date env self date target_size_mb dry_run w in
  exists before rest after,
    trace r = before ++ rest ++ after /\
    Forall quiet before /\ Forall quiet after /\
    ((rest = [] /\ after = [] /\ outcome r = inr true)
     \/ (rest = [] /\ outcome r = inr false)
     \/ (exists up,
           rest = [up] /\ is_put up = true /\ succeeded up = false /\
           outcome r = inr false)
     \/ (exists up reap,
           rest = up :: reap /\ put_ok up = true /\
           Forall (fun e => is_reap e = true) reap /\
           outcome r = inr true /\
           outcome (get_daily_files env self date
                      (world (cleanup_corrupted_files env self date
                                dry_run w)))
           = inr (omap remote_path reap))).
Proof.
  cbv zeta.
  destruct (consolidate_date_run self date target_size_mb dry_run w)
    as (files & Hl & Hrun). cbv zeta in Hrun. rewrite Hl.
  pose proof (cleanup_corrupted_files_quiet self date dry_run w) as Qc.
  pose proof (get_daily_files_quiet self date
                (world (cleanup_corrupted_files env self date dry_run w)))
    as Ql.
  destruct Hrun as [(_ & Ht & Ho)|(_ & [(_ & Ht & Ho)|(_ & Hfull)])].
  - eexists _, [], []. rewrite Ht, !app_nil_r.
    split; [reflexivity|]. split; [apply Forall_app; auto|].
    split; [constructor|]. left. auto.
  - eexists _, [], []. rewrite Ht, !app_nil_r.
    split; [reflexivity|]. split.
    { apply Forall_app; split; [exact Qc|].
      apply Forall_app; split; [exact Ql|]. apply get_file_info_quiet. }
    split; [constructor|]. left. auto.
  - destruct Hfull as (stamp & w1 & _ & Ht & Ho). rewrite Ht, Ho.
    match type of Ht with
    | context [consolidate_steps env self date files ?d w1] =>
        remember d as temp_dir;
        pose proof (consolidate_steps_run self date files temp_dir w1) as Hs;
        pose proof (download_files_quiet self files temp_dir w1) as Qd
    end.
    cbv zeta in Hs.
    pose proof (cleanup_temp_dir_quiet temp_dir
                  (world (consolidate_steps env self date files temp_dir w1)))
      as Qf.
    pose proof (get_file_info_quiet self files
                  (world (get_daily_files env self date
                            (world (cleanup_corrupted_files env self date
                                      dry_run w))))) as Qi.
    assert (Qplan : forall t, Forall quiet t ->
              Forall quiet
                (trace (cleanup_corrupted_files env self date dry_run w) ++
                 trace (get_daily_files env self date
                          (world (cleanup_corrupted_files env self date
                                    dry_run w))) ++
                 trace (get_file_info env self files
                          (world (get_daily_files env self date
                                    (world (cleanup_corrupted_files env self
                                              date dry_run w))))) ++
                 stamped stamp :: t)).
    { intros t Qt. apply Forall_app; split; [exact Qc|].
      apply Forall_app; split; [exact Ql|].
      apply Forall_app; split; [exact Qi|].
      constructor; [apply quiet_stamped | exact Qt]. }
    destruct Hs as [(Hts & Hos)|
                    (local_files & stamp2 & output_file & w2 & _ & rest & Hts & Hcases)].
    + rewrite Hts.
      match type of Ht with
      | _ = ?tc ++ ?tl ++ ?ti ++ _ :: _ ++ ?tf =>
          exists (tc ++ tl ++ ti ++ stamped stamp ::
                  trace (download_files env self files temp_dir w1)), [], tf
      end.
      split.
      { repeat (rewrite <- app_assoc; simpl). reflexivity. }
      split; [apply Qplan; exact Qd|]. split; [exact Qf|].
      right. left. split; [reflexivity|].
      destruct (outcome (consolidate_steps env self date files temp_dir w1))
        as [x|[]]; [reflexivity | contradiction Hos; reflexivity | reflexivity].
    + rewrite Hts.
      pose proof (consolidate_parquet_files_quiet self local_files output_file
                    w2) as Qm.
      exists (trace (cleanup_corrupted_files env self date dry_run w) ++
              trace (get_daily_files env self date
                       (world (cleanup_corrupted_files env self date
                                 dry_run w))) ++
              trace (get_file_info env self files
                       (world (get_daily_files env self date
                                 (world (cleanup_corrupted_files env self
                                           date dry_run w))))) ++
              stamped stamp ::
              (trace (download_files env self files temp_dir w1) ++
               stamped stamp2 ::
               trace (consolidate_parquet_files env self local_files
                        output_file w2))),
        rest,
        (trace (cleanup_temp_dir env temp_dir
                  (world (consolidate_steps env self date files temp_dir w1)))).
      split.
      { repeat (rewrite <- app_assoc; simpl). reflexivity. }
      split.
      { apply Qplan. apply Forall_app; split; [exact Qd|].
        constructor; [apply quiet_stamped | exact Qm]. }
      split; [exact Qf|].
      destruct Hcases as [(_ & -> & ->)|(_ & up & Hsite & Hkind & Hup)].
      * right. left. auto.
      * assert (Hput : is_put up = true)
          by (unfold is_put; rewrite Hkind; reflexivity).
        destruct Hup as [(Hfail & -> & ->)|(Hok & -> & reap & -> & Hreap & Hp)].
        -- right. right. left. exists up. auto.
        -- right. right. right. exists up, reap. split; [reflexivity|].
           split; [unfold put_ok; rewrite Hput, Hok; reflexivity|].
           split; [exact Hreap|]. split; [reflexivity|].
           rewrite Hp. reflexivity.
Qed.

End Runs.

(** ** The workflow of one date *)

Section Workflow.

Context {W Table : Type} (env : Env W Table).

Implicit Types (self : ParquetConsolidator) (w : W) (x : exn).

(** Where an event that satisfies [p] sits in a trace whose first part has
    no such event. *)
Lemma split_past_prefix {A} (p : A -> bool) (before tail pre post : list A)
    (a : A) :
  before ++ tail = pre ++ a :: post ->
  Forall (fun b => p b = false) before ->
  p a = true ->
  exists mid, pre = before ++ mid /\ tail = mid ++ a :: post.
Proof.
  revert pre. induction before as [|b before IH]; intros pre Heq Hall Ha.
  - exists pre. split; [reflexivity | exact Heq].
  - inversion Hall as [|? ? Hb Hrest]; subst.
    destruct pre as [|b' pre]; simpl in Heq; injection Heq as -> Heq.
    + congruence.
    + destruct (IH pre Heq Hrest Ha) as (mid & -> & ->).
      exists mid. split; reflexivity.
Qed.

Lemma put_ok_not_reap (e : Event Table) : put_ok e = true -> is_reap e = false.
Proof.
  unfold put_ok, is_put, is_reap, is_delete.
  destruct (kind e); simpl; try discriminate. reflexivity.
Qed.

Lemma is_reap_not_put (e : Event Table) : is_reap e = true -> is_put e = false.
Proof.
  unfold is_put, is_reap, is_delete.
  destruct (kind e); simpl; try discriminate. reflexivity.
Qed.

(** C2: publish happens strictly before any delete of the Source Reaper.
    In every run of [consolidate_date], a delete issued by
    [remove_source_files] is preceded by an upload that reported success;
    and when the upload fails the run returns [False] and no delete of
    [remove_source_files] is attempted. *)
Theorem publish_before_reap self (date : string) (target_size_mb : Z)
    (dry_run : bool) w :
  let r := consolidate_date env self date target_size_mb dry_run w in
  (forall pre e post,
     trace r = pre ++ e :: post -> is_reap e = true ->
     exists up, List.In up pre /\ put_ok up = true) /\
  (forall up,
     List.In up (trace r) -> is_put up = true -> succeeded up = false ->
     outcome r = inr false /\
     Forall (fun e => is_reap e = false) (trace r)).
Proof.
  cbv zeta.
  destruct (consolidate_date_shape env self date target_size_mb dry_run w)
    as (before & rest & after & Ht & Qb & Qa & Hcases).
  cbv zeta in Ht. rewrite Ht.
  assert (Rb : Forall (fun e => is_reap e = false) before)
    by (apply quiet_not_reap; exact Qb).
  assert (Ra : Forall (fun e => is_reap e = false) after)
    by (apply quiet_not_reap; exact Qa).
  assert (Pb : Forall (fun e => is_put e = false) before).
  { eapply Forall_impl; [exact Qb|]. intros e [He _]. exact He. }
  assert (Pa : Forall (fun e => is_put e = false) after).
  { eapply Forall_impl; [exact Qa|]. intros e [He _]. exact He. }
  assert (Hnone : forall t : list (Event Table),
            Forall (fun e => is_reap e = false) t ->
            forall pre e post, t = pre ++ e :: post -> is_reap e = true ->
            False).
  { intros t Hall pre e post -> He.
    apply Forall_app in Hall as [_ Hall].
    inversion Hall; subst. congruence. }
  assert (Hin : forall (p : Event Table -> bool) t e,
            Forall (fun a => p a = false) t -> List.In e t -> p e = true ->
            False).
  { intros p t e Hall Hi He.
    rewrite List.Forall_forall in Hall. specialize (Hall e Hi). congruence. }
  destruct Hcases as [(-> & _ & Ho)|[(-> & Ho)|[(up & -> & Hput & Hfail & Ho)|
                      (up & reap & -> & Hok & Hreap & Ho & _)]]].
  - split.
    + intros pre e post Heq He. exfalso.
      eapply (Hnone (before ++ [] ++ after)); eauto.
      apply Forall_app; split; [exact Rb | exact Ra].
    + intros up Hi Hp _. exfalso. simpl in Hi.
      apply List.in_app_or in Hi as [Hi|Hi];
        [exact (Hin is_put before up Pb Hi Hp)
        |exact (Hin is_put after up Pa Hi Hp)].
  - split.
    + intros pre e post Heq He. exfalso.
      eapply (Hnone (before ++ [] ++ after)); eauto.
      apply Forall_app; split; [exact Rb | exact Ra].
    + intros up Hi Hp _. exfalso. simpl in Hi.
      apply List.in_app_or in Hi as [Hi|Hi];
        [exact (Hin is_put before up Pb Hi Hp)
        |exact (Hin is_put after up Pa Hi Hp)].
  - assert (Rall : Forall (fun e => is_reap e = false)
                     (before ++ [up] ++ after)).
    { apply Forall_app; split; [exact Rb|]. constructor; [|exact Ra].
      unfold is_reap, is_delete. unfold is_put in Hput.
      destruct (kind up); try discriminate; reflexivity. }
    split.
    + intros pre e post Heq He. exfalso. eapply Hnone; eauto.
    + intros _ _ _ _. split; [exact Ho | exact Rall].
  - split.
    + intros pre e post Heq He.
      destruct (split_past_prefix is_reap before _ pre post e Heq Rb He)
        as (mid & -> & Hmid).
      exists up. split; [|exact Hok].
      destruct mid as [|m mid]; simpl in Hmid; injection Hmid as <- _.
      * apply put_ok_not_reap in Hok. congruence.
      * apply List.in_or_app. right. left. reflexivity.
    + intros up' Hi Hp Hf. exfalso.
      apply List.in_app_or in Hi as [Hi|Hi];
        [exact (Hin is_put before up' Pb Hi Hp)|].
      simpl in Hi. destruct Hi as [<-|Hi].
      * unfold put_ok in Hok. rewrite Hf in Hok.
        rewrite andb_false_r in Hok. discriminate.
      * apply List.in_app_or in Hi as [Hi|Hi];
          [|exact (Hin is_put after up' Pa Hi Hp)].
        rewrite List.Forall_forall in Hreap. specialize (Hreap up' Hi).
        apply is_reap_not_put in Hreap. congruence.
Qed.

(** A listing is neither a put, nor a delete, nor a get. *)
Lemma listing_reads_only (e : Event Table) :
  kind e = Listing ->
  is_listing e = true /\ is_put e = false /\ is_delete e = false /\
  is_get e = false.
Proof.
  unfold is_listing, is_put, is_delete, is_get. intros ->. repeat split.
Qed.

(** C4: dry-run purity.  With [dry_run] set, [consolidate_date] returns
    [True] and every call it issues is a listing or a size query: no
    remote put, no delete (the Sweeper only lists), no get, and nothing
    local; this holds whether or not enough files are listed. *)
Theorem dry_run_purity self (date : string) (target_size_mb : Z) w :
  let r := consolidate_date env self date target_size_mb true w in
  outcome r = inr true /\
  Forall (fun e => is_listing e = true /\ is_put e = false /\
                   is_delete e = false /\ is_get e = false) (trace r) /\
  Forall (fun e => is_listing e = true)
    (trace (cleanup_corrupted_files env self date true w)).
Proof.
  cbv zeta.
  destruct (consolidate_date_run env self date target_size_mb true w)
    as (files & Hl & Hrun). cbv zeta in Hrun.
  assert (Hc : Forall (fun e : Event Table => kind e = Listing)
                 (trace (cleanup_corrupted_files env self date true w))).
  { eapply Forall_impl; [apply cleanup_corrupted_files_emits|].
    intros e [_ [H|[_ H]]]; [exact H | discriminate]. }
  assert (Hlist : Forall (fun e : Event Table => kind e = Listing)
                    (trace (get_daily_files env self date
                       (world (cleanup_corrupted_files env self date true w))))).
  { eapply Forall_impl; [apply get_daily_files_emits|].
    intros e [_ H]. exact H. }
  assert (Hi : Forall (fun e : Event Table => kind e = Listing)
                 (trace (get_file_info env self files
                    (world (get_daily_files env self date
                       (world (cleanup_corrupted_files env self date true
                                 w))))))).
  { eapply Forall_impl; [apply get_file_info_emits|].
    intros e [_ H]. exact H. }
  assert (Hall : outcome (consolidate_date env self date target_size_mb true w)
                 = inr true /\
                 Forall (fun e : Event Table => kind e = Listing)
                   (trace (consolidate_date env self date target_size_mb
                             true w))).
  { destruct Hrun as [(_ & -> & Ho)|(_ & [(_ & -> & Ho)|(Hd & _)])].
    - split; [exact Ho|]. apply Forall_app; split; assumption.
    - split; [exact Ho|]. apply Forall_app; split; [assumption|].
      apply Forall_app; split; assumption.
    - discriminate Hd. }
  destruct Hall as [Ho Hk]. split; [exact Ho|]. split.
  - eapply Forall_impl; [exact Hk|]. apply listing_reads_only.
  - eapply Forall_impl; [exact Hc|]. intros e He.
    apply listing_reads_only. exact He.
Qed.


(** The Fetcher starts by creating the staging directory. *)
Lemma download_files_starts self (files : list string) (local_dir : string) w :
  exists res rest,
    trace (download_files env self files local_dir w)
    = mkEvent In_download_files (Makedirs local_dir res) :: rest.
Proof.
  unfold download_files, bind, perform, observe.
  destruct (os_makedirs env local_dir w) as [[x|[]] w1].
  - do 2 eexists. reflexivity.
  - destruct (as_completed env (List.length files) w1) as [picks w2].
    destruct (for_each _ _ _ w2) as [[r w3] t]. do 2 eexists. reflexivity.
Qed.

(** C5 (amended): the gate is on the number of files the listing returns,
    before any size is looked at.  When [get_daily_files] returns fewer
    than [MIN_FILES_TO_CONSOLIDATE] files, [consolidate_date] returns
    [True] right after the listing: it issues no get, no put and no delete
    of the Source Reaper, and its only calls are those of the Sweeper and
    of the listing.  When it returns at least that many and the run is not
    dry, the Fetcher runs. *)
Theorem gate_on_listed_files self (date : string) (target_size_mb : Z)
    (dry_run : bool) w (files : list string) :
  let r := consolidate_date env self date target_size_mb dry_run w in
  let c := cleanup_corrupted_files env self date dry_run w in
  let l := get_daily_files env self date (world c) in
  outcome l = inr files ->
  (Z.of_nat (List.length files) < MIN_FILES_TO_CONSOLIDATE ->
   outcome r = inr true /\
   trace r = trace c ++ trace l /\
   Forall (fun e => is_put e = false /\ is_get e = false /\
                    is_reap e = false) (trace r)) /\
  (MIN_FILES_TO_CONSOLIDATE <= Z.of_nat (List.length files) ->
   dry_run = false ->
   exists e, List.In e (trace r) /\ ev_site e = In_download_files).
Proof.
  cbv zeta. intros Hl.
  destruct (consolidate_date_run env self date target_size_mb dry_run w)
    as (files' & Hl' & Hrun). cbv zeta in Hrun.
  rewrite Hl in Hl'. injection Hl' as <-.
  split.
  - intros Hlow.
    destruct Hrun as [(_ & Ht & Ho)|(Hge & _)]; [|lia].
    split; [exact Ho|]. split; [exact Ht|]. rewrite Ht.
    apply Forall_app; split.
    + eapply Forall_impl; [apply cleanup_corrupted_files_emits|].
      intros e [Hs Hk]. unfold is_put, is_get, is_reap, is_delete.
      rewrite Hs. destruct Hk as [->|[-> _]]; repeat split.
    + eapply Forall_impl; [apply get_daily_files_emits|].
      intros e [_ Hk]. unfold is_put, is_get, is_reap, is_delete.
      rewrite Hk. repeat split.
  - intros Hge ->.
    destruct Hrun as [(Hlow & _)|(_ & [(Hd & _)|(_ & Hfull)])];
      [lia | discriminate Hd |].
    destruct Hfull as (stamp & w1 & _ & Ht & _). rewrite Ht.
    match type of Ht with
    | context [consolidate_steps env self date files ?d w1] =>
        destruct (download_files_starts self files d w1) as (res & rest & Hd);
        pose proof (consolidate_steps_run env self date files d w1) as Hs;
        exists (mkEvent In_download_files (Makedirs d res))
    end.
    split; [|reflexivity]. cbv zeta in Hs.
    apply List.in_or_app. right. apply List.in_or_app. right.
    apply List.in_or_app. right. right. apply List.in_or_app. left.
    destruct Hs as [(-> & _)|(? & ? & ? & ? & _ & ? & -> & _)];
      rewrite Hd; [left; reflexivity|].
    left. reflexivity.
Qed.

(** The paths the Source Reaper is asked to delete: none, or the whole
    list [get_daily_files] returned, whatever the downloads did. *)
Lemma reaper_gets_whole_listing self (date : string) (target_size_mb : Z)
    (dry_run : bool) w :
  let r := consolidate_date env self date target_size_mb dry_run w in
  reaped_paths (trace r) = [] \/
  outcome (get_daily_files env self date
             (world (cleanup_corrupted_files env self date dry_run w)))
  = inr (reaped_paths (trace r)).
Proof.
  cbv zeta.
  destruct (consolidate_date_shape env self date target_size_mb dry_run w)
    as (before & rest & after & Ht & Qb & Qa & Hcases).
  cbv zeta in Ht. rewrite Ht.
  assert (Hq : forall t : list (Event Table),
            Forall quiet t -> List.filter is_reap t = []).
  { intros t Hall. induction Hall as [|e t [_ He] _ IH]; [reflexivity|].
    simpl. rewrite He. exact IH. }
  assert (Hr : forall t : list (Event Table),
            Forall (fun e => is_reap e = true) t -> List.filter is_reap t = t).
  { intros t Hall. induction Hall as [|e t He _ IH]; [reflexivity|].
    simpl. rewrite He, IH. reflexivity. }
  unfold reaped_paths.
  rewrite !List.filter_app, (Hq before Qb), (Hq after Qa), app_nil_r.
  simpl app.
  destruct Hcases as [(-> & _)|[(-> & _)|[(up & -> & Hput & _)|
                      (up & reap & -> & Hok & Hreap & _ & Hl)]]].
  - left. reflexivity.
  - left. reflexivity.
  - left. simpl. unfold is_reap, is_delete. unfold is_put in Hput.
    destruct (kind up); try discriminate; reflexivity.
  - right. simpl. rewrite (put_ok_not_reap up Hok), (Hr reap Hreap).
    exact Hl.
Qed.


Ltac forall_parts :=
  repeat match goal with
         | |- Forall _ _ => assumption
         | |- Forall _ (_ ++ _) => apply Forall_app; split
         | |- Forall _ (_ :: _) => constructor
         | |- Forall _ [] => constructor
         end.

Lemma outside_of_site (P : Event Table -> Prop) (s : Site) (t : list (Event Table)) :
  s <> In_consolidate_parquet_files ->
  Forall (fun e => ev_site e = s /\ P e) t -> Forall outside_merger t.
Proof.
  intros Hs Hall. eapply Forall_impl; [exact Hall|].
  intros e [He _]. unfold outside_merger. rewrite He. exact Hs.
Qed.

Lemma is_reap_outside (t : list (Event Table)) :
  Forall (fun e => is_reap e = true) t -> Forall outside_merger t.
Proof.
  intros Hall. eapply Forall_impl; [exact Hall|].
  intros e He. unfold outside_merger, is_reap in *.
  destruct (ev_site e); try (rewrite andb_false_r in He; discriminate He);
    discriminate.
Qed.

Lemma download_files_outside self (files : list string) (local_dir : string) w :
  Forall outside_merger (trace (download_files env self files local_dir w)).
Proof.
  eapply Forall_impl; [apply download_files_emits|].
  intros e [[He _]|[He _]]; unfold outside_merger; rewrite He; discriminate.
Qed.

Lemma outside_no_rows (t : list (Event Table)) :
  Forall outside_merger t -> rows_read env t = 0.
Proof.
  intros Hall. induction Hall as [|e t He _ IH]; [reflexivity|].
  simpl. rewrite IH. unfold rows_of, outside_merger in *.
  destruct (ev_site e); try reflexivity. contradiction He. reflexivity.
Qed.


(** Every run of [consolidate_date] seen from the Merger: either the
    Merger never ran, or the trace is what precedes the Merger, its reads
    of the inputs, its write and verification read, and what follows.  The
    run goes on to the upload only when the verification read returned as
    many rows as the inputs held. *)
Lemma consolidate_date_merge_cases self (date : string) (target_size_mb : Z)
    (dry_run : bool) w (files : list string) :
  let r := consolidate_date env self date target_size_mb dry_run w in
  outcome (get_daily_files env self date
             (world (cleanup_corrupted_files env self date dry_run w)))
  = inr files ->
  (Forall outside_merger (trace r) /\ Forall quiet (trace r) /\
   (outcome r = inr false \/
    Z.of_nat (List.length files) < MIN_FILES_TO_CONSOLIDATE \/
    dry_run = true))
  \/ exists before reads mrest after,
       trace r = before ++ reads ++ mrest ++ after /\
       Forall outside_merger before /\ Forall outside_merger after /\
       Forall (fun e => ev_site e = In_consolidate_parquet_files /\
                        is_write e = false /\ kind e = Local) reads /\
       ((Forall quiet (trace r) /\ outcome r = inr false /\
         (mrest = []
          \/ (exists c out x,
                mrest = [mkEvent In_consolidate_parquet_files
                           (WriteTable c out (inl x))])
          \/ (exists c out x,
                mrest = [wrote c out;
                         mkEvent In_consolidate_parquet_files
                           (ReadTable out (inl x))])
          \/ (exists c out v,
                mrest = [wrote c out; read out v] /\
                num_rows env v <> rows_read env reads)))
        \/ (exists c out v,
              mrest = [wrote c out; read out v] /\
              num_rows env v = rows_read env reads)).
Proof.
  cbv zeta. intros Hl.
  destruct (consolidate_date_run env self date target_size_mb dry_run w)
    as (files' & Hl' & Hrun). cbv zeta in Hrun.
  rewrite Hl in Hl'. injection Hl' as <-.
  pose proof (cleanup_corrupted_files_quiet env self date dry_run w) as Qc.
  pose proof (get_daily_files_quiet env self date
                (world (cleanup_corrupted_files env self date dry_run w)))
    as Ql.
  pose proof (get_file_info_quiet env self files
                (world (get_daily_files env self date
                          (world (cleanup_corrupted_files env self date
                                    dry_run w))))) as Qi.
  assert (Oc : Forall outside_merger
                 (trace (cleanup_corrupted_files env self date dry_run w))).
  { eapply outside_of_site; [|apply cleanup_corrupted_files_emits].
    discriminate. }
  assert (Ol : Forall outside_merger
                 (trace (get_daily_files env self date
                    (world (cleanup_corrupted_files env self date dry_run w))))).
  { eapply outside_of_site; [|apply get_daily_files_emits]. discriminate. }
  assert (Oi : Forall outside_merger
                 (trace (get_file_info env self files
                    (world (get_daily_files env self date
                       (world (cleanup_corrupted_files env self date dry_run
                                 w))))))).
  { eapply outside_of_site; [|apply get_file_info_emits]. discriminate. }
  destruct Hrun as [(Hlow & Ht & Ho)|(_ & [(Hd & Ht & Ho)|(_ & Hfull)])].
  - left. rewrite Ht. split; [apply Forall_app; auto|].
    split; [apply Forall_app; auto|]. right. left. exact Hlow.
  - left. rewrite Ht.
    split; [apply Forall_app; split; [auto|apply Forall_app; auto]|].
    split; [apply Forall_app; split; [auto|apply Forall_app; auto]|].
    right. right. exact Hd.
  - destruct Hfull as (stamp & w1 & _ & Ht & Ho). rewrite Ht, Ho.
    match type of Ht with
    | context [consolidate_steps env self date files ?d w1] =>
        remember d as temp_dir;
        pose proof (consolidate_steps_run env self date files temp_dir w1)
          as Hs;
        pose proof (download_files_quiet env self files temp_dir w1) as Qd;
        pose proof (download_files_outside self files temp_dir w1) as Od
    end.
    cbv zeta in Hs.
    pose proof (cleanup_temp_dir_quiet env temp_dir
                  (world (consolidate_steps env self date files temp_dir w1)))
      as Qf.
    assert (Of : Forall outside_merger
                   (trace (cleanup_temp_dir env temp_dir
                      (world (consolidate_steps env self date files temp_dir
                                w1))))).
    { eapply outside_of_site; [|apply cleanup_temp_dir_emits]. discriminate. }
    assert (Ostamp : forall s, outside_merger (stamped s : Event Table))
      by (intros s; discriminate).
    destruct Hs as [(Hts & Hos)|
                    (local_files & stamp2 & output_file & w2 & _ & rest & Hts
                     & Hcases)].
    + left. rewrite Hts. split; [|split].
      * repeat (apply Forall_app; split; auto). constructor; auto.
        apply Forall_app; auto.
      * repeat (apply Forall_app; split; auto).
        constructor; [apply quiet_stamped|]. apply Forall_app; auto.
      * left.
        destruct (outcome (consolidate_steps env self date files temp_dir w1))
          as [x|[]]; [reflexivity | contradiction Hos; reflexivity
                     | reflexivity].
    + right. rewrite Hts.
      destruct (consolidate_parquet_files_run env self local_files output_file
                  w2) as (reads & mrest & b & w3 & Em & Hreads & Hm).
      pose proof (consolidate_parquet_files_quiet env self local_files
                    output_file w2) as Qm.
      rewrite Em in Hcases, Qm |- *. unfold trace, outcome in Hcases.
      simpl in Hcases. unfold trace at 4 5. simpl snd.
      match goal with
      | |- context [?tc ++ ?tl ++ ?ti ++ stamped stamp :: _] =>
          exists (tc ++ tl ++ ti ++ stamped stamp ::
                  trace (download_files env self files temp_dir w1) ++
                  [stamped stamp2]), reads, mrest,
            (rest ++ trace (cleanup_temp_dir env temp_dir
                              (world (consolidate_steps env self date files
                                        temp_dir w1))))
      end.
      split.
      { repeat (rewrite <- app_assoc; simpl). reflexivity. }
      split.
      { repeat (apply Forall_app; split; auto). constructor; auto.
        apply Forall_app; split; auto. }
      unfold trace in Qm. simpl in Qm.
      destruct Hcases as [(Hb & -> & Hos)|(Hb & up & Hsite & Hkind & Hup)].
      * injection Hb as ->. simpl app. split; [exact Of|].
        split; [exact Hreads|]. left. unfold outcome. rewrite Hos.
        split; [forall_parts; apply quiet_stamped|]. split; [reflexivity|].
        destruct Hm as [(_ & ->)|[(_ & c & x & ->)|[(_ & c & x & ->)|
                        (c & v & -> & Hbv & _)]]].
        -- left. reflexivity.
        -- right. left. eauto.
        -- right. right. left. eauto.
        -- right. right. right. exists c, output_file, v.
           split; [reflexivity|]. symmetry in Hbv.
           apply Z.eqb_neq in Hbv. exact Hbv.
      * injection Hb as ->.
        assert (Orest : Forall outside_merger rest).
        { destruct Hup as [(_ & -> & _)|(_ & _ & reap & -> & Hreap & _)].
          - constructor; [|constructor]. unfold outside_merger.
            rewrite Hsite. discriminate.
          - constructor; [|apply is_reap_outside; exact Hreap].
            unfold outside_merger. rewrite Hsite. discriminate. }
        split; [apply Forall_app; split; auto|].
        split; [exact Hreads|]. right.
        destruct Hm as [(Hf & _)|[(Hf & _)|[(Hf & _)|(c & v & -> & Hbv & _)]]];
          try discriminate Hf.
        exists c, output_file, v. split; [reflexivity|].
        symmetry in Hbv. apply Z.eqb_eq in Hbv. exact Hbv.
Qed.






(** The [finally] block: it asks whether the staging directory exists and,
    if so, removes it; an exception of [shutil.rmtree] is swallowed. *)
Lemma cleanup_temp_dir_run (temp_dir : string) w :
  trace (cleanup_temp_dir env temp_dir w)
  = [mkEvent In_consolidate_date (PathExists temp_dir false)]
  \/ exists res,
       trace (cleanup_temp_dir env temp_dir w)
       = [mkEvent In_consolidate_date (PathExists temp_dir true);
          mkEvent In_consolidate_date (Rmtree temp_dir res)].
Proof.
  unfold cleanup_temp_dir, try_except, bind, observe, perform.
  destruct (os_path_exists env temp_dir w) as [[] w1].
  - right. destruct (shutil_rmtree env temp_dir w1) as [[x|[]] w2];
      eexists; reflexivity.
  - left. reflexivity.
Qed.

(** C8 (amended): once the gates are passed, every run of
    [consolidate_date] creates the staging directory first and ends with
    the cleanup of that same directory, whatever happened in between, and
    returns a boolean to its caller: the cleanup asks whether the directory
    exists and, if it does, calls [shutil.rmtree] on it, whose failure is
    swallowed.  A run whose merge is not verified (a schema mismatch, a
    failed read or write, a row count mismatch) returns [False] and issues
    no put. *)
Theorem staging_cleanup_attempted self (date : string) (target_size_mb : Z)
    w (files : list string) :
  let r := consolidate_date env self date target_size_mb false w in
  outcome (get_daily_files env self date
             (world (cleanup_corrupted_files env self date false w)))
  = inr files ->
  MIN_FILES_TO_CONSOLIDATE <= Z.of_nat (List.length files) ->
  exists stamp plan created middle cleanup,
    let temp_dir :=
      Py.join TEMP_LOCAL_DIR ("consolidation_" +:+ date +:+ "_" +:+ stamp) in
    trace r = plan ++
              mkEvent In_download_files (Makedirs temp_dir created) ::
              middle ++ cleanup /\
    (cleanup = [mkEvent In_consolidate_date (PathExists temp_dir false)]
     \/ exists res,
          cleanup = [mkEvent In_consolidate_date (PathExists temp_dir true);
                     mkEvent In_consolidate_date (Rmtree temp_dir res)]) /\
    (exists b, outcome r = inr b) /\
    (~ merge_verified env (trace r) ->
     outcome r = inr false /\ Forall (fun e => is_put e = false) (trace r)).
Proof.
  cbv zeta. intros Hl Hge.
  destruct (consolidate_date_run env self date target_size_mb false w)
    as (files' & Hl' & Hrun). cbv zeta in Hrun.
  rewrite Hl in Hl'. injection Hl' as <-.
  destruct Hrun as [(Hlow & _)|(_ & [(Hd & _)|(_ & Hfull)])];
    [lia | discriminate Hd |].
  destruct Hfull as (stamp & w1 & _ & Ht & Ho).
  match type of Ht with
  | context [consolidate_steps env self date files ?d w1] =>
      destruct (download_files_starts self files d w1)
        as (created & rest & Hd);
      pose proof (consolidate_steps_run env self date files d w1) as Hs;
      pose proof (cleanup_temp_dir_run d
                    (world (consolidate_steps env self date files d w1)))
        as Hf
  end.
  cbv zeta in Hs.
  assert (Hmid : exists middle,
            trace (consolidate_steps env self date files
                     (Py.join TEMP_LOCAL_DIR
                        ("consolidation_" +:+ date +:+ "_" +:+ stamp)) w1)
            = mkEvent In_download_files
                (Makedirs (Py.join TEMP_LOCAL_DIR
                             ("consolidation_" +:+ date +:+ "_" +:+ stamp))
                   created) :: middle).
  { destruct Hs as [(-> & _)|(? & ? & ? & ? & _ & more & -> & _)];
      rewrite Hd; eexists; simpl; reflexivity. }
  destruct Hmid as (middle & Hmid).
  exists stamp,
    (trace (cleanup_corrupted_files env self date false w) ++
     trace (get_daily_files env self date
              (world (cleanup_corrupted_files env self date false w))) ++
     trace (get_file_info env self files
              (world (get_daily_files env self date
                        (world (cleanup_corrupted_files env self date false
                                  w))))) ++
     [stamped stamp]),
    created, middle,
    (trace (cleanup_temp_dir env
              (Py.join TEMP_LOCAL_DIR
                 ("consolidation_" +:+ date +:+ "_" +:+ stamp))
              (world (consolidate_steps env self date files
                        (Py.join TEMP_LOCAL_DIR
                           ("consolidation_" +:+ date +:+ "_" +:+ stamp))
                        w1)))).
  split.
  { rewrite Ht, Hmid. repeat (rewrite <- app_assoc; simpl). reflexivity. }
  split; [exact Hf|]. split; [eexists; exact Ho|].
  intros Hnot.
  destruct (consolidate_date_merge_cases self date target_size_mb false w
              files Hl)
    as [(_ & Hq & [Hfalse|[Hlow|Hdry]])|
        (before & reads & mrest & after & Hshape & Ob & Oa & Hreads & Hcases)];
    [ | lia | discriminate Hdry | ].
  - split; [exact Hfalse|]. eapply Forall_impl; [exact Hq|].
    intros e [He _]. exact He.
  - destruct Hcases as [(Hq & Hfalse & _)|(c & out & v & -> & Hv)].
    + split; [exact Hfalse|]. eapply Forall_impl; [exact Hq|].
      intros e [He _]. exact He.
    + exfalso. apply Hnot.
      exists (before ++ reads), c, out, v, after. split.
      * rewrite Hshape. rewrite <- app_assoc. reflexivity.
      * rewrite Hv, rows_read_app, (outside_no_rows before Ob). reflexivity.
Qed.


(** *** The Sweeper and the size filter *)

Lemma cleanup_line_deletes (dry_run : bool) (line : string) (n : Z) w
    (e : Event Table) :
  List.In e (trace (cleanup_line env dry_run line n w)) ->
  dry_run = false /\ is_delete e = true /\
  exists path, remote_path e = Some path /\ swept_by line path.
Proof.
  unfold cleanup_line, swept_by.
  destruct (Py.contains "telemetry-" line && Py.contains ".parquet" line);
    [|intros []].
  cbv zeta. destruct (8 <=? List.length (Py.split line))%nat; [|intros []].
  unfold try_except, bind, of_option, run, perform.
  destruct (Py.int (Py.part 4 (Py.split line))) as [size|]; [|intros []].
  simpl. destruct (size <=? CLEANUP_THRESHOLD_BYTES) eqn:Hsize; [|intros []].
  apply Z.leb_le in Hsize.
  destruct dry_run; [intros []|].
  destruct (subprocess_run env _ _ w) as [[x|p] w1]; simpl.
  - destruct x; simpl; intros [<-|[]];
      (split; [reflexivity|]); (split; [reflexivity|]);
      exists (Py.last_part (Py.split line)); (split; [reflexivity|]);
      exists size; auto.
  - destruct (returncode p =? 0); simpl; intros [<-|[]];
      (split; [reflexivity|]); (split; [reflexivity|]);
      exists (Py.last_part (Py.split line)); (split; [reflexivity|]);
      exists size; auto.
Qed.

Lemma cleanup_loop_deletes (dry_run : bool) (lines : list string) (n : Z) w
    (e : Event Table) :
  List.In e (trace (for_each lines (cleanup_line env dry_run) n w)) ->
  dry_run = false /\ is_delete e = true /\
  exists line path,
    List.In line lines /\ remote_path e = Some path /\ swept_by line path.
Proof.
  revert n w. induction lines as [|line lines IH]; intros n w; simpl.
  - intros [].
  - rewrite bind_eq.
    pose proof (cleanup_line_deletes dry_run line n w e) as Hline.
    destruct (cleanup_line env dry_run line n w) as [[[x|k] w1] t1].
    + intros Hin. destruct (Hline Hin) as (Hd & He & path & Hp & Hs).
      split; [exact Hd|]. split; [exact He|].
      exists line, path. split; [left; reflexivity|]. split; assumption.
    + specialize (IH k w1).
      destruct (for_each lines (cleanup_line env dry_run) k w1)
        as [[r w2] t2].
      unfold trace in *. simpl in *. intros Hin.
      apply List.in_app_or in Hin as [Hin|Hin].
      * destruct (Hline Hin) as (Hd & He & path & Hp & Hs).
        split; [exact Hd|]. split; [exact He|].
        exists line, path. split; [left; reflexivity|]. split; assumption.
      * destruct (IH Hin) as (Hd & He & l & path & Hl & Hp & Hs).
        split; [exact Hd|]. split; [exact He|].
        exists l, path. split; [right; exact Hl|]. split; assumption.
Qed.

(** The Sweeper deletes only what a line of its own listing names with a
    size of at most [CLEANUP_THRESHOLD_BYTES]. *)
Lemma sweeper_deletes_small_files self (date : string) (dry_run : bool) w
    (e : Event Table) :
  List.In e (trace (cleanup_corrupted_files env self date dry_run w)) ->
  is_delete e = true ->
  exists listing line path,
    List.In (mkEvent In_cleanup_corrupted_files
               (Run ["hdfs"; "dfs"; "-ls"; date_path date] plain (inr listing)))
      (trace (cleanup_corrupted_files env self date dry_run w)) /\
    List.In line (Py.split_on newline (stdout listing)) /\
    remote_path e = Some path /\ swept_by line path.
Proof.
  assert (Hrun : exists res rest,
            trace (cleanup_corrupted_files env self date dry_run w)
            = mkEvent In_cleanup_corrupted_files
                (Run ["hdfs"; "dfs"; "-ls"; date_path date] plain res) :: rest
            /\ forall e', List.In e' rest ->
                 exists listing line path,
                   res = inr listing /\
                   List.In line (Py.split_on newline (stdout listing)) /\
                   remote_path e' = Some path /\ swept_by line path).
  { unfold cleanup_corrupted_files. rewrite try_except_eq, bind_eq.
    unfold run at 1, perform.
    destruct (subprocess_run env _ _ w) as [[x|p] w1]; simpl.
    - do 2 eexists. split; [reflexivity|]. intros e' [].
    - destruct (negb (returncode p =? 0)); simpl.
      + do 2 eexists. split; [reflexivity|]. intros e' [].
      + pose proof (cleanup_loop_deletes dry_run
                      (Py.split_on newline (stdout p)) 0 w1) as Hloop.
        destruct (for_each (Py.split_on newline (stdout p))
                    (cleanup_line env dry_run) 0 w1) as [[[x|k] w2] t2];
          unfold trace in *; simpl in *;
          do 2 eexists; (split; [reflexivity|]); intros e' Hin;
          try rewrite app_nil_r in Hin;
          destruct (Hloop e' Hin) as (_ & _ & line & path & Hl & Hp & Hs);
          exists p, line, path; auto. }
  destruct Hrun as (res & rest & Ht & Hrest). rewrite Ht.
  intros [<-|Hin]; [discriminate|]. intros _.
  destruct (Hrest e Hin) as (listing & line & path & -> & Hl & Hp & Hs).
  exists listing, line, path.
  split; [left; reflexivity|]. split; [exact Hl|]. split; assumption.
Qed.

Lemma account_admitted (f : string) (size : Z) (st : InfoState) :
  sizes_admitted st -> sizes_admitted (account f size st).
Proof.
  unfold account, sizes_admitted.
  destruct (size <? MIN_FILE_SIZE_BYTES) eqn:Hsize; simpl; [auto|].
  apply Z.ltb_ge in Hsize. intros Hst g meta Hg.
  apply lookup_insert_Some in Hg as [[_ <-]|[_ Hg]]; [exact Hsize | eauto].
Qed.

Lemma match_file_admitted (size_map : gmap string Z) (files : list string)
    (st : InfoState) :
  sizes_admitted st ->
  sizes_admitted (List.fold_left (match_file size_map) files st).
Proof.
  revert st. induction files as [|f files IH]; intros st Hst; simpl; [auto|].
  apply IH. unfold match_file. destruct (size_map !! f).
  - apply account_admitted. exact Hst.
  - exact Hst.
Qed.

Lemma match_file_listed (size_map : gmap string Z) (files : list string)
    (st : InfoState) :
  sizes_listed size_map st ->
  sizes_listed size_map (List.fold_left (match_file size_map) files st).
Proof.
  revert st. induction files as [|f files IH]; intros st Hst; simpl; [auto|].
  apply IH. unfold match_file. destruct (size_map !! f) as [size|] eqn:Hf.
  - unfold account. destruct (size <? MIN_FILE_SIZE_BYTES); [exact Hst|].
    intros g meta Hg. simpl in Hg.
    apply lookup_insert_Some in Hg as [[<- <-]|[_ Hg]]; [exact Hf | eauto].
  - exact Hst.
Qed.

Lemma match_file_keeps_skipped (size_map : gmap string Z)
    (files : list string) (st : InfoState) (f : string) :
  List.In f (skipped_files st) ->
  List.In f (skipped_files (List.fold_left (match_file size_map) files st)).
Proof.
  revert st. induction files as [|g files IH]; intros st Hst; simpl; [auto|].
  apply IH. unfold match_file, account, skip.
  destruct (size_map !! g) as [size|]; [destruct (size <? _)|]; simpl; auto;
    apply List.in_or_app; left; exact Hst.
Qed.

Lemma match_file_skips (size_map : gmap string Z) (files : list string)
    (st : InfoState) (f : string) (size : Z) :
  List.In f files -> size_map !! f = Some size ->
  size < MIN_FILE_SIZE_BYTES ->
  List.In f (skipped_files (List.fold_left (match_file size_map) files st)).
Proof.
  revert st. induction files as [|g files IH]; intros st Hin Hf Hsize;
    [destruct Hin|].
  simpl. destruct Hin as [->|Hin]; [|apply IH; assumption].
  apply match_file_keeps_skipped. unfold match_file, account. rewrite Hf.
  apply Z.ltb_lt in Hsize. rewrite Hsize. simpl.
  apply List.in_or_app. right. left. reflexivity.
Qed.

Lemma info_loop_admitted (files : list string) (st : InfoState) w :
  sizes_admitted st ->
  forall st', outcome (for_each files (info_one env) st w) = inr st' ->
              sizes_admitted st'.
Proof.
  revert st w. induction files as [|f files IH]; intros st w Hst st'; simpl.
  - intros [= <-]. exact Hst.
  - rewrite bind_eq.
    assert (Hone : exists st1 w1 t1,
              info_one env f st w = (inr st1, w1, t1) /\ sizes_admitted st1).
    { unfold info_one, try_except, bind, perform.
      destruct (hdfs_info env f w) as [[x|size] w1]; simpl;
        do 3 eexists; (split; [reflexivity|]);
        [exact Hst | apply account_admitted; exact Hst]. }
    destruct Hone as (st1 & w1 & t1 & -> & Hst1).
    specialize (IH st1 w1 Hst1 st').
    destruct (for_each files (info_one env) st1 w1) as [[r w2] t2].
    exact IH.
Qed.

Lemma get_file_info_state_admitted self (files : list string) w
    (st : InfoState) :
  outcome (get_file_info_state env self files w) = inr st ->
  sizes_admitted st.
Proof.
  assert (H0 : sizes_admitted (mkInfoState ∅ 0 [])).
  { intros f meta Hf. simpl in Hf. rewrite lookup_empty in Hf.
    discriminate Hf. }
  unfold get_file_info_state. cbv zeta. destruct (hdfs self).
  - apply info_loop_admitted. exact H0.
  - destruct files as [|first files]; [intros [= <-]; exact H0|].
    unfold try_except, bind, run, perform.
    destruct (subprocess_run env _ _ w) as [[x|p] w1]; simpl.
    + destruct x; intros [= <-]; exact H0.
    + destruct (returncode p =? 0); intros [= <-].
      * apply (match_file_admitted _ (first :: files)). exact H0.
      * exact H0.
Qed.

(** C6 (amended): [CLEANUP_THRESHOLD_BYTES] and [MIN_FILE_SIZE_BYTES] are
    two constants with the same value, 1024, so no size lies strictly
    between them.  The Sweeper deletes only files whose listed size is at
    most [CLEANUP_THRESHOLD_BYTES]; [get_file_info] admits to its table
    only files of at least [MIN_FILE_SIZE_BYTES], and in its batch branch
    a listed file below that size is left out of the table and recorded
    in [skipped_files]. *)
Theorem thresholds_and_their_uses :
  CLEANUP_THRESHOLD_BYTES = 1024 /\
  MIN_FILE_SIZE_BYTES = 1024 /\
  (forall size : Z,
     (CLEANUP_THRESHOLD_BYTES <? size) && (size <? MIN_FILE_SIZE_BYTES)
     = false) /\
  (forall self (date : string) (dry_run : bool) w (e : Event Table),
     List.In e (trace (cleanup_corrupted_files env self date dry_run w)) ->
     is_delete e = true ->
     exists listing line path,
       List.In (mkEvent In_cleanup_corrupted_files
                  (Run ["hdfs"; "dfs"; "-ls"; date_path date] plain
                     (inr listing)))
         (trace (cleanup_corrupted_files env self date dry_run w)) /\
       List.In line (Py.split_on newline (stdout listing)) /\
       remote_path e = Some path /\ swept_by line path) /\
  (forall self (files : list string) w (info : FileInfo) (f : string)
          (meta : FileMeta),
     outcome (get_file_info env self files w) = inr info ->
     fi_files info !! f = Some meta ->
     MIN_FILE_SIZE_BYTES <= size_bytes meta) /\
  (forall (size_map : gmap string Z) (files : list string) (f : string)
          (size : Z),
     List.In f files -> size_map !! f = Some size ->
     size < MIN_FILE_SIZE_BYTES ->
     let st := List.fold_left (match_file size_map) files
                 (mkInfoState ∅ 0 []) in
     file_info st !! f = None /\ List.In f (skipped_files st)).
Proof.
  split; [reflexivity|]. split; [reflexivity|]. split.
  { intros size. unfold CLEANUP_THRESHOLD_BYTES, MIN_FILE_SIZE_BYTES.
    destruct (1024 <? size) eqn:H1; [|reflexivity].
    apply Z.ltb_lt in H1. simpl. apply Z.ltb_ge. lia. }
  split; [exact sweeper_deletes_small_files|]. split.
  - intros self files w info f meta. unfold get_file_info. rewrite bind_eq.
    pose proof (get_file_info_state_admitted self files w) as Hst.
    destruct (get_file_info_state env self files w) as [[[x|st] w1] t1];
      [discriminate|].
    simpl. intros [= <-]. simpl. apply Hst. reflexivity.
  - intros size_map files f size Hin Hf Hsize. cbv zeta. split.
    + destruct (file_info _ !! f) as [meta|] eqn:Hmeta; [exfalso|reflexivity].
      assert (H0a : sizes_admitted (mkInfoState ∅ 0 [])).
      { intros g m Hg. simpl in Hg. rewrite lookup_empty in Hg.
        discriminate Hg. }
      assert (H0l : sizes_listed size_map (mkInfoState ∅ 0 [])).
      { intros g m Hg. simpl in Hg. rewrite lookup_empty in Hg.
        discriminate Hg. }
      pose proof (match_file_admitted size_map files _ H0a f meta Hmeta).
      pose proof (match_file_listed size_map files _ H0l f meta Hmeta) as Hl.
      rewrite Hf in Hl. injection Hl as Hl. lia.
    + eapply match_file_skips; eauto.
Qed.


(** *** Staging by base name *)

Lemma arrange_eq {A} (p : nat) (picks : list nat) (x0 : A) (xs : list A) :
  arrange (p :: picks) (x0 :: xs)
  = List.nth (p mod List.length (x0 :: xs))%nat (x0 :: xs) x0
    :: arrange picks
         (List.firstn (p mod List.length (x0 :: xs))%nat (x0 :: xs)
          ++ List.skipn (S (p mod List.length (x0 :: xs))%nat) (x0 :: xs)).
Proof. reflexivity. Qed.

(** Whatever order the pool completes the futures in, every file is
    collected exactly once. *)
Lemma arrange_Permutation {A} (picks : list nat) (xs : list A) :
  Permutation (arrange picks xs) xs.
Proof.
  revert xs. induction picks as [|p picks IH]; intros xs.
  - destruct xs; apply Permutation_refl.
  - destruct xs as [|x0 xs]; [apply Permutation_refl|].
    rewrite arrange_eq.
    remember (x0 :: xs) as l eqn:Hl.
    assert (Hlt : (p mod List.length l < List.length l)%nat).
    { apply Nat.mod_upper_bound. rewrite Hl. discriminate. }
    remember (p mod List.length l)%nat as i eqn:Hi. clear Hi.
    eapply Permutation_trans.
    + apply Permutation_cons; [reflexivity | apply IH].
    + eapply Permutation_trans; [apply Permutation_middle|].
      assert (Hd : List.nth i l x0 :: List.skipn (S i) l = List.skipn i l).
      { clear -Hlt. revert i Hlt. induction l as [|a l IHl]; intros i Hlt.
        - simpl in Hlt. lia.
        - destruct i as [|i]; [reflexivity|].
          simpl in *. apply IHl. lia. }
      rewrite Hd, List.firstn_skipn. apply Permutation_refl.
Qed.

Lemma join_truthy (a b : string) :
  truthy a = true -> truthy (Py.join a b) = true.
Proof.
  unfold Py.join. intros Ha.
  destruct (Py.startswith "/" b) eqn:Hb.
  - destruct b; [discriminate Hb | reflexivity].
  - destruct a as [|c a]; [discriminate Ha|].
    destruct (String.eqb (String c a) "" || Py.endswith "/" (String c a));
      reflexivity.
Qed.

(** The [get] of one future writes to the staged path of its file. *)
Lemma collect_one_target self (local_dir f : string)
    (local_files : list string) w :
  Forall (fun e : Event Table =>
            remote_path e = Some f /\
            get_target e = Some (staged local_dir f))
    (trace (collect_one env self local_dir f local_files w)).
Proof.
  unfold collect_one, _download_single_file, try_except, bind, run, perform,
    staged.
  destruct (hdfs self).
  - destruct (hdfs_get env f _ w) as [[x|[]] w1]; simpl.
    + repeat constructor.
    + destruct (truthy (Py.join local_dir (Py.basename f)));
        simpl; repeat constructor.
  - destruct (subprocess_run env _ _ w) as [[x|p] w1]; simpl.
    + repeat constructor.
    + destruct (returncode p =? 0); simpl;
        [destruct (truthy (Py.join local_dir (Py.basename f))); simpl|];
        repeat constructor.
Qed.

Lemma download_loop_target self (local_dir : string)
    (fs local_files : list string) w :
  Forall (fun e : Event Table =>
            exists f, remote_path e = Some f /\
                      get_target e = Some (staged local_dir f))
    (trace (for_each fs (collect_one env self local_dir) local_files w)).
Proof.
  revert local_files w. induction fs as [|f fs IH]; intros local_files w.
  - constructor.
  - simpl for_each. rewrite bind_eq.
    pose proof (collect_one_target self local_dir f local_files w) as Hone.
    destruct (collect_one env self local_dir f local_files w)
      as [[[x|l] w1] t1]; unfold trace in *; simpl in *.
    + eapply Forall_impl; [exact Hone|]. intros e He. exists f. exact He.
    + specialize (IH l w1).
      destruct (for_each fs (collect_one env self local_dir) l w1)
        as [[r w2] t2]. simpl in *.
      apply Forall_app. split; [|exact IH].
      eapply Forall_impl; [exact Hone|]. intros e He. exists f. exact He.
Qed.

(** Every [get] of the Fetcher writes to the join of the staging directory
    and the base name of the remote path it reads. *)
Lemma download_files_target self (files : list string) (local_dir : string) w :
  Forall (fun e : Event Table =>
            is_get e = true ->
            exists f, remote_path e = Some f /\
                      get_target e = Some (staged local_dir f))
    (trace (download_files env self files local_dir w)).
Proof.
  unfold download_files. rewrite bind_eq. unfold perform.
  destruct (os_makedirs env local_dir w) as [[x|[]] w1].
  - simpl. constructor; [discriminate | constructor].
  - rewrite bind_eq. unfold observe.
    destruct (as_completed env (List.length files) w1) as [picks w2].
    pose proof (download_loop_target self local_dir (arrange picks files)
                  [] w2) as Hloop.
    destruct (for_each (arrange picks files) (collect_one env self local_dir)
                [] w2) as [[r w3] t]. unfold trace in *. simpl in *.
    constructor; [discriminate|]. constructor; [discriminate|].
    eapply Forall_impl; [exact Hloop|]. intros e He _. exact He.
Qed.

Lemma downloaded_paths_gets (t : list (Event Table)) (f : string) :
  List.In f (downloaded_paths t) ->
  List.In f (omap remote_path (List.filter is_get t)).
Proof.
  unfold downloaded_paths. induction t as [|e t IH]; [intros []|].
  simpl List.filter. unfold get_ok at 1.
  destruct (is_get e); simpl andb; [|exact IH].
  destruct (succeeded e); simpl; destruct (remote_path e); simpl; intros Hin.
  - destruct Hin as [->|Hin]; [left; reflexivity | right; apply IH, Hin].
  - apply IH, Hin.
  - right. apply IH, Hin.
  - apply IH, Hin.
Qed.

Lemma filter_truthy_staged (local_dir : string) (p : string)
    (before mid after : list string) (f1 f2 : string) :
  staged local_dir f1 = p -> staged local_dir f2 = p -> truthy p = true ->
  exists lb lm la,
    List.filter truthy
      (List.map (staged local_dir) (before ++ f1 :: mid ++ f2 :: after))
    = lb ++ p :: lm ++ p :: la.
Proof.
  intros H1 H2 Hp.
  exists (List.filter truthy (List.map (staged local_dir) before)),
         (List.filter truthy (List.map (staged local_dir) mid)),
         (List.filter truthy (List.map (staged local_dir) after)).
  rewrite List.map_app, List.filter_app. simpl.
  rewrite List.map_app, List.filter_app. simpl.
  rewrite H1, H2, Hp. reflexivity.
Qed.

(** The loop of the Merger over its inputs issues one read per path of
    the list, in order, up to the first read that raises. *)
Lemma read_loop_reads (fs : list string) (st : list Table * Z) w :
  let l := for_each fs (read_one env) st w in
  Forall (fun e => is_Some (read_file e)) (trace l) /\
  ((Forall (fun e => succeeded e = true) (trace l) /\
    omap read_file (trace l) = fs /\
    exists st', outcome l = inr st')
   \/ (exists good f x more,
         trace l = good ++ [mkEvent In_consolidate_parquet_files
                              (ReadTable f (inl x))] /\
         Forall (fun e => succeeded e = true) good /\
         omap read_file good ++ f :: more = fs /\
         outcome l = inl x)).
Proof.
  cbv zeta. revert st w. induction fs as [|f fs IH]; intros st w.
  - split; [constructor|].
    left. simpl. split; [constructor|]. split; [reflexivity|].
    eexists; reflexivity.
  - simpl for_each. rewrite bind_eq, read_one_eq.
    destruct (pq_read_table env f w) as [[x|t] w1].
    + split; [repeat constructor; eexists; reflexivity|].
      right. exists [], f, x, fs. simpl.
      split; [reflexivity|]. split; [constructor|]. split; reflexivity.
    + specialize (IH (fst st ++ [t], snd st + num_rows env t) w1).
      destruct (for_each fs (read_one env)
                  (fst st ++ [t], snd st + num_rows env t) w1)
        as [[o w2] t2].
      unfold trace, outcome in *. simpl in *.
      destruct IH as (Hrd & IH).
      split; [constructor; [eexists; reflexivity | exact Hrd]|].
      destruct IH as [(Hall & Hfs & st' & Ho)
                     |(good & g & x & more & Ht & Hall & Hfs & Ho)].
      * left. subst o. split; [constructor; [reflexivity | exact Hall]|].
        split; [f_equal; exact Hfs | eexists; reflexivity].
      * right. subst o. exists (read f t :: good), g, x, more.
        split; [rewrite Ht; reflexivity|].
        split; [constructor; [reflexivity | exact Hall]|].
        split; [simpl; f_equal; exact Hfs | reflexivity].
Qed.

(** The Merger reads its inputs before anything else: one read per path
    of the list it is given, in order.  It stops at the first read that
    raises, and then returns [False]; and what follows the reads, if
    anything, starts with the write of the output. *)
Lemma consolidate_parquet_files_reads self (local_files : list string)
    (output_file : string) w :
  let m := consolidate_parquet_files env self local_files output_file w in
  exists reads rest,
    trace m = reads ++ rest /\
    Forall (fun e => is_Some (read_file e)) reads /\
    (forall e rest', rest = e :: rest' -> is_write e = true) /\
    (rest = [] -> outcome m = inr false) /\
    ((Forall (fun e => succeeded e = true) reads /\
      omap read_file reads = local_files)
     \/ (exists good f x more,
           reads = good ++ [mkEvent In_consolidate_parquet_files
                              (ReadTable f (inl x))] /\
           Forall (fun e => succeeded e = true) good /\
           omap read_file good ++ f :: more = local_files /\
           rest = [])).
Proof.
  cbv zeta. unfold consolidate_parquet_files. rewrite try_except_eq, bind_eq.
  pose proof (read_loop_reads local_files ([], 0) w) as Hl. cbv zeta in Hl.
  destruct (for_each local_files (read_one env) ([], 0) w)
    as [[[x|st] w1] reads].
  - unfold trace, outcome in Hl. simpl in Hl.
    destruct Hl as (Hrd & [(_ & _ & st' & Ho)
                          |(good & f & x' & more & Ht & Hall & Hfs & _)]);
      [discriminate Ho|].
    simpl. exists reads, []. rewrite !app_nil_r.
    split; [reflexivity|]. split; [exact Hrd|]. split; [intros e rest' H; discriminate H|].
    split; [reflexivity|]. right. exists good, f, x', more. auto.
  - unfold trace, outcome in Hl. simpl in Hl.
    destruct Hl as (Hrd & [(Hall & Hfs & _)
                          |(good & f & x' & more & _ & _ & _ & Ho)]);
      [|discriminate Ho].
    simpl fst. simpl snd. rewrite bind_eq.
    destruct (pa_concat_tables env (fst st)) as [e|c]; simpl.
    + exists reads, []. rewrite !app_nil_r.
      split; [reflexivity|]. split; [exact Hrd|]. split; [intros e0 rest' H; discriminate H|].
      split; [reflexivity|]. left. auto.
    + unfold bind, perform.
      destruct (pq_write_table env c output_file w1) as [[e|[]] w2]; simpl.
      * exists reads, [mkEvent In_consolidate_parquet_files
                         (WriteTable c output_file (inl e))].
        rewrite app_nil_r.
        split; [reflexivity|]. split; [exact Hrd|].
        split; [intros e0 rest' H; injection H as <- _; reflexivity|].
        split; [discriminate|]. left. auto.
      * destruct (pq_read_table env output_file w2) as [[e|v] w3]; simpl.
        -- exists reads, [wrote c output_file;
                          mkEvent In_consolidate_parquet_files
                            (ReadTable output_file (inl e))].
           rewrite app_nil_r.
           split; [reflexivity|]. split; [exact Hrd|].
           split; [intros e0 rest' H; injection H as <- _; reflexivity|].
           split; [discriminate|]. left. auto.
        -- exists reads, [wrote c output_file; read output_file v].
           split.
           { destruct (num_rows env v =? snd st); simpl;
               rewrite ?app_nil_r; reflexivity. }
           split; [exact Hrd|].
           split; [intros e0 rest' H; injection H as <- _; reflexivity|].
           split; [discriminate|]. left. auto.
Qed.

(** When the Fetcher returns a path, the steps go on after it. *)
Lemma consolidate_steps_started self (date : string) (files : list string)
    (temp_dir : string) w (f0 : string) (l : list string) :
  outcome (download_files env self files temp_dir w) = inr (f0 :: l) ->
  trace (consolidate_steps env self date files temp_dir w)
  <> trace (download_files env self files temp_dir w).
Proof.
  unfold consolidate_steps. rewrite bind_eq.
  destruct (download_files env self files temp_dir w) as [[o wd] td].
  unfold outcome, trace. simpl. intros ->. rewrite bind_eq. unfold observe.
  destruct (now_hms env wd) as [stamp w1].
  match goal with
  | |- context [let (p, t2) := ?m w1 in _] => destruct (m w1) as [[o w2] t2]
  end.
  simpl. intros H. apply (f_equal (@List.length _)) in H.
  rewrite List.length_app in H. simpl in H. lia.
Qed.

(** C10: the staged path of a remote file is the join of the staging
    directory and the base name of the file alone, and it is the path its
    [get] writes to.  So when two remote files with the same base name are
    both downloaded, both downloads write to one local path and the list
    [download_files] returns holds that path twice.  The Merger is then
    started on that list: after the time stamp it reads the paths of the
    list in order, one read per occurrence, nothing else in between, and
    stops before the end of the list only at a read that raises, in which
    case the steps return [False]; what follows the reads starts with the
    write of the output.  And when the steps succeed the Reaper is asked
    to delete every listed file, the two originals among them. *)
Theorem staging_by_basename self (date : string) (files : list string)
    (temp_dir : string) w (f1 f2 : string) (before mid after : list string) :
  let d := download_files env self files temp_dir w in
  let r := consolidate_steps env self date files temp_dir w in
  let p := staged temp_dir f1 in
  Py.basename f1 = Py.basename f2 ->
  truthy temp_dir = true ->
  downloaded_paths (trace d) = before ++ f1 :: mid ++ f2 :: after ->
  staged temp_dir f2 = p /\
  p = Py.join temp_dir (Py.basename f1) /\
  Forall (fun e => is_get e = true ->
                   exists f, remote_path e = Some f /\
                             get_target e = Some (staged temp_dir f))
    (trace d) /\
  List.In f1 files /\ List.In f2 files /\
  exists lb lm la,
    outcome d = inr (lb ++ p :: lm ++ p :: la) /\
    exists stamp reads rest,
      trace r = trace d ++ stamped stamp :: reads ++ rest /\
      Forall (fun e => is_Some (read_file e)) reads /\
      (forall e rest', rest = e :: rest' -> is_write e = true) /\
      ((Forall (fun e => succeeded e = true) reads /\
        omap read_file reads = lb ++ p :: lm ++ p :: la)
       \/ (exists good f x more,
             reads = good ++ [mkEvent In_consolidate_parquet_files
                                (ReadTable f (inl x))] /\
             Forall (fun e => succeeded e = true) good /\
             omap read_file good ++ f :: more = lb ++ p :: lm ++ p :: la /\
             rest = [] /\ outcome r = inr false)) /\
      (outcome r = inr true ->
       exists post reap,
         rest = post ++ reap /\
         Forall (fun e => is_reap e = true) reap /\
         omap remote_path reap = files).
Proof.
  intros d r p Hbase Hdir Hdown.
  assert (H2 : staged temp_dir f2 = p).
  { unfold p, staged. rewrite Hbase. reflexivity. }
  assert (Hp : truthy p = true) by (apply join_truthy; exact Hdir).
  split; [exact H2|]. split; [reflexivity|].
  split; [apply download_files_target|].
  destruct (download_files_run env self files temp_dir w)
    as (_ & _ & Hd). fold d in Hd.
  destruct Hd as [(x & _ & Hnone)|(Hout & picks & Hgets)].
  { rewrite Hnone in Hdown. destruct before; discriminate Hdown. }
  assert (Hin : forall f, List.In f (downloaded_paths (trace d)) ->
                          List.In f files).
  { intros f Hf. apply downloaded_paths_gets in Hf. rewrite Hgets in Hf.
    eapply Permutation_in; [apply arrange_Permutation | exact Hf]. }
  split. { apply Hin. rewrite Hdown. apply List.in_or_app. right. left.
           reflexivity. }
  split. { apply Hin. rewrite Hdown. apply List.in_or_app. right. right.
           apply List.in_or_app. right. left. reflexivity. }
  destruct (filter_truthy_staged temp_dir p before mid after f1 f2
              eq_refl H2 Hp) as (lb & lm & la & Hlist).
  exists lb, lm, la. rewrite Hdown in Hout. rewrite Hlist in Hout.
  split; [exact Hout|].
  destruct (consolidate_steps_run env self date files temp_dir w)
    as [[Hsame _]|Hrun].
  { exfalso. destruct lb as [|l0 lb];
      eapply (consolidate_steps_started self date files temp_dir w);
      [exact Hout | exact Hsame | exact Hout | exact Hsame]. }
  destruct Hrun as (local_files & stamp & output_file & w1 & Hd & Hrun).
  fold d in Hd. rewrite Hout in Hd. injection Hd as <-.
  cbv zeta in Hrun. destruct Hrun as (rest & Ht & Hcases).
  fold r in Ht, Hcases.
  destruct (consolidate_parquet_files_reads self
              (lb ++ p :: lm ++ p :: la) output_file w1)
    as (reads & mrest & Hm & Hrd & Hhead & Hnil & Hreads).
  rewrite Hm in Ht.
  exists stamp, reads, (mrest ++ rest).
  split; [rewrite Ht, <- app_assoc; reflexivity|].
  split; [exact Hrd|].
  split.
  { intros e rest' He. destruct mrest as [|e0 mrest].
    - exfalso. specialize (Hnil eq_refl).
      destruct Hcases as [(_ & -> & _)|(Htrue & _)];
        [discriminate He | rewrite Hnil in Htrue; discriminate Htrue].
    - injection He as <- _. apply (Hhead e0 mrest eq_refl). }
  split.
  { destruct Hreads as [Hall|(good & f & x & more & Hg & Hall & Hfs & ->)];
      [left; exact Hall|].
    right. exists good, f, x, more.
    specialize (Hnil eq_refl).
    destruct Hcases as [(_ & -> & Hfalse)|(Htrue & _)];
      [|rewrite Hnil in Htrue; discriminate Htrue].
    auto. }
  intros Hr.
  destruct Hcases as [(_ & _ & Hfalse)|(_ & up & _ & _ & Hup)];
    [rewrite Hr in Hfalse; discriminate Hfalse|].
  destruct Hup as [(_ & _ & Hfalse)|(_ & _ & reap & -> & Hreap & Hfiles)];
    [rewrite Hr in Hfalse; discriminate Hfalse|].
  exists (mrest ++ [up]), reap.
  split; [rewrite <- app_assoc; reflexivity|]. split; assumption.
Qed.


(** *** The batch of [main] *)

Lemma range_bounds (n i : Z) : List.In i (range n) -> 0 <= i < n.
Proof.
  unfold range. intros Hin. apply List.in_map_iff in Hin as (k & <- & Hk).
  apply List.in_seq in Hk. lia.
Qed.

Lemma range_length (n : Z) : List.length (range n) = Z.to_nat n.
Proof. unfold range. rewrite List.length_map, List.length_seq. reflexivity. Qed.

(** The dates of a batch: no date before the first day or after the last
    day of the calendar is met, so neither the subtraction nor the
    formatting raises. *)
Lemma dates_loop_run (start_date n : Z) (l : list Z) w :
  1 <= start_date - n -> start_date <= 3652059 ->
  (forall i, List.In i l -> 0 <= i <= n) ->
  map_m (Table := Table)
    (fun i => d <- of_result (minus_days start_date i) ;;
              ret (strftime env d)) l w
  = (inr (List.map (fun i => strftime env (start_date - i)) l), w, []).
Proof.
  intros Hlo Hhi. induction l as [|i l IH]; intros Hl; [reflexivity|].
  simpl map_m. rewrite bind_eq, bind_eq.
  assert (Hi : 0 <= i <= n) by (apply Hl; left; reflexivity).
  assert (Hm : minus_days start_date i = inr (start_date - i)).
  { unfold minus_days.
    replace (1 <=? start_date - i) with true by (symmetry; apply Z.leb_le; lia).
    replace (start_date - i <=? 3652059) with true
      by (symmetry; apply Z.leb_le; lia).
    reflexivity. }
  rewrite Hm. simpl. rewrite bind_eq, IH; [reflexivity|].
  intros j Hj. apply Hl. right. exact Hj.
Qed.

Lemma batch_dates_run (args : Args) (n start_date : Z) w :
  arg_days_back args = Some n -> 0 <= n ->
  strptime env (arg_date args) = inr start_date ->
  1 <= start_date - n -> start_date <= 3652059 ->
  batch_dates env args w
  = (inr (if n =? 0 then [arg_date args]
          else days_ending_at env start_date n), w, []).
Proof.
  intros Hn Hpos Hstart Hlo Hhi. unfold batch_dates. rewrite Hn.
  destruct (n =? 0); [reflexivity|].
  rewrite bind_eq, Hstart. simpl.
  rewrite (dates_loop_run start_date n); try assumption; [reflexivity|].
  intros i Hi. apply range_bounds in Hi. lia.
Qed.

Lemma date_runs_length consolidator (args : Args) (dates : list string) w :
  List.length (date_runs env consolidator args dates w) = List.length dates.
Proof.
  revert w. induction dates as [|d dates IH]; intros w; [reflexivity|].
  simpl. rewrite IH. reflexivity.
Qed.

Lemma date_runs_return consolidator (args : Args) (dates : list string) w :
  Forall (fun r => exists b : bool, outcome r = inr b)
    (date_runs env consolidator args dates w).
Proof.
  revert w. induction dates as [|d dates IH]; intros w; [constructor|].
  simpl. constructor; [|apply IH].
  apply (consolidate_date_returns env).
Qed.

(** The loop of [main]: every date is run, in order, from the world the
    date before it left, and the count is the number of runs that
    returned [True]. *)
Lemma process_loop_run consolidator (args : Args) (dates : list string)
    (k : Z) w :
  let runs := date_runs env consolidator args dates w in
  exists w1,
    for_each dates
      (fun date success_count =>
         ok <- consolidate_date env consolidator date (arg_target_size args)
                 (arg_dry_run args) ;;
         if ok then ret (success_count + 1) else ret success_count)
      k w
    = (inr (k + Z.of_nat (List.length (List.filter fully_succeeded runs))),
       w1, List.concat (List.map trace runs)).
Proof.
  revert k w. induction dates as [|d dates IH]; intros k w.
  - exists w. simpl. rewrite Z.add_0_r. reflexivity.
  - simpl date_runs. cbv zeta. simpl for_each. rewrite bind_eq, bind_eq.
    destruct (consolidate_date_returns env consolidator d
                (arg_target_size args) (arg_dry_run args) w) as (b & Hb).
    remember (consolidate_date env consolidator d (arg_target_size args)
                (arg_dry_run args) w) as r eqn:Hr.
    destruct r as [[o w1] t1]. unfold outcome in Hb. simpl in Hb. subst o.
    unfold world at 1 2. simpl fst. simpl snd.
    simpl List.filter. unfold fully_succeeded at 1, outcome at 1. simpl fst.
    destruct b; simpl.
    + destruct (IH (k + 1) w1) as (w2 & ->). exists w2. simpl.
      rewrite app_nil_r. f_equal. f_equal. f_equal. lia.
    + destruct (IH k w1) as (w2 & ->). exists w2. simpl.
      rewrite app_nil_r. reflexivity.
Qed.

Lemma filter_length_all {A} (p : A -> bool) (l : list A) :
  List.length (List.filter p l) = List.length l <->
  Forall (fun a => p a = true) l.
Proof.
  induction l as [|a l IH]; simpl.
  - split; [constructor | reflexivity].
  - pose proof (List.filter_length_le p l) as Hle.
    destruct (p a) eqn:Ha; simpl.
    + split.
      * intros H. constructor; [exact Ha|]. apply IH. lia.
      * intros H. inversion H; subst. f_equal. apply IH. assumption.
    + split; [lia|]. intros H. inversion H; subst. congruence.
Qed.

(** C9: with [--days-back n] the program processes the [n + 1]
    consecutive dates that end at [--date]; every date is run, in order,
    each from the state the one before it left and whatever that one
    returned; no run of a date raises; and the exit status is 0 if and
    only if every run returned [True], and 1 otherwise. *)
Theorem batch_semantics (args : Args) (n start_date : Z) w :
  arg_days_back args = Some n -> 0 <= n ->
  strptime env (arg_date args) = inr start_date ->
  1 <= start_date - n -> start_date <= 3652059 ->
  let i := init env HDFS_NAMENODE HDFS_PORT w in
  let dates := if n =? 0 then [arg_date args]
               else days_ending_at env start_date n in
  exists consolidator,
    outcome i = inr consolidator /\
    let runs := date_runs env consolidator args dates (world i) in
    List.length dates = Z.to_nat (n + 1) /\
    List.length runs = List.length dates /\
    Forall (fun r => exists b : bool, outcome r = inr b) runs /\
    trace (main env args w) = trace i ++ List.concat (List.map trace runs) /\
    (exit_status (outcome (main env args w)) = 0 <->
     Forall (fun r => outcome r = inr true) runs) /\
    (exit_status (outcome (main env args w)) = 0 \/
     exit_status (outcome (main env args w)) = 1).
Proof.
  intros Hn Hpos Hstart Hlo Hhi i dates.
  assert (Hc : exists c, outcome i = inr c).
  { unfold i, init, try_except, bind, perform.
    destruct (HDFS3_AVAILABLE env); [|eexists; reflexivity].
    destruct (hdfs_connect env HDFS_NAMENODE HDFS_PORT w) as [[x|[]] w0];
      eexists; reflexivity. }
  destruct Hc as (c & Hc). exists c. split; [exact Hc|]. cbv zeta.
  assert (Hlen : List.length dates = Z.to_nat (n + 1)).
  { unfold dates. destruct (n =? 0) eqn:E.
    - apply Z.eqb_eq in E. subst n. reflexivity.
    - unfold days_ending_at. rewrite List.length_map. apply range_length. }
  split; [exact Hlen|]. split; [apply date_runs_length|].
  split; [apply date_runs_return|].
  assert (Hmain : main env args w
                  = (inr (if Z.of_nat (List.length (List.filter fully_succeeded
                                          (date_runs env c args dates (world i))))
                             =? Z.of_nat (List.length dates) then 0 else 1),
                     world (main env args w),
                     trace i ++ List.concat
                                  (List.map trace
                                     (date_runs env c args dates (world i))))).
  { unfold main. rewrite bind_eq. fold i.
    destruct i as [[o w0] t0]. unfold outcome in Hc. simpl in Hc. subst o.
    unfold world at 1 3. simpl fst. simpl snd. unfold trace at 1. simpl snd.
    rewrite bind_eq.
    rewrite (batch_dates_run args n start_date w0 Hn Hpos Hstart Hlo Hhi).
    fold dates. rewrite bind_eq. unfold process_dates.
    destruct (process_loop_run c args dates 0 w0) as (w1 & ->).
    simpl. rewrite app_nil_r. reflexivity. }
  rewrite Hmain. unfold outcome, trace. simpl fst. simpl snd.
  split; [reflexivity|]. split.
  - unfold exit_status.
    destruct (Z.of_nat _ =? Z.of_nat _) eqn:E.
    + split; [intros _|reflexivity].
      apply Z.eqb_eq in E. apply Nat2Z.inj in E.
      rewrite <- (date_runs_length c args dates (world i)) in E.
      apply filter_length_all in E.
      eapply Forall_impl; [exact E|]. intros [[o w'] t'].
      unfold fully_succeeded, outcome. simpl.
      destruct o as [x|[|]]; try discriminate. reflexivity.
    + split; [discriminate|]. intros Hall. exfalso.
      apply Z.eqb_neq in E. apply E. f_equal.
      rewrite <- (date_runs_length c args dates (world i)).
      apply filter_length_all.
      eapply Forall_impl; [exact Hall|]. intros r Hr.
      unfold fully_succeeded, outcome. rewrite Hr. reflexivity.
  - unfold exit_status. destruct (Z.of_nat _ =? Z.of_nat _); auto.
Qed.


End Workflow.

(** ** The target file count *)

Lemma int_of_float_floor (x : Q) :
  (0 <= Qnum x)%Z -> Py.int_of_float x = Qfloor x.
Proof.
  intros Hx. unfold Py.int_of_float. destruct x as [n d]. simpl in *.
  apply Z.quot_div_nonneg; [exact Hx | reflexivity].
Qed.

Lemma target_files_floor (total_size_mb : Q) :
  (0 < total_size_mb)%Q ->
  Remote.target_files total_size_mb
  = Z.max 1 (Qfloor (total_size_mb / inject_Z Remote.TARGET_FILE_SIZE_MB)).
Proof.
  intros Hpos. unfold Remote.target_files. f_equal.
  apply int_of_float_floor.
  destruct total_size_mb as [n d]. unfold Qlt in Hpos. simpl in *. lia.
Qed.

(** C7: for every positive total size in MB, the target file count of
    [consolidate_date_dry_run] is [max(1, floor(total / TARGET_FILE_SIZE_MB))];
    for 47 files of 1.64 MB in total, with a target size of 128 MB and a
    minimum of 5 files, the partition is not skipped, the target file
    count is 1 and the reduction is [(47 - 1) * 100 // 47 = 97] percent,
    in [consolidate_date_dry_run] and in [demo_analysis] alike. *)
Theorem target_file_count_formula (total_size_mb : Q) :
  (0 < total_size_mb)%Q ->
  Remote.target_files total_size_mb
  = Z.max 1 (Qfloor (total_size_mb / inject_Z Remote.TARGET_FILE_SIZE_MB)) /\
  Remote.TARGET_FILE_SIZE_MB = 128 /\
  Remote.MIN_FILES_TO_CONSOLIDATE = 5 /\
  Remote.consolidate_date_dry_run 47 (164 # 100) = Remote.Impact 1 97 /\
  Remote.reduction_percent 47 1 = (47 - 1) * 100 / 47 /\
  Demo.demo_analysis = Demo.mkAnalysis 1 46 97 true.
Proof.
  intros Hpos. split; [apply target_files_floor; exact Hpos|].
  repeat split; reflexivity.
Qed.

Lemma target_file_count_formula_witness :
  Remote.target_files (164 # 100)
  = Z.max 1 (Qfloor ((164 # 100) / inject_Z Remote.TARGET_FILE_SIZE_MB)) /\
  Remote.TARGET_FILE_SIZE_MB = 128 /\
  Remote.MIN_FILES_TO_CONSOLIDATE = 5 /\
  Remote.consolidate_date_dry_run 47 (164 # 100) = Remote.Impact 1 97 /\
  Remote.reduction_percent 47 1 = (47 - 1) * 100 / 47 /\
  Demo.demo_analysis = Demo.mkAnalysis 1 46 97 true.
Proof.
  apply (target_file_count_formula (164 # 100)). reflexivity.
Defined.

(** ** Runs on the simulated cluster *)

Ltac find_event := vm_compute; repeat (first [left; reflexivity | right]).

(** C1 (the code at the failing input): five files are listed and the
    download of the third fails.  The run still returns [True]; the
    Reaper is asked to delete all five listed files, the third among them,
    although only four were downloaded; and the store is left with the
    consolidated file alone, which holds the 40 rows of the four files
    that were merged. *)
Theorem reaper_deletes_file_not_downloaded :
  outcome (consolidate_date Sim.env Sim.self Sim.day 128 false
             (Sim.five (Sim.mkFaults [Sim.file_name 3] [] false false false)))
  = inr true /\
  downloaded_paths
    (trace (consolidate_date Sim.env Sim.self Sim.day 128 false
              (Sim.five (Sim.mkFaults [Sim.file_name 3] [] false false false))))
  = List.map Sim.file_name [1; 2; 4; 5]%nat /\
  reaped_paths
    (trace (consolidate_date Sim.env Sim.self Sim.day 128 false
              (Sim.five (Sim.mkFaults [Sim.file_name 3] [] false false false))))
  = List.map Sim.file_name [1; 2; 3; 4; 5]%nat /\
  Sim.remote
    (world (consolidate_date Sim.env Sim.self Sim.day 128 false
              (Sim.five (Sim.mkFaults [Sim.file_name 3] [] false false false))))
  = [Sim.mkRemoteFile Sim.output_remote 4000 (Sim.mkTable "v1" 40)].
Proof. vm_compute. repeat split. Qed.

(** The upload fails: the run returns [False] and the Reaper deletes
    nothing. *)
Lemma publish_before_reap_witness :
  outcome (consolidate_date Sim.env Sim.self Sim.day 128 false
             (Sim.five (Sim.mkFaults [] [] true false false)))
  = inr false /\
  Forall (fun e => is_reap e = false)
    (trace (consolidate_date Sim.env Sim.self Sim.day 128 false
              (Sim.five (Sim.mkFaults [] [] true false false)))).
Proof.
  apply (proj2 (publish_before_reap Sim.env Sim.self Sim.day 128 false
                  (Sim.five (Sim.mkFaults [] [] true false false)))
           (mkEvent In_upload_consolidated_file
              (Run ["hdfs"; "dfs"; "-put"; Sim.output_local; Sim.output_remote]
                 (hdfs_user_timeout 120) (inr Sim.failed)))).
  - find_event.
  - reflexivity.
  - reflexivity.
Defined.


(** Three files are listed: the run stops after the listing. *)
Lemma gate_on_listed_files_witness :
  outcome (get_daily_files Sim.env Sim.self Sim.day
             (world (cleanup_corrupted_files Sim.env Sim.self Sim.day false
                       (Sim.cluster [2000; 2000; 2000] Sim.no_faults))))
  = inr (List.map Sim.file_name [1; 2; 3]%nat) /\
  outcome (consolidate_date Sim.env Sim.self Sim.day 128 false
             (Sim.cluster [2000; 2000; 2000] Sim.no_faults))
  = inr true /\
  Forall (fun e => is_put e = false /\ is_get e = false /\ is_reap e = false)
    (trace (consolidate_date Sim.env Sim.self Sim.day 128 false
              (Sim.cluster [2000; 2000; 2000] Sim.no_faults))).
Proof.
  assert (Hl : outcome (get_daily_files Sim.env Sim.self Sim.day
                  (world (cleanup_corrupted_files Sim.env Sim.self Sim.day false
                            (Sim.cluster [2000; 2000; 2000] Sim.no_faults))))
               = inr (List.map Sim.file_name [1; 2; 3]%nat))
    by (vm_compute; reflexivity).
  split; [exact Hl|].
  destruct (proj1 (gate_on_listed_files Sim.env Sim.self Sim.day 128 false
                     (Sim.cluster [2000; 2000; 2000] Sim.no_faults)
                     (List.map Sim.file_name [1; 2; 3]%nat) Hl))
    as (Ho & _ & Hall).
  - vm_compute. reflexivity.
  - split; [exact Ho | exact Hall].
Defined.

(** C5 (counterexamples).  First: five files are listed, two of them of
    500 bytes that the store refuses to delete; [get_file_info] admits
    three files, so the size-filtered set is below the minimum of five,
    and yet the run uploads a consolidated file and reaps all five listed
    files.  Second: three files of 500 bytes; the listing after the sweep
    is empty, the run stops with [True], and yet the Sweeper has issued
    three deletes and the store is empty. *)
Lemma gate_ignores_size_filter :
  (exists info,
     outcome
       (get_file_info Sim.env Sim.self
          (List.map Sim.file_name [1; 2; 3; 4; 5]%nat)
          (world (get_daily_files Sim.env Sim.self Sim.day
                    (world (cleanup_corrupted_files Sim.env Sim.self Sim.day
                              false Sim.stubborn)))))
     = inr info /\
     eligible_entries info (List.map Sim.file_name [1; 2; 3; 4; 5]%nat)
     = List.map Sim.file_name [1; 2; 3]%nat) /\
  outcome (get_daily_files Sim.env Sim.self Sim.day
             (world (cleanup_corrupted_files Sim.env Sim.self Sim.day
                       false Sim.stubborn)))
  = inr (List.map Sim.file_name [1; 2; 3; 4; 5]%nat) /\
  outcome (consolidate_date Sim.env Sim.self Sim.day 128 false Sim.stubborn)
  = inr true /\
  List.length
    (List.filter put_ok
       (trace (consolidate_date Sim.env Sim.self Sim.day 128 false
                 Sim.stubborn))) = 1%nat /\
  reaped_paths
    (trace (consolidate_date Sim.env Sim.self Sim.day 128 false Sim.stubborn))
  = List.map Sim.file_name [1; 2; 3; 4; 5]%nat /\
  outcome (consolidate_date Sim.env Sim.self Sim.day 128 false
             (Sim.cluster [500; 500; 500] Sim.no_faults))
  = inr true /\
  List.length
    (List.filter (fun e => is_delete e && succeeded e)
       (trace (consolidate_date Sim.env Sim.self Sim.day 128 false
                 (Sim.cluster [500; 500; 500] Sim.no_faults)))) = 3%nat /\
  Sim.remote
    (world (consolidate_date Sim.env Sim.self Sim.day 128 false
              (Sim.cluster [500; 500; 500] Sim.no_faults))) = [].
Proof.
  split.
  - eexists. split; [reflexivity|]. vm_compute. reflexivity.
  - vm_compute. repeat split.
Qed.

(** C6 (counterexample): the two thresholds have the same value, so the
    planning threshold is not the larger one. *)
Lemma thresholds_coincide :
  CLEANUP_THRESHOLD_BYTES = 1024 /\ MIN_FILE_SIZE_BYTES = 1024 /\
  (CLEANUP_THRESHOLD_BYTES <? MIN_FILE_SIZE_BYTES) = false.
Proof. repeat split. Qed.

(** Five files, no fault: the staging directory is created and, at the
    end of the run, removed. *)
Lemma staging_cleanup_attempted_witness :
  outcome (get_daily_files Sim.env Sim.self Sim.day
             (world (cleanup_corrupted_files Sim.env Sim.self Sim.day false
                       (Sim.five Sim.no_faults))))
  = inr (List.map Sim.file_name [1; 2; 3; 4; 5]%nat) /\
  MIN_FILES_TO_CONSOLIDATE
  <= Z.of_nat (List.length (List.map Sim.file_name [1; 2; 3; 4; 5]%nat)) /\
  exists b,
    outcome (consolidate_date Sim.env Sim.self Sim.day 128 false
               (Sim.five Sim.no_faults)) = inr b.
Proof.
  assert (Hl : outcome (get_daily_files Sim.env Sim.self Sim.day
                  (world (cleanup_corrupted_files Sim.env Sim.self Sim.day false
                            (Sim.five Sim.no_faults))))
               = inr (List.map Sim.file_name [1; 2; 3; 4; 5]%nat))
    by (vm_compute; reflexivity).
  assert (Hge : MIN_FILES_TO_CONSOLIDATE
                <= Z.of_nat (List.length
                               (List.map Sim.file_name [1; 2; 3; 4; 5]%nat)))
    by (vm_compute; discriminate).
  split; [exact Hl|]. split; [exact Hge|].
  destruct (staging_cleanup_attempted Sim.env Sim.self Sim.day 128
              (Sim.five Sim.no_faults)
              (List.map Sim.file_name [1; 2; 3; 4; 5]%nat) Hl Hge)
    as (stamp & plan & created & middle & cleanup & _ & _ & Hb & _).
  exact Hb.
Defined.

(** C8 (counterexample): [shutil.rmtree] raises.  The run returns [True],
    its last call is the failed [rmtree], and the staging directory and
    the files staged in it are still there when control is back with the
    caller. *)
Lemma staging_directory_remains :
  outcome (consolidate_date Sim.env Sim.self Sim.day 128 false
             (Sim.five (Sim.mkFaults [] [] false false true)))
  = inr true /\
  List.last
    (trace (consolidate_date Sim.env Sim.self Sim.day 128 false
              (Sim.five (Sim.mkFaults [] [] false false true))))
    (stamped "")
  = mkEvent In_consolidate_date (Rmtree Sim.temp_dir (inl OSError)) /\
  Sim.os_path_exists Sim.temp_dir
    (world (consolidate_date Sim.env Sim.self Sim.day 128 false
              (Sim.five (Sim.mkFaults [] [] false false true))))
  = (true,
     world (consolidate_date Sim.env Sim.self Sim.day 128 false
              (Sim.five (Sim.mkFaults [] [] false false true)))) /\
  List.length
    (Sim.disk
       (world (consolidate_date Sim.env Sim.self Sim.day 128 false
                 (Sim.five (Sim.mkFaults [] [] false false true)))))
  = 6%nat.
Proof. vm_compute. repeat split. Qed.

(** A dry batch of three days over a partition of five files. *)
Lemma batch_semantics_witness :
  arg_days_back (mkArgs "2025-08-15" 128 true (Some 2) false) = Some 2 /\
  0 <= 2 /\
  strptime Sim.env (arg_date (mkArgs "2025-08-15" 128 true (Some 2) false))
  = inr 739478 /\
  1 <= 739478 - 2 /\ 739478 <= 3652059 /\
  (exit_status
     (outcome (main Sim.env (mkArgs "2025-08-15" 128 true (Some 2) false)
                 (Sim.five Sim.no_faults))) = 0 \/
   exit_status
     (outcome (main Sim.env (mkArgs "2025-08-15" 128 true (Some 2) false)
                 (Sim.five Sim.no_faults))) = 1).
Proof.
  assert (H1 : arg_days_back (mkArgs "2025-08-15" 128 true (Some 2) false)
               = Some 2) by reflexivity.
  assert (H2 : 0 <= 2) by lia.
  assert (H3 : strptime Sim.env
                 (arg_date (mkArgs "2025-08-15" 128 true (Some 2) false))
               = inr 739478) by reflexivity.
  assert (H4 : 1 <= 739478 - 2) by lia.
  assert (H5 : 739478 <= 3652059) by lia.
  repeat (split; [assumption|]).
  destruct (batch_semantics Sim.env
              (mkArgs "2025-08-15" 128 true (Some 2) false) 2 739478
              (Sim.five Sim.no_faults) H1 H2 H3 H4 H5)
    as (c & _ & _ & _ & _ & _ & _ & Hexit).
  exact Hexit.
Defined.

(** Two files of one base name, both fetched by the client: one staged
    path, which the second download overwrites and the Merger reads
    twice.  The run succeeds, publishes 14 rows for the 17 rows the two
    originals hold, and both originals are deleted. *)
Lemma staging_by_basename_witness :
  Py.basename Sim.twin_a = Py.basename Sim.twin_b /\
  truthy Sim.staging = true /\
  downloaded_paths
    (trace (download_files Sim.client_env Sim.client [Sim.twin_a; Sim.twin_b]
              Sim.staging Sim.twins))
  = [] ++ Sim.twin_a :: [] ++ Sim.twin_b :: [] /\
  staged Sim.staging Sim.twin_b = staged Sim.staging Sim.twin_a /\
  outcome (consolidate_steps Sim.client_env Sim.client Sim.day
             [Sim.twin_a; Sim.twin_b] Sim.staging Sim.twins) = inr true /\
  (exists stamp reads rest,
     trace (consolidate_steps Sim.client_env Sim.client Sim.day
              [Sim.twin_a; Sim.twin_b] Sim.staging Sim.twins)
     = trace (download_files Sim.client_env Sim.client
                [Sim.twin_a; Sim.twin_b] Sim.staging Sim.twins)
       ++ stamped stamp :: reads ++ rest /\
     Forall (fun e => is_Some (read_file e)) reads /\
     omap read_file reads
     = [staged Sim.staging Sim.twin_a; staged Sim.staging Sim.twin_a] /\
     exists post reap,
       rest = post ++ reap /\
       Forall (fun e => is_reap e = true) reap /\
       omap remote_path reap = [Sim.twin_a; Sim.twin_b]) /\
  Sim.remote
    (world (consolidate_steps Sim.client_env Sim.client Sim.day
              [Sim.twin_a; Sim.twin_b] Sim.staging Sim.twins))
  = [Sim.mkRemoteFile (consolidated_path Sim.day "101500") 1400
       (Sim.mkTable "v1" 14)].
Proof.
  assert (H1 : Py.basename Sim.twin_a = Py.basename Sim.twin_b)
    by reflexivity.
  assert (H2 : truthy Sim.staging = true) by reflexivity.
  assert (H3 : downloaded_paths
                 (trace (download_files Sim.client_env Sim.client
                           [Sim.twin_a; Sim.twin_b] Sim.staging Sim.twins))
               = [] ++ Sim.twin_a :: [] ++ Sim.twin_b :: [])
    by (vm_compute; reflexivity).
  assert (Ho : outcome (consolidate_steps Sim.client_env Sim.client Sim.day
                          [Sim.twin_a; Sim.twin_b] Sim.staging Sim.twins)
               = inr true) by (vm_compute; reflexivity).
  assert (Hd : outcome (download_files Sim.client_env Sim.client
                          [Sim.twin_a; Sim.twin_b] Sim.staging Sim.twins)
               = inr [staged Sim.staging Sim.twin_a;
                      staged Sim.staging Sim.twin_a])
    by (vm_compute; reflexivity).
  pose proof (staging_by_basename Sim.client_env Sim.client Sim.day
                [Sim.twin_a; Sim.twin_b] Sim.staging Sim.twins
                Sim.twin_a Sim.twin_b [] [] [] H1 H2 H3) as H.
  cbv zeta in H.
  destruct H as (Hs & _ & _ & _ & _ & lb & lm & la & Hout & stamp & reads
                 & rest & Ht & Hrd & _ & Hcases & Htrue).
  rewrite Hd in Hout. injection Hout as Hl.
  repeat (split; [assumption|]).
  split.
  - exists stamp, reads, rest. split; [exact Ht|]. split; [exact Hrd|].
    split; [|exact (Htrue Ho)].
    destruct Hcases as [(_ & Hr)|(good & f & x & more & _ & _ & _ & _ & Hf)].
    + rewrite Hr, <- Hl. reflexivity.
    + rewrite Ho in Hf. discriminate Hf.
  - vm_compute. reflexivity.
Defined.


(** * Further properties of the consolidator *)

Section Guarantees.

Context {W Table : Type} (env : Env W Table).

Implicit Types (self : ParquetConsolidator) (w : W) (x : exn).

Lemma quiet_put_ok (e : Event Table) : quiet e -> put_ok e = false.
Proof. intros [Hp _]. unfold put_ok. rewrite Hp. reflexivity. Qed.

Lemma put_not_reap (e : Event Table) : is_put e = true -> is_reap e = false.
Proof.
  unfold is_put, is_reap, is_delete.
  destruct (kind e); simpl; try discriminate. reflexivity.
Qed.

(** X1: A run that returns [False] has published nothing and reaped nothing;
    and a run in which an upload succeeded, or in which the Reaper was
    called, returns [True], whatever the deletes reported. *)
Theorem failed_run_publishes_nothing self (date : string)
    (target_size_mb : Z) (dry_run : bool) w :
  let r := consolidate_date env self date target_size_mb dry_run w in
  (outcome r = inr false ->
   Forall (fun e => put_ok e = false /\ is_reap e = false) (trace r)) /\
  (forall e, List.In e (trace r) -> put_ok e = true \/ is_reap e = true ->
             outcome r = inr true).
Proof.
  cbv zeta.
  destruct (consolidate_date_shape env self date target_size_mb dry_run w)
    as (before & rest & after & Ht & Qb & Qa & Hcases).
  cbv zeta in Ht. rewrite Ht.
  assert (Hq : forall t : list (Event Table),
            Forall quiet t ->
            Forall (fun e => put_ok e = false /\ is_reap e = false) t).
  { intros t Hall. eapply Forall_impl; [exact Hall|].
    intros e He. split; [apply quiet_put_ok; exact He | apply He]. }
  assert (Hin : forall (t : list (Event Table)) e,
            Forall quiet t -> List.In e t ->
            put_ok e = true \/ is_reap e = true -> False).
  { intros t e Hall He Hor. apply Hq in Hall.
    rewrite List.Forall_forall in Hall.
    destruct (Hall e He) as [H1 H2]. destruct Hor; congruence. }
  destruct Hcases as [(-> & -> & Ho)|[(-> & Ho)|[(up & -> & Hput & Hfail & Ho)|
                      (up & reap & -> & Hok & Hreap & Ho & _)]]].
  - split; [rewrite Ho; discriminate | intros; exact Ho].
  - split.
    + intros _. apply Forall_app; split; [apply Hq, Qb|]. simpl. apply Hq, Qa.
    + intros e He Hor. exfalso. simpl in He.
      apply List.in_app_or in He as [He|He];
        [exact (Hin before e Qb He Hor) | exact (Hin after e Qa He Hor)].
  - split.
    + intros _. apply Forall_app; split; [apply Hq, Qb|].
      constructor; [|apply Hq, Qa].
      split; [unfold put_ok; rewrite Hfail; apply andb_false_r
             | apply put_not_reap; exact Hput].
    + intros e He Hor. exfalso.
      apply List.in_app_or in He as [He|[<-|He]];
        [exact (Hin before e Qb He Hor) | | exact (Hin after e Qa He Hor)].
      destruct Hor as [H|H].
      * unfold put_ok in H. rewrite Hfail, andb_false_r in H. discriminate.
      * rewrite (put_not_reap _ Hput) in H. discriminate.
  - split; [rewrite Ho; discriminate | intros; exact Ho].
Qed.

Ltac take_event :=
  match goal with
  | |- exists w1 ev, (_, ?w, [?e]) = _ /\ _ => exists w, e
  end.

(** One delete of the Reaper: the count goes up exactly when the delete
    reported success. *)
Lemma remove_one_count self (f : string) (n : Z) w :
  exists w1 (del : Event Table),
    remove_one env self f n w
    = (inr (if succeeded del then n + 1 else n), w1, [del]) /\
    is_reap del = true /\ remote_path del = Some f.
Proof.
  unfold remove_one, try_except, bind, run, perform.
  destruct (hdfs self).
  - destruct (hdfs_rm env f w) as [[x|[]] w1]; simpl;
      take_event; repeat split.
  - destruct (subprocess_run env _ _ w) as [[x|p] w1]; simpl.
    + take_event. repeat split.
    + destruct (returncode p =? 0) eqn:E; simpl; take_event;
        unfold succeeded; simpl; rewrite E; repeat split.
Qed.

Lemma remove_loop_count self (files : list string) (n : Z) w :
  exists w1 (t : list (Event Table)),
    for_each files (remove_one env self) n w
    = (inr (n + Z.of_nat (List.length (List.filter succeeded t))), w1, t) /\
    Forall (fun e => is_reap e = true) t /\
    omap remote_path t = files /\
    List.length t = List.length files.
Proof.
  revert n w. induction files as [|f files IH]; intros n w.
  - exists w, []. simpl. rewrite Z.add_0_r. repeat split. constructor.
  - simpl for_each. rewrite bind_eq.
    destruct (remove_one_count self f n w) as (w1 & del & -> & Hr & Hp).
    destruct (IH (if succeeded del then n + 1 else n) w1)
      as (w2 & t & -> & Hall & Hfs & Hlen).
    exists w2, (del :: t). split; [|split; [|split]].
    + simpl List.filter. simpl app.
      destruct (succeeded del); f_equal; f_equal; f_equal;
        try (simpl List.length; rewrite Nat2Z.inj_succ; lia).
    + constructor; assumption.
    + simpl. rewrite Hp. simpl. f_equal. exact Hfs.
    + simpl. f_equal. exact Hlen.
Qed.

Lemma filter_length_forallb {A} (p : A -> bool) (l : list A) :
  (Z.of_nat (List.length (List.filter p l)) =? Z.of_nat (List.length l))
  = List.forallb p l.
Proof.
  induction l as [|a l IH]; [reflexivity|].
  cbn [List.filter List.forallb].
  pose proof (List.filter_length_le p l) as Hle.
  destruct (p a); cbn [List.length andb].
  - rewrite !Nat2Z.inj_succ, <- IH.
    destruct (Z.eqb_spec (Z.of_nat (List.length (List.filter p l)))
                (Z.of_nat (List.length l)));
      [apply Z.eqb_eq | apply Z.eqb_neq]; lia.
  - apply Z.eqb_neq. rewrite Nat2Z.inj_succ. lia.
Qed.

(** X3: The Reaper asks for the delete of every file it is given, once and in
    order, going on after a delete that fails or raises; it never raises,
    and it returns [True] exactly when every delete reported success. *)
Theorem reaper_tries_every_file self (files : list string) w :
  let r := remove_source_files env self files w in
  omap remote_path (trace r) = files /\
  Forall (fun e => is_reap e = true) (trace r) /\
  outcome r = inr (List.forallb succeeded (trace r)).
Proof.
  cbv zeta. unfold remove_source_files. rewrite bind_eq.
  destruct (remove_loop_count self files 0 w)
    as (w1 & t & -> & Hall & Hfs & Hlen).
  unfold trace, outcome. simpl. rewrite app_nil_r.
  split; [exact Hfs|]. split; [exact Hall|].
  f_equal. rewrite <- (filter_length_forallb succeeded t), Hlen.
  reflexivity.
Qed.

End Guarantees.


Section Counting.

Context {W Table : Type} (env : Env W Table).

Implicit Types (self : ParquetConsolidator) (w : W) (x : exn).

(** The number of deletes of a trace that reported success. *)
Local Abbreviation deleted t := (Z.of_nat (List.length (List.filter delete_ok t))).

(** One line of the listing of the Sweeper: no call, or a single delete
    that returned, or a single delete that raised. *)
Lemma cleanup_line_count (dry_run : bool) (line : string) (k : Z) w :
  exists res w1 (t : list (Event Table)),
    cleanup_line env dry_run line k w = (res, w1, t) /\
    ((t = [] /\ res = inr k)
     \/ (dry_run = false /\
         exists del, t = [del] /\ is_delete del = true /\
           ((raised del = false /\
             res = inr (if succeeded del then k + 1 else k))
            \/ (raised del = true /\ succeeded del = false /\
                (res = inr k \/ exists x, res = inl x))))).
Proof.
  unfold cleanup_line.
  destruct (Py.contains "telemetry-" line && Py.contains ".parquet" line);
    [|do 3 eexists; split; [reflexivity | left; split; reflexivity]].
  cbv zeta. destruct (8 <=? List.length (Py.split line))%nat;
    [|do 3 eexists; split; [reflexivity | left; split; reflexivity]].
  unfold try_except, bind, of_option, run, perform.
  destruct (Py.int (Py.part 4 (Py.split line))) as [size|];
    [|do 3 eexists; split; [reflexivity | left; split; reflexivity]].
  simpl. destruct (size <=? CLEANUP_THRESHOLD_BYTES);
    [|do 3 eexists; split; [reflexivity | left; split; reflexivity]].
  destruct dry_run;
    [do 3 eexists; split; [reflexivity | left; split; reflexivity]|].
  destruct (subprocess_run env _ _ w) as [[x|p] w1]; simpl.
  - destruct x; simpl; do 3 eexists; (split; [reflexivity|]); right;
      (split; [reflexivity|]); eexists; (split; [reflexivity|]);
      (split; [reflexivity|]); right; (split; [reflexivity|]);
      (split; [reflexivity|]);
      first [left; reflexivity | right; eexists; reflexivity].
  - destruct (returncode p =? 0) eqn:E; simpl;
      do 3 eexists; (split; [reflexivity|]); right; (split; [reflexivity|]);
      eexists; (split; [reflexivity|]); (split; [reflexivity|]); left;
      (split; [reflexivity|]); unfold succeeded; simpl; rewrite E;
      reflexivity.
Qed.

Lemma cleanup_loop_count (dry_run : bool) (lines : list string) (k : Z) w :
  exists res w1 (t : list (Event Table)),
    for_each lines (cleanup_line env dry_run) k w = (res, w1, t) /\
    (dry_run = true -> t = []) /\
    ((exists k', res = inr k' /\ k <= k' <= k + deleted t /\
                 (List.existsb raised t = false -> k' = k + deleted t))
     \/ (List.existsb raised t = true /\ exists x, res = inl x)).
Proof.
  revert k w. induction lines as [|line lines IH]; intros k w.
  - exists (inr k), w, []. split; [reflexivity|]. split; [reflexivity|].
    left. exists k. simpl. split; [reflexivity|]. split; lia.
  - simpl for_each. rewrite bind_eq.
    destruct (cleanup_line_count dry_run line k w)
      as (res & w1 & t & -> & Hline).
    destruct Hline as [(-> & ->)|(Hdry & del & -> & Hdel & Hres)].
    + destruct (IH k w1) as (res' & w2 & t' & -> & Hd & Hres').
      exists res', w2, t'. split; [reflexivity|]. split; [exact Hd|].
      exact Hres'.
    + assert (Hok : delete_ok del = succeeded del)
        by (unfold delete_ok; rewrite Hdel; reflexivity).
      destruct Hres as [(Hr & ->)|(Hr & Hs & [->|(x & ->)])].
      * destruct (IH (if succeeded del then k + 1 else k) w1)
          as (res' & w2 & t' & -> & _ & Hres').
        exists res', w2, (del :: t'). split; [reflexivity|].
        split; [intros; congruence|].
        simpl List.existsb. simpl List.filter. rewrite Hr, Hok. simpl orb.
        destruct Hres' as [(k' & -> & Hk & Hall)|(Hraised & x & ->)].
        -- left. exists k'. split; [reflexivity|].
           destruct (succeeded del); simpl List.length;
             rewrite ?Nat2Z.inj_succ; split; try lia;
             intros H; specialize (Hall H); lia.
        -- right. split; [exact Hraised|]. exists x. reflexivity.
      * destruct (IH k w1) as (res' & w2 & t' & -> & _ & Hres').
        exists res', w2, (del :: t'). split; [reflexivity|].
        split; [intros; congruence|].
        simpl List.existsb. simpl List.filter. rewrite Hr, Hok, Hs.
        simpl orb.
        destruct Hres' as [(k' & -> & Hk & Hall)|(Hraised & x & ->)].
        -- left. exists k'. split; [reflexivity|]. split; [lia|].
           discriminate.
        -- right. split; [reflexivity|]. exists x. reflexivity.
      * exists (inl x), w1, [del]. split; [reflexivity|].
        split; [intros; congruence|].
        right. simpl. rewrite Hr. split; [reflexivity|]. exists x.
        reflexivity.
Qed.

(** X4: The Sweeper never raises.  What it returns is at most the number of
    deletes that reported success, and it is that number when no call
    raised; it is 0 in a dry run, in which no delete is issued, and 0 when
    the listing fails. *)
Theorem sweeper_counts_its_deletes self (date : string) (dry_run : bool) w :
  let r := cleanup_corrupted_files env self date dry_run w in
  exists n,
    outcome r = inr n /\
    0 <= n <= deleted (trace r) /\
    (List.existsb raised (trace r) = false -> n = deleted (trace r)) /\
    (dry_run = true -> n = 0 /\ List.length (trace r) = 1%nat) /\
    (forall first rest, trace r = first :: rest -> succeeded first = false ->
                        n = 0 /\ rest = []).
Proof.
  cbv zeta.
  assert (Hrun : exists n w' (t : list (Event Table)),
            cleanup_corrupted_files env self date dry_run w = (inr n, w', t) /\
            0 <= n <= deleted t /\
            (List.existsb raised t = false -> n = deleted t) /\
            (dry_run = true -> n = 0 /\ List.length t = 1%nat) /\
            (forall first rest, t = first :: rest ->
               succeeded first = false -> n = 0 /\ rest = [])).
  { unfold cleanup_corrupted_files. rewrite try_except_eq, bind_eq.
    unfold run at 1, perform.
    destruct (subprocess_run env _ _ w) as [[x|p] w1].
    - exists 0. do 2 eexists. simpl. split; [reflexivity|].
      split; [lia|]. split; [discriminate|].
      split; [intros; split; reflexivity|].
      intros first rest [= <- <-] _. split; reflexivity.
    - destruct (negb (returncode p =? 0)) eqn:Erc.
      + exists 0. do 2 eexists. simpl. split; [reflexivity|].
        split; [lia|]. split; [reflexivity|].
        split; [intros; split; reflexivity|].
        intros first rest [= <- <-] _. split; reflexivity.
      + destruct (cleanup_loop_count dry_run (Py.split_on newline (stdout p))
                    0 w1) as (res & w2 & t & -> & Hdry & Hres).
        assert (Hls : delete_ok
                        (mkEvent (Table := Table) In_cleanup_corrupted_files
                           (Run ["hdfs"; "dfs"; "-ls"; date_path date] plain
                              (inr p))) = false) by reflexivity.
        assert (Hsucc : succeeded
                          (mkEvent (Table := Table) In_cleanup_corrupted_files
                             (Run ["hdfs"; "dfs"; "-ls"; date_path date] plain
                                (inr p))) = true).
        { unfold succeeded. simpl. apply negb_false_iff in Erc. exact Erc. }
        destruct Hres as [(k' & -> & Hk & Hall)|(Hraised & x & ->)].
        * exists k'. do 2 eexists. split; [reflexivity|].
          simpl app. cbn [List.filter List.existsb]. rewrite Hls.
          change (raised (mkEvent (Table := Table) In_cleanup_corrupted_files
                            (Run ["hdfs"; "dfs"; "-ls"; date_path date] plain
                               (inr p)))) with false.
          cbn [orb].
          split; [lia|].
          split; [intros H; specialize (Hall H); lia|].
          split.
          -- intros Hd. rewrite (Hdry Hd) in *. simpl in *.
             split; [lia | reflexivity].
          -- intros first rest [= <- <-] Hf. congruence.
        * exists 0. do 2 eexists. split; [reflexivity|].
          rewrite app_nil_r. simpl app.
          cbn [List.filter List.existsb]. rewrite Hls.
          change (raised (mkEvent (Table := Table) In_cleanup_corrupted_files
                            (Run ["hdfs"; "dfs"; "-ls"; date_path date] plain
                               (inr p)))) with false.
          cbn [orb]. rewrite Hraised.
          split; [lia|]. split; [discriminate|].
          split.
          -- intros Hd. rewrite (Hdry Hd) in Hraised. discriminate Hraised.
          -- intros first rest [= <- <-] Hf. congruence. }
  destruct Hrun as (n & w' & t & -> & Hrest).
  exists n. split; [reflexivity | exact Hrest].
Qed.

End Counting.


Section Planning.

Context {W Table : Type} (env : Env W Table).

Implicit Types (self : ParquetConsolidator) (w : W) (x : exn).

Lemma tracked_start : tracked [] (mkInfoState ∅ 0 []).
Proof.
  split.
  - intros f. simpl. split; [intros []|].
    intros [[m Hm]|[]]. rewrite lookup_empty in Hm. discriminate Hm.
  - left. split; reflexivity.
Qed.

Lemma tracked_skip (done : list string) (st : InfoState) (f : string) :
  tracked done st -> tracked (done ++ [f]) (skip f st).
Proof.
  intros [Hin Htot]. split; [|exact Htot].
  intros g. unfold skip. simpl. rewrite !List.in_app_iff, Hin. simpl.
  tauto.
Qed.

Lemma tracked_account (done : list string) (st : InfoState) (f : string)
    (size : Z) :
  tracked done st -> tracked (done ++ [f]) (account f size st).
Proof.
  intros Hst. unfold account.
  destruct (size <? MIN_FILE_SIZE_BYTES) eqn:Hsize;
    [apply tracked_skip; exact Hst|].
  apply Z.ltb_ge in Hsize. destruct Hst as [Hin Htot]. split.
  - intros g. simpl. rewrite List.in_app_iff, Hin. simpl.
    destruct (decide (f = g)) as [->|Hne].
    + rewrite lookup_insert_eq. split; [intros _; left; eexists; reflexivity|].
      intros _. right. left. reflexivity.
    + rewrite lookup_insert_ne by exact Hne. split.
      * intros [H|[H|[]]]; [exact H | contradiction].
      * intros H. left. exact H.
  - right. simpl. split; [apply insert_non_empty|].
    unfold MIN_FILE_SIZE_BYTES in *. destruct Htot as [[_ ->]|[_ H]]; lia.
Qed.

Lemma tracked_skip_all (files : list string) :
  tracked files (skip_all files (mkInfoState ∅ 0 [])).
Proof.
  split.
  - intros f. unfold skip_all. simpl. split; [intros H; right; exact H|].
    intros [[m Hm]|H]; [|exact H].
    rewrite lookup_empty in Hm. discriminate Hm.
  - left. split; reflexivity.
Qed.

Lemma tracked_match_file (size_map : gmap string Z) (files done : list string)
    (st : InfoState) :
  tracked done st ->
  tracked (done ++ files) (List.fold_left (match_file size_map) files st).
Proof.
  revert done st. induction files as [|f files IH]; intros done st Hst.
  - rewrite app_nil_r. exact Hst.
  - simpl List.fold_left.
    replace (done ++ f :: files) with ((done ++ [f]) ++ files)
      by (rewrite <- app_assoc; reflexivity).
    apply IH. unfold match_file. destruct (size_map !! f).
    + apply tracked_account. exact Hst.
    + apply tracked_skip. exact Hst.
Qed.

Lemma tracked_info_loop (files done : list string) (st : InfoState) w :
  tracked done st ->
  exists st' w1 t,
    for_each files (info_one env) st w = (inr st', w1, t) /\
    tracked (done ++ files) st'.
Proof.
  revert done st w. induction files as [|f files IH]; intros done st w Hst.
  - exists st, w, []. rewrite app_nil_r. split; [reflexivity | exact Hst].
  - simpl for_each. rewrite bind_eq.
    assert (Hone : exists st1 w1 t1,
              info_one env f st w = (inr st1, w1, t1) /\
              tracked (done ++ [f]) st1).
    { unfold info_one, try_except, bind, perform.
      destruct (hdfs_info env f w) as [[x|size] w1]; simpl;
        do 3 eexists; (split; [reflexivity|]);
        [apply tracked_skip | apply tracked_account]; exact Hst. }
    destruct Hone as (st1 & w1 & t1 & -> & Hst1).
    destruct (IH (done ++ [f]) st1 w1 Hst1) as (st' & w2 & t2 & -> & Hst').
    do 3 eexists. split; [reflexivity|].
    rewrite <- app_assoc in Hst'. exact Hst'.
Qed.

(** X5: [get_file_info] never raises.  Every file it is given ends up in its
    table or in its list of skipped files, and nothing else does; the
    total is 0 when the table is empty and at least [MIN_FILE_SIZE_BYTES]
    otherwise; and [file_count] is the number of files it was given,
    skipped ones included. *)
Theorem every_file_admitted_or_skipped self (files : list string) w :
  exists st,
    outcome (get_file_info_state env self files w) = inr st /\
    (forall f, List.In f files <->
               (is_Some (file_info st !! f) \/ List.In f (skipped_files st))) /\
    ((file_info st = ∅ /\ total_size st = 0) \/
     (file_info st <> ∅ /\ MIN_FILE_SIZE_BYTES <= total_size st)) /\
    outcome (get_file_info env self files w)
    = inr (mkFileInfo (file_info st) (to_mb (total_size st))
             (Z.of_nat (List.length files))).
Proof.
  assert (Hst : exists st w1 t,
            get_file_info_state env self files w = (inr st, w1, t) /\
            tracked files st).
  { unfold get_file_info_state. cbv zeta. destruct (hdfs self).
    - apply (tracked_info_loop files [] _ w tracked_start).
    - destruct files as [|first files].
      + do 3 eexists. split; [reflexivity | exact tracked_start].
      + unfold try_except, bind, run, perform.
        destruct (subprocess_run env _ _ w) as [[x|p] w1]; simpl.
        * destruct x; do 3 eexists; (split; [reflexivity|]);
            apply tracked_skip_all.
        * destruct (returncode p =? 0); do 3 eexists;
            (split; [reflexivity|]);
            [apply (tracked_match_file _ (first :: files) [] _ tracked_start)
            | apply tracked_skip_all]. }
  destruct Hst as (st & w1 & t & Hrun & Hin & Htot).
  exists st. unfold get_file_info. rewrite bind_eq, Hrun.
  split; [reflexivity|]. split; [exact Hin|]. split; [exact Htot|].
  reflexivity.
Qed.

(** X6: The Fetcher raises only when the staging directory cannot be made, and
    then it has issued no get.  When it returns, it has issued one get per
    file it was given, whatever the order the pool completed them in, and
    every path it returns is the staged path of one of these files whose
    get reported success. *)
Theorem every_file_fetched_once self (files : list string)
    (local_dir : string) w :
  let r := download_files env self files local_dir w in
  (forall x, outcome r = inl x ->
     trace r = [mkEvent In_download_files (Makedirs local_dir (inl x))]) /\
  (forall local_files, outcome r = inr local_files ->
     Permutation (omap remote_path (List.filter is_get (trace r))) files /\
     local_files
     = List.filter truthy
         (List.map (staged local_dir) (downloaded_paths (trace r))) /\
     forall l, List.In l local_files ->
       exists f, List.In f files /\ l = staged local_dir f /\
                 List.In f (downloaded_paths (trace r))).
Proof.
  cbv zeta. unfold download_files. rewrite bind_eq. unfold perform.
  destruct (os_makedirs env local_dir w) as [[x|[]] w1].
  - unfold outcome, trace. simpl. split; [|discriminate].
    intros y [= <-]. reflexivity.
  - rewrite bind_eq. unfold observe.
    destruct (as_completed env (List.length files) w1) as [picks w2].
    destruct (download_loop_run env self local_dir (arrange picks files) [] w2)
      as (w3 & t & -> & Hall & Hfs).
    unfold outcome, trace. simpl fst. simpl snd. split; [discriminate|].
    intros local_files [= <-].
    assert (Hgets : List.filter is_get t = t).
    { clear Hfs. induction Hall as [|e t [_ He] _ IH]; [reflexivity|].
      simpl. unfold is_get at 1. rewrite He. f_equal. exact IH. }
    assert (Hdown : downloaded_paths
                      (mkEvent In_download_files (Makedirs local_dir (inr tt))
                       :: mkEvent In_download_files
                            (AsCompleted (List.length files) picks) :: t)
                    = downloaded_paths t) by reflexivity.
    simpl app. rewrite Hdown. simpl List.filter. rewrite Hgets, Hfs.
    split; [apply arrange_Permutation|]. split; [reflexivity|].
    intros l Hl. apply List.filter_In in Hl as [Hl _].
    apply List.in_map_iff in Hl as (f & <- & Hf).
    exists f. split; [|split; [reflexivity | exact Hf]].
    apply downloaded_paths_gets in Hf. rewrite Hgets, Hfs in Hf.
    eapply Permutation_in; [apply arrange_Permutation | exact Hf].
Qed.

(** X7: The Merger never raises, and it returns [True] only when it has read
    every input, once and in order, written the output, read it back, and
    found in it as many rows as the inputs held. *)
Theorem merge_succeeds_only_verified self (local_files : list string)
    (output_file : string) w :
  let m := consolidate_parquet_files env self local_files output_file w in
  (exists b, outcome m = inr b) /\
  (outcome m = inr true ->
   exists reads c v,
     trace m = reads ++ [wrote c output_file; read output_file v] /\
     omap read_file reads = local_files /\
     num_rows env v = rows_read env reads).
Proof.
  cbv zeta.
  destruct (consolidate_parquet_files_run env self local_files output_file w)
    as (reads & rest & b & w1 & Hrun & Hreads & Hcases).
  rewrite Hrun. unfold outcome, trace. simpl fst. simpl snd.
  split; [exists b; reflexivity|]. intros [= ->].
  destruct Hcases as [(Hb & _)|[(Hb & _)|[(Hb & _)|(c & v & -> & Hb & Hfiles)]]];
    try discriminate Hb.
  exists reads, c, v. split; [reflexivity|]. split; [exact Hfiles|].
  symmetry in Hb. apply Z.eqb_eq in Hb. exact Hb.
Qed.

End Planning.


(** * Paths *)

Section Paths.

Implicit Types (s p a b : string) (c : ascii).

Lemma append_cons c a b : String c a +:+ b = String c (a +:+ b).
Proof. reflexivity. Qed.

Lemma append_nil_r a : a +:+ "" = a.
Proof.
  induction a as [|c a IH]; [reflexivity|]. rewrite append_cons, IH.
  reflexivity.
Qed.

Lemma string_of_list_app (l1 l2 : list ascii) :
  string_of_list_ascii (l1 ++ l2)
  = string_of_list_ascii l1 +:+ string_of_list_ascii l2.
Proof.
  induction l1 as [|c l1 IH]; simpl; [reflexivity|].
  rewrite append_cons, IH. reflexivity.
Qed.

Lemma append_assoc a b s : (a +:+ b) +:+ s = a +:+ (b +:+ s).
Proof.
  induction a as [|c a IH]; [reflexivity|].
  rewrite !append_cons, IH. reflexivity.
Qed.

Lemma rev_string_cons c s :
  Py.rev_string (String c s) = Py.rev_string s +:+ String c "".
Proof.
  unfold Py.rev_string. simpl. rewrite string_of_list_app. reflexivity.
Qed.

Lemma rev_string_involutive s : Py.rev_string (Py.rev_string s) = s.
Proof.
  unfold Py.rev_string.
  rewrite list_ascii_of_string_of_list_ascii, List.rev_involutive.
  apply string_of_list_ascii_of_string.
Qed.

(** [p in s] for a one-character [p]. *)
Lemma contains_char c s :
  Py.contains (String c "") s = true <-> List.In c (list_ascii_of_string s).
Proof.
  induction s as [|b s IH]; simpl.
  - split; [discriminate | intros []].
  - rewrite orb_true_iff, IH, andb_true_r. split.
    + intros [H|H]; [left; apply Ascii.eqb_eq in H; congruence | right; exact H].
    + intros [H|H]; [left; apply Ascii.eqb_eq; congruence | right; exact H].
Qed.

Lemma startswith_append_l p a b :
  Py.startswith p a = true -> Py.startswith p (a +:+ b) = true.
Proof.
  revert a. induction p as [|c p IH]; intros a; simpl; [reflexivity|].
  destruct a as [|d a]; [discriminate|]. rewrite append_cons. simpl.
  rewrite !andb_true_iff. intros [H1 H2]. split; [exact H1 | apply IH, H2].
Qed.

Lemma contains_append_l p a b :
  Py.contains p a = true -> Py.contains p (a +:+ b) = true.
Proof.
  induction a as [|c a IH].
  - simpl. rewrite orb_false_r. intros H.
    destruct p; [|discriminate H]. destruct b; reflexivity.
  - simpl Py.contains at 1. intros H. apply orb_true_iff in H as [H|H].
    + change (String c a +:+ b) with (String c (a +:+ b)).
      simpl Py.contains.
      pose proof (startswith_append_l p (String c a) b H) as H'.
      rewrite append_cons in H'. rewrite H'. reflexivity.
    + change (String c a +:+ b) with (String c (a +:+ b)).
      simpl Py.contains. rewrite (IH H). apply orb_true_r.
Qed.

Lemma contains_append_r p a b :
  Py.contains p b = true -> Py.contains p (a +:+ b) = true.
Proof.
  intros H. induction a as [|c a IH]; [exact H|].
  change (String c a +:+ b) with (String c (a +:+ b)).
  simpl Py.contains. rewrite IH. apply orb_true_r.
Qed.

(** The base name holds no slash. *)
Lemma basename_aux_no_slash s cur :
  ~ List.In "/"%char (list_ascii_of_string cur) ->
  ~ List.In "/"%char (list_ascii_of_string (Py.basename_aux s cur)).
Proof.
  revert cur. induction s as [|c s IH]; intros cur Hcur; simpl.
  - unfold Py.rev_string. rewrite list_ascii_of_string_of_list_ascii.
    rewrite <- List.in_rev. exact Hcur.
  - destruct (Ascii.eqb c "/") eqn:E.
    + apply IH. intros [].
    + apply IH. simpl. intros [H|H]; [|exact (Hcur H)].
      apply Ascii.eqb_neq in E. congruence.
Qed.

Lemma basename_no_slash s : Py.contains "/" (Py.basename s) = false.
Proof.
  destruct (Py.contains "/" (Py.basename s)) eqn:E; [|reflexivity].
  apply contains_char in E. exfalso.
  exact (basename_aux_no_slash s "" (fun H => H) E).
Qed.

Lemma contains_slash_cons c b :
  Py.contains "/" (String c b) = false ->
  Ascii.eqb "/" c = false /\ Py.contains "/" b = false.
Proof.
  change (Py.contains "/" (String c b))
    with ((Ascii.eqb "/" c && true) || Py.contains "/" b).
  rewrite andb_true_r. apply orb_false_iff.
Qed.

(** The base name of what is already a base name, behind any directory
    prefix that is empty or ends with a slash. *)
Lemma basename_aux_plain b cur :
  Py.contains "/" b = false ->
  Py.basename_aux b cur = Py.rev_string cur +:+ b.
Proof.
  revert cur. induction b as [|c b IH]; intros cur Hb; simpl.
  - rewrite append_nil_r. reflexivity.
  - apply contains_slash_cons in Hb as [Hc Hb].
    rewrite Ascii.eqb_sym, Hc, (IH _ Hb), rev_string_cons, append_assoc.
    reflexivity.
Qed.

Lemma basename_aux_behind_slash a b cur :
  Py.basename_aux ((a +:+ "/") +:+ b) cur = Py.basename_aux b "".
Proof.
  revert cur. induction a as [|c a IH]; intros cur.
  - reflexivity.
  - rewrite !append_cons. simpl. destruct (Ascii.eqb c "/"); apply IH.
Qed.

Lemma endswith_slash a :
  Py.endswith "/" a = true -> exists a0, a = a0 +:+ "/".
Proof.
  unfold Py.endswith. intros H.
  change (Py.rev_string "/") with "/" in H.
  destruct (Py.rev_string a) as [|c r] eqn:E; [discriminate H|].
  change (Py.startswith "/" (String c r)) with (Ascii.eqb "/" c && true) in H.
  rewrite andb_true_r in H. apply Ascii.eqb_eq in H. subst c.
  exists (Py.rev_string r).
  rewrite <- (rev_string_involutive a), E, rev_string_cons. reflexivity.
Qed.

(** X8: The staged file keeps the name of the remote file, and two remote
    files are staged at the same path exactly when they have the same base
    name: files of different names never overwrite one another in the
    staging directory. *)
Theorem staged_paths_collide_only_on_names (local_dir f1 f2 : string) :
  Py.basename (staged local_dir f1) = Py.basename f1 /\
  (staged local_dir f1 = staged local_dir f2 <->
   Py.basename f1 = Py.basename f2).
Proof.
  assert (Hname : forall f, Py.basename (staged local_dir f) = Py.basename f).
  { intros f. unfold staged, Py.join.
    pose proof (basename_no_slash f) as Hb.
    assert (Hs : Py.startswith "/" (Py.basename f) = false).
    { destruct (Py.basename f) as [|c b]; [reflexivity|].
      apply contains_slash_cons in Hb as [Hb _].
      change (Py.startswith "/" (String c b)) with (Ascii.eqb "/" c && true).
      rewrite Hb. reflexivity. }
    rewrite Hs. unfold Py.basename at 1.
    destruct (String.eqb local_dir "") eqn:Ed; simpl orb.
    - apply String.eqb_eq in Ed. subst local_dir.
      change ("" +:+ Py.basename f) with (Py.basename f).
      rewrite (basename_aux_plain _ "" Hb). reflexivity.
    - destruct (Py.endswith "/" local_dir) eqn:Ee.
      + destruct (endswith_slash _ Ee) as (a0 & ->).
        rewrite basename_aux_behind_slash, (basename_aux_plain _ "" Hb).
        reflexivity.
      + rewrite <- append_assoc.
        rewrite basename_aux_behind_slash, (basename_aux_plain _ "" Hb).
        reflexivity. }
  split; [apply Hname|]. split.
  - intros H. rewrite <- (Hname f1), <- (Hname f2), H. reflexivity.
  - intros H. unfold staged. rewrite H. reflexivity.
Qed.

(** X9: The name of the file a run publishes holds the word that both
    branches of the listing reject: a consolidated file is never listed
    again as a source, whatever precedes or follows its path on the line
    of the listing. *)
Theorem published_file_is_not_listed (date stamp prefix suffix : string) :
  wanted (consolidated_path date stamp) = false /\
  listed_file (prefix +:+ consolidated_path date stamp +:+ suffix) = None.
Proof.
  assert (Hc : Py.contains "consolidated" (consolidated_path date stamp)
               = true).
  { unfold consolidated_path. do 6 apply contains_append_r. reflexivity. }
  split.
  - unfold wanted. rewrite Hc. change (negb true) with false.
    apply andb_false_r.
  - unfold listed_file.
    rewrite (contains_append_r "consolidated" prefix _
               (contains_append_l "consolidated" _ suffix Hc)).
    destruct (_ && _); reflexivity.
Qed.

End Paths.


(** * The listing, the upload and the downloads *)

Section Steps.

Context {W Table : Type} (env : Env W Table).

Implicit Types (self : ParquetConsolidator) (w : W) (x : exn).

Lemma not_put_kind (e : Event Table) (Q : Prop) :
  kind e = Listing \/ kind e = Local \/ kind e = Get \/ kind e = Delete ->
  is_put e = true -> Q.
Proof.
  unfold is_put. intros [H|[H|[H|H]]]; rewrite H; discriminate.
Qed.

Ltac no_put :=
  match goal with
  | H : is_put _ = true |- _ => discriminate H
  end.

(** X10: Every upload of a run of [consolidate_date] writes to the path of the
    date's partition that is named after the date, the word
    "consolidated" and a time stamp. *)
Theorem upload_goes_to_consolidated_path self (date : string)
    (target_size_mb : Z) (dry_run : bool) w :
  Forall (fun e => is_put e = true ->
                   exists stamp,
                     put_target e = Some (consolidated_path date stamp))
    (trace (consolidate_date env self date target_size_mb dry_run w)).
Proof.
  revert w.
  change (emits (fun e : Event Table =>
                   is_put e = true ->
                   exists stamp,
                     put_target e = Some (consolidated_path date stamp))
            (consolidate_date env self date target_size_mb dry_run)).
  unfold consolidate_date.
  emits_step.
  { eapply emits_weaken; [apply cleanup_corrupted_files_emits|].
    intros e [_ [H|[H _]]]; apply not_put_kind; tauto. }
  emits_step.
  { eapply emits_weaken; [apply get_daily_files_emits|].
    intros e [_ H]; apply not_put_kind; tauto. }
  emits_step; [emits_step|].
  emits_step.
  { eapply emits_weaken; [apply get_file_info_emits|].
    intros e [_ H]; apply not_put_kind; tauto. }
  emits_step; [emits_step|].
  emits_step; [emits_step; no_put|].
  emits_step.
  - emits_step; [|emits_step].
    unfold consolidate_steps.
    emits_step.
    { eapply emits_weaken; [apply download_files_emits|].
      intros e [[_ H]|[_ H]]; apply not_put_kind; tauto. }
    emits_step; [emits_step|].
    emits_step; [emits_step; no_put|].
    emits_step.
    { eapply emits_weaken; [apply consolidate_parquet_files_emits|].
      intros e [_ H]; apply not_put_kind; tauto. }
    emits_step; [emits_step|].
    emits_step.
    + unfold upload_consolidated_file, run.
      repeat emits_step; eexists; reflexivity.
    + emits_step; [emits_step|].
      emits_step; [|emits_step].
      eapply emits_weaken; [apply remove_source_files_emits|].
      intros e [_ H]; apply not_put_kind; tauto.
  - eapply emits_weaken; [apply cleanup_temp_dir_emits|].
    intros e [_ H]; apply not_put_kind; tauto.
Qed.

(** X11: The listing never raises and issues one call.  When that call fails,
    no file is listed.  With the client, every listed path ends in
    ".parquet", holds "telemetry-" and does not hold "consolidated"; on
    the command line, every listed path is the last field of a line of
    the output that has at least eight fields, holds "telemetry-" and
    ".parquet", and does not hold "consolidated". *)
Theorem listing_keeps_unconsolidated_telemetry self (date : string) w :
  let l := get_daily_files env self date w in
  exists files first,
    outcome l = inr files /\
    trace l = [first] /\
    (succeeded first = false -> files = []) /\
    (hdfs self = true -> Forall (fun f => wanted f = true) files) /\
    (hdfs self = false ->
     forall f, List.In f files ->
       exists listing line,
         first = mkEvent In_get_daily_files
                   (Run ["hdfs"; "dfs"; "-ls"; date_path date] plain
                      (inr listing)) /\
         List.In line (Py.split_on newline (stdout listing)) /\
         listed_file line = Some f).
Proof.
  cbv zeta.
  assert (Hrun : exists files first w',
            get_daily_files env self date w = (inr files, w', [first]) /\
            (succeeded first = false -> files = []) /\
            (hdfs self = true -> Forall (fun f => wanted f = true) files) /\
            (hdfs self = false ->
             forall f, List.In f files ->
               exists listing line,
                 first = mkEvent In_get_daily_files
                           (Run ["hdfs"; "dfs"; "-ls"; date_path date] plain
                              (inr listing)) /\
                 List.In line (Py.split_on newline (stdout listing)) /\
                 listed_file line = Some f)).
  { unfold get_daily_files, try_except, bind, run, perform.
    destruct (hdfs self).
    - destruct (hdfs_ls env (date_path date) w) as [[x|l] w1]; simpl.
      + do 3 eexists. split; [reflexivity|]. split; [reflexivity|].
        split; [intros; constructor | discriminate].
      + do 3 eexists. split; [reflexivity|]. split; [discriminate|].
        split; [|discriminate]. intros _.
        apply List.Forall_forall. intros f Hf.
        apply List.filter_In in Hf. tauto.
    - destruct (subprocess_run env _ _ w) as [[x|p] w1]; simpl.
      + do 3 eexists. split; [reflexivity|]. split; [reflexivity|].
        split; [discriminate|]. intros _ f [].
      + destruct (returncode p =? 0) eqn:Erc; simpl.
        * do 3 eexists. split; [reflexivity|].
          split; [unfold succeeded; simpl; rewrite Erc; discriminate|].
          split; [discriminate|]. intros _ f Hf.
          exists p. apply list_elem_of_In in Hf.
          apply list_elem_of_omap in Hf as (line & Hline & Hf).
          exists line. split; [reflexivity|].
          split; [apply list_elem_of_In; exact Hline | exact Hf].
        * do 3 eexists. split; [reflexivity|]. split; [reflexivity|].
          split; [discriminate|]. intros _ f []. }
  destruct Hrun as (files & first & w' & -> & Hrest).
  exists files, first. split; [reflexivity|]. split; [reflexivity|].
  exact Hrest.
Qed.

Lemma downloaded_paths_app (t1 t2 : list (Event Table)) :
  downloaded_paths (t1 ++ t2) = downloaded_paths t1 ++ downloaded_paths t2.
Proof.
  unfold downloaded_paths. rewrite List.filter_app. apply omap_app.
Qed.

(** When no download comes back, the steps stop after the Fetcher. *)
Lemma consolidate_steps_nothing self (date : string) (files : list string)
    (temp_dir : string) w :
  let d := download_files env self files temp_dir w in
  (exists x, outcome d = inl x) \/ outcome d = inr [] ->
  trace (consolidate_steps env self date files temp_dir w) = trace d /\
  outcome (consolidate_steps env self date files temp_dir w) <> inr true.
Proof.
  cbv zeta. unfold consolidate_steps. rewrite bind_eq.
  destruct (download_files env self files temp_dir w) as [[o wd] td].
  unfold outcome, trace. simpl fst. simpl snd.
  intros [(x & ->)| ->]; simpl.
  - split; [reflexivity | discriminate].
  - rewrite app_nil_r. split; [reflexivity | discriminate].
Qed.

(** X2: When no download reports success, the run returns [False]: nothing is
    merged, nothing is uploaded and no source is deleted. *)
Theorem no_download_no_publication self (date : string) (target_size_mb : Z)
    w (files : list string) :
  let r := consolidate_date env self date target_size_mb false w in
  outcome (get_daily_files env self date
             (world (cleanup_corrupted_files env self date false w)))
  = inr files ->
  MIN_FILES_TO_CONSOLIDATE <= Z.of_nat (List.length files) ->
  downloaded_paths (trace r) = [] ->
  outcome r = inr false /\
  Forall (fun e => is_put e = false /\ is_reap e = false /\
                   outside_merger e) (trace r).
Proof.
  cbv zeta. intros Hl Hge Hnone.
  destruct (consolidate_date_run env self date target_size_mb false w)
    as (files' & Hl' & Hrun). cbv zeta in Hrun.
  rewrite Hl in Hl'. injection Hl' as <-.
  destruct Hrun as [(Hlow & _)|(_ & [(Hd & _)|(_ & Hfull)])];
    [lia | discriminate Hd |].
  destruct Hfull as (stamp & w1 & _ & Ht & Ho).
  remember (Py.join TEMP_LOCAL_DIR
              ("consolidation_" +:+ date +:+ "_" +:+ stamp)) as temp_dir.
  pose proof (consolidate_steps_run env self date files temp_dir w1) as Hs.
  pose proof (download_files_run env self files temp_dir w1) as Hd.
  pose proof (consolidate_steps_nothing self date files temp_dir w1) as Hn.
  cbv zeta in Hs, Hd, Hn.
  assert (Hdd : downloaded_paths
                  (trace (download_files env self files temp_dir w1)) = []).
  { rewrite Ht in Hnone. rewrite !downloaded_paths_app in Hnone.
    apply app_eq_nil in Hnone as [_ Hnone].
    apply app_eq_nil in Hnone as [_ Hnone].
    apply app_eq_nil in Hnone as [_ Hnone].
    change (stamped stamp :: ?t) with ([stamped stamp] ++ t) in Hnone.
    rewrite !downloaded_paths_app in Hnone.
    apply app_eq_nil in Hnone as [_ Hnone].
    apply app_eq_nil in Hnone as [Hnone _].
    destruct Hs as [[Hts _]|(lf & st & out & w2 & _ & rest & Hts & _)];
      rewrite Hts in Hnone; [exact Hnone|].
    rewrite downloaded_paths_app in Hnone.
    apply app_eq_nil in Hnone as [Hnone _]. exact Hnone. }
  destruct Hd as (Hkinds & Hsites & Hout).
  assert (Hstop : (exists x, outcome (download_files env self files temp_dir w1)
                             = inl x)
                  \/ outcome (download_files env self files temp_dir w1)
                     = inr []).
  { destruct Hout as [(x & Hx & _)|(Hr & _)]; [left; exists x; exact Hx|].
    right. rewrite Hr, Hdd. reflexivity. }
  destruct (Hn Hstop) as (Hts & Hne).
  split.
  - rewrite Ho.
    destruct (outcome (consolidate_steps env self date files temp_dir w1))
      as [x|[|]]; [reflexivity | congruence | reflexivity].
  - rewrite Ht, Hts.
    repeat (apply Forall_app; split); try (constructor; [|]).
    + eapply Forall_impl; [apply cleanup_corrupted_files_emits|].
      intros e [Hsite Hk]. unfold is_put, is_reap, is_delete, outside_merger.
      rewrite Hsite. split; [|split; [|discriminate]].
      * destruct Hk as [->|[-> _]]; reflexivity.
      * apply andb_false_r.
    + eapply Forall_impl; [apply get_daily_files_emits|].
      intros e [Hsite Hk]. unfold is_put, is_reap, is_delete, outside_merger.
      rewrite Hsite, Hk. repeat split. discriminate.
    + eapply Forall_impl; [apply get_file_info_emits|].
      intros e [Hsite Hk]. unfold is_put, is_reap, is_delete, outside_merger.
      rewrite Hsite, Hk. repeat split. discriminate.
    + repeat split. discriminate.
    + apply Forall_app; split.
      * eapply Forall_impl; [apply download_files_emits|].
        intros e [[Hsite Hk]|[Hsite Hk]];
          unfold is_put, is_reap, is_delete, outside_merger;
          rewrite Hsite, Hk; repeat split; discriminate.
      * eapply Forall_impl; [apply cleanup_temp_dir_emits|].
        intros e [Hsite Hk]. unfold is_put, is_reap, is_delete, outside_merger.
        rewrite Hsite, Hk. repeat split. discriminate.
Qed.

End Steps.


(** * The edges of a batch *)

Section Batches.

Context {W Table : Type} (env : Env W Table).

Implicit Types (self : ParquetConsolidator) (w : W) (x : exn).

Lemma init_run (hdfs_host : string) (hdfs_port : Z) w :
  exists consolidator w0 t0,
    init env hdfs_host hdfs_port w = (inr consolidator, w0, t0).
Proof.
  unfold init, try_except, bind, perform.
  destruct (HDFS3_AVAILABLE env); [|do 3 eexists; reflexivity].
  destruct (hdfs_connect env hdfs_host hdfs_port w) as [[x|[]] w0];
    do 3 eexists; reflexivity.
Qed.

(** [main] once its list of dates is known. *)
Lemma main_with_dates (args : Args) w consolidator w0 t0
    (dates : list string) :
  init env HDFS_NAMENODE HDFS_PORT w = (inr consolidator, w0, t0) ->
  batch_dates env args w0 = (inr dates, w0, []) ->
  exists w1,
    main env args w
    = (inr (if Z.of_nat (List.length
                           (List.filter fully_succeeded
                              (date_runs env consolidator args dates w0)))
               =? Z.of_nat (List.length dates) then 0 else 1),
       w1,
       t0 ++ List.concat
               (List.map trace (date_runs env consolidator args dates w0))).
Proof.
  intros Hi Hd. unfold main. rewrite bind_eq, Hi, bind_eq, Hd, bind_eq.
  unfold process_dates.
  destruct (process_loop_run env consolidator args dates 0 w0) as (w1 & ->).
  exists w1. simpl. rewrite app_nil_r. reflexivity.
Qed.

(** [main] when its list of dates cannot be computed. *)
Lemma main_without_dates (args : Args) w consolidator w0 t0 x :
  init env HDFS_NAMENODE HDFS_PORT w = (inr consolidator, w0, t0) ->
  batch_dates env args w0 = (inl x, w0, []) ->
  main env args w = (inl x, w0, t0).
Proof.
  intros Hi Hd. unfold main. rewrite bind_eq, Hi, bind_eq, Hd.
  rewrite app_nil_r. reflexivity.
Qed.

(** X12: Without [--days-back], or with [--days-back 0], the date is not
    parsed: [consolidate_date] runs once, on the string as given, and the
    exit status is 0 exactly when it returns [True]. *)
Theorem single_date_is_not_parsed (args : Args) w :
  arg_days_back args = None \/ arg_days_back args = Some 0 ->
  let i := init env HDFS_NAMENODE HDFS_PORT w in
  exists consolidator b,
    outcome i = inr consolidator /\
    let r := consolidate_date env consolidator (arg_date args)
               (arg_target_size args) (arg_dry_run args) (world i) in
    outcome r = inr b /\
    outcome (main env args w) = inr (if b then 0 else 1) /\
    trace (main env args w) = trace i ++ trace r.
Proof.
  intros Hn. cbv zeta.
  destruct (init_run HDFS_NAMENODE HDFS_PORT w) as (c & w0 & t0 & Hi).
  assert (Hd : batch_dates env args w0 = (inr [arg_date args], w0, [])).
  { unfold batch_dates. destruct Hn as [-> | ->]; reflexivity. }
  destruct (main_with_dates args w c w0 t0 _ Hi Hd) as (w1 & Hmain).
  simpl date_runs in Hmain.
  destruct (consolidate_date_returns env c (arg_date args)
              (arg_target_size args) (arg_dry_run args) w0) as (b & Hb).
  exists c, b. rewrite Hmain, Hi. unfold outcome, world, trace in *.
  simpl fst in *. simpl snd in *.
  destruct (consolidate_date env c (arg_date args) (arg_target_size args)
              (arg_dry_run args) w0) as [[o wr] tr].
  simpl in Hb. subst o.
  unfold fully_succeeded, outcome. simpl.
  rewrite app_nil_r.
  split; [reflexivity|]. split; [reflexivity|]. split; [|reflexivity].
  destruct b; reflexivity.
Qed.

(** X13: With a negative [--days-back] and a date that parses, no date is
    processed and the exit status is 0. *)
Theorem negative_days_back_processes_nothing (args : Args) (n start_date : Z)
    w :
  arg_days_back args = Some n -> n < 0 ->
  strptime env (arg_date args) = inr start_date ->
  outcome (main env args w) = inr 0 /\
  trace (main env args w) = trace (init env HDFS_NAMENODE HDFS_PORT w).
Proof.
  intros Hn Hneg Hstart.
  destruct (init_run HDFS_NAMENODE HDFS_PORT w) as (c & w0 & t0 & Hi).
  assert (Hd : batch_dates env args w0 = (inr [], w0, [])).
  { unfold batch_dates. rewrite Hn.
    replace (n =? 0) with false by (symmetry; apply Z.eqb_neq; lia).
    rewrite bind_eq, Hstart. simpl.
    unfold range. replace (Z.to_nat (n + 1)) with 0%nat by lia.
    reflexivity. }
  destruct (main_with_dates args w c w0 t0 _ Hi Hd) as (w1 & Hmain).
  rewrite Hmain, Hi. unfold outcome, trace. simpl. rewrite app_nil_r.
  split; reflexivity.
Qed.

(** A loop over dates that meets a day before the first day of the
    calendar raises [OverflowError]. *)
Lemma dates_loop_overflow (start_date : Z) (l : list Z) w :
  (exists i, List.In i l /\ start_date - i < 1) ->
  (forall i, List.In i l -> start_date - i <= 3652059) ->
  map_m (Table := Table)
    (fun i => d <- of_result (minus_days start_date i) ;;
              ret (strftime env d)) l w
  = (inl OverflowError, w, []).
Proof.
  induction l as [|j l IH]; intros (i & Hi & Hlow) Hhigh; [destruct Hi|].
  simpl map_m. rewrite bind_eq, bind_eq.
  destruct (Z.le_gt_cases 1 (start_date - j)) as [Hj|Hj].
  - assert (Hm : minus_days start_date j = inr (start_date - j)).
    { unfold minus_days.
      replace (1 <=? start_date - j) with true
        by (symmetry; apply Z.leb_le; lia).
      replace (start_date - j <=? 3652059) with true
        by (symmetry; apply Z.leb_le; apply Hhigh; left; reflexivity).
      reflexivity. }
    rewrite Hm. simpl. rewrite bind_eq, IH; [reflexivity | |].
    + destruct Hi as [->|Hi]; [lia|]. exists i. split; assumption.
    + intros k Hk. apply Hhigh. right. exact Hk.
  - assert (Hm : minus_days start_date j = inl OverflowError).
    { unfold minus_days.
      replace (1 <=? start_date - j) with false
        by (symmetry; apply Z.leb_gt; lia).
      reflexivity. }
    rewrite Hm. reflexivity.
Qed.

(** X14: A batch whose dates cannot be computed processes nothing: when the
    date does not parse, or when the batch reaches back before the first
    day of the calendar, [main] raises before the first date is run, and
    the process ends with status 1. *)
Theorem unreadable_batch_processes_nothing (args : Args) (n : Z) w :
  arg_days_back args = Some n -> n <> 0 ->
  ((exists x, strptime env (arg_date args) = inl x) \/
   (exists start_date, strptime env (arg_date args) = inr start_date /\
                       0 < n /\ start_date - n < 1 /\
                       start_date <= 3652059)) ->
  (exists x, outcome (main env args w) = inl x) /\
  exit_status (outcome (main env args w)) = 1 /\
  trace (main env args w) = trace (init env HDFS_NAMENODE HDFS_PORT w).
Proof.
  intros Hn Hnz Hbad.
  destruct (init_run HDFS_NAMENODE HDFS_PORT w) as (c & w0 & t0 & Hi).
  assert (Hd : exists x, batch_dates env args w0 = (inl x, w0, [])).
  { unfold batch_dates. rewrite Hn.
    replace (n =? 0) with false by (symmetry; apply Z.eqb_neq; exact Hnz).
    rewrite bind_eq.
    destruct Hbad as [(x & ->)|(start_date & -> & Hpos & Hlow & Hhigh)].
    - exists x. reflexivity.
    - exists OverflowError. simpl.
      rewrite (dates_loop_overflow start_date); [reflexivity | |].
      + exists n. split; [|exact Hlow].
        unfold range. apply List.in_map_iff. exists (Z.to_nat n).
        split; [lia|]. apply List.in_seq. lia.
      + intros i Hi'. apply range_bounds in Hi'. lia. }
  destruct Hd as (x & Hd).
  rewrite (main_without_dates args w c w0 t0 x Hi Hd), Hi.
  split; [exists x; reflexivity|]. split; reflexivity.
Qed.

End Batches.

(** * The figures of the remote analysis *)

Section Figures.

(** X15: The report of [consolidate_date_dry_run]: nothing below five files;
    else at least one target file and a reduction below 100 percent,
    which is negative exactly when there are more target files than
    files. *)
Theorem report_of_the_remote_analysis (n_files : Z) (total_size_mb : Q) :
  (Remote.consolidate_date_dry_run n_files total_size_mb = Remote.WouldSkip
   <-> n_files < 5) /\
  (forall target percent,
     Remote.consolidate_date_dry_run n_files total_size_mb
     = Remote.Impact target percent ->
     target = Remote.target_files total_size_mb /\
     1 <= target /\ percent < 100 /\ (0 <= percent <-> target <= n_files)).
Proof.
  unfold Remote.consolidate_date_dry_run, Remote.MIN_FILES_TO_CONSOLIDATE.
  destruct (Z.ltb_spec n_files 5) as [Hlt|Hge].
  - split; [split; [intros _; exact Hlt | reflexivity]|].
    intros target percent H. discriminate H.
  - split; [split; [discriminate | lia]|].
    intros target percent [= <- <-].
    assert (Ht : 1 <= Remote.target_files total_size_mb)
      by (unfold Remote.target_files; lia).
    split; [reflexivity|]. split; [exact Ht|].
    unfold Remote.reduction_percent.
    remember (Remote.target_files total_size_mb) as t eqn:Et. clear Et.
    split.
    + apply Z.div_lt_upper_bound; lia.
    + split.
      * intros Hp.
        destruct (Z.le_gt_cases t n_files) as [H|H]; [exact H|].
        exfalso.
        assert ((n_files - t) * 100 / n_files < 0);
          [apply Z.div_lt_upper_bound; lia | lia].
      * intros Hle. apply Z.div_pos; lia.
Qed.

(** X16: The target file count of a total of at least one target size: the
    target files of the target size fit in the total, and one more does
    not; and the count does not decrease when the total grows. *)
Theorem target_files_fill_the_total (total_size_mb other : Q) :
  (inject_Z Remote.TARGET_FILE_SIZE_MB <= total_size_mb)%Q ->
  (total_size_mb <= other)%Q ->
  (inject_Z (Remote.target_files total_size_mb * Remote.TARGET_FILE_SIZE_MB)
   <= total_size_mb)%Q /\
  (total_size_mb
   < inject_Z ((Remote.target_files total_size_mb + 1)
               * Remote.TARGET_FILE_SIZE_MB))%Q /\
  Remote.target_files total_size_mb <= Remote.target_files other.
Proof.
  intros Hge Hle.
  assert (Hpos : (0 < total_size_mb)%Q).
  { eapply Qlt_le_trans; [|exact Hge]. reflexivity. }
  assert (Hpos' : (0 < other)%Q) by (eapply Qlt_le_trans; eassumption).
  rewrite !target_files_floor by assumption.
  unfold Remote.TARGET_FILE_SIZE_MB in *.
  destruct total_size_mb as [n d]. destruct other as [n' d'].
  unfold Qle, Qlt, Qfloor, Qdiv, Qmult, Qinv, inject_Z in *. simpl in *.
  rewrite !Z.mul_1_r in *.
  assert (Hd : 0 < Z.pos (d * 128)) by lia.
  assert (Hd' : 0 < Z.pos (d' * 128)) by lia.
  pose proof (Z.mul_div_le n (Z.pos (d * 128)) Hd) as H1.
  pose proof (Z.mul_succ_div_gt n (Z.pos (d * 128)) Hd) as H2.
  assert (H128 : 1 <= n / Z.pos (d * 128)).
  { apply Z.div_le_lower_bound; lia. }
  rewrite Pos2Z.inj_mul in *.
  split; [|split].
  - rewrite Z.max_r by lia. nia.
  - rewrite Z.max_r by lia. nia.
  - apply Z.max_le_compat_l.
    apply Z.div_le_lower_bound; [lia|].
    (* n / (128 d) * (128 d') <= n' *)
    assert (H3 : n / (Z.pos d * 128) * (Z.pos d * 128) <= n) by lia.
    nia.
Qed.

End Figures.


(** * The configuration file *)

Section ConfigFile.

Implicit Types (s p a b key value line raw : string) (c : ascii)
  (config : gmap string string).

Lemma rev_string_append a b :
  Py.rev_string (a +:+ b) = Py.rev_string b +:+ Py.rev_string a.
Proof.
  induction a as [|c a IH].
  - change ("" +:+ b) with b. change (Py.rev_string "") with "".
    rewrite append_nil_r. reflexivity.
  - rewrite append_cons, !rev_string_cons, IH, append_assoc. reflexivity.
Qed.

Lemma contains_eq_cons c s :
  Py.contains "=" (String c s) = Ascii.eqb "=" c || Py.contains "=" s.
Proof.
  change (Py.contains "=" (String c s))
    with ((Ascii.eqb "=" c && true) || Py.contains "=" s).
  rewrite andb_true_r. reflexivity.
Qed.

(** Splitting once at the first "=". *)
Lemma split_once_found s cur :
  Py.contains "=" s = true ->
  exists key value,
    Config.split_once_aux "=" s cur = [Py.rev_string cur +:+ key; value] /\
    s = key +:+ String "=" value /\ Py.contains "=" key = false.
Proof.
  revert cur. induction s as [|c s IH]; intros cur Hs; [discriminate Hs|].
  rewrite contains_eq_cons in Hs. simpl Config.split_once_aux.
  rewrite Ascii.eqb_sym. destruct (Ascii.eqb "=" c) eqn:Ec.
  - apply Ascii.eqb_eq in Ec. subst c. exists "", s.
    rewrite append_nil_r. repeat split.
  - destruct (IH (String c cur) Hs) as (key & value & -> & -> & Hkey).
    exists (String c key), value. split; [|split].
    + rewrite rev_string_cons, append_assoc. reflexivity.
    + reflexivity.
    + rewrite contains_eq_cons, Ec, Hkey. reflexivity.
Qed.

Lemma split_once_at key value :
  Py.contains "=" key = false ->
  Config.split_once "=" (key +:+ String "=" value) = [key; value].
Proof.
  intros Hkey. unfold Config.split_once.
  assert (H : forall cur,
            Config.split_once_aux "=" (key +:+ String "=" value) cur
            = [Py.rev_string cur +:+ key; value]).
  { induction key as [|c key IH]; intros cur.
    - change ("" +:+ String "=" value) with (String "=" value).
      rewrite append_nil_r. reflexivity.
    - rewrite contains_eq_cons in Hkey.
      apply orb_false_iff in Hkey as [Hc Hkey].
      rewrite append_cons. simpl Config.split_once_aux.
      rewrite Ascii.eqb_sym, Hc, (IH Hkey), rev_string_cons, append_assoc.
      reflexivity. }
  rewrite H. reflexivity.
Qed.

Lemma startswith_export line :
  Py.startswith "export " line = true ->
  line = "export " +:+ Config.drop 7 line.
Proof.
  intros H.
  do 7 (destruct line as [|? line]; [discriminate H|];
        apply andb_true_iff in H as [Hc H];
        apply Ascii.eqb_eq in Hc; subst).
  reflexivity.
Qed.

Lemma contains_eq_export s :
  Py.contains "=" ("export " +:+ s) = Py.contains "=" s.
Proof.
  change ("export " +:+ s)
    with (String "e" (String "x" (String "p" (String "o" (String "r"
            (String "t" (String " " s))))))).
  rewrite !contains_eq_cons. reflexivity.
Qed.

(** A line of the file never makes the loop raise: whenever the line is
    split, it is split in two. *)
Lemma config_line_returns config raw :
  exists config', Config.config_line config raw = inr config'.
Proof.
  unfold Config.config_line. cbv zeta.
  destruct (truthy (Py.strip raw) && negb (Py.startswith "#" (Py.strip raw)))
    ; simpl andb; [|eexists; reflexivity].
  destruct (Py.contains "=" (Py.strip raw)) eqn:Hc; [|eexists; reflexivity].
  assert (Hc' : Py.contains "="
                  (if Py.startswith "export " (Py.strip raw)
                   then Config.drop 7 (Py.strip raw) else Py.strip raw)
                = true).
  { destruct (Py.startswith "export " (Py.strip raw)) eqn:He; [|exact Hc].
    rewrite (startswith_export _ He), contains_eq_export in Hc. exact Hc. }
  unfold Config.split_once.
  destruct (split_once_found _ "" Hc') as (key & value & -> & _ & _).
  eexists. reflexivity.
Qed.

Lemma config_lines_return (lines : list string) config :
  exists config', Config.config_lines lines config = inr config'.
Proof.
  revert config. induction lines as [|raw lines IH]; intros config.
  - exists config. reflexivity.
  - simpl. destruct (config_line_returns config raw) as (c' & ->). apply IH.
Qed.

Lemma config_lines_app (l1 l2 : list string) config config1 :
  Config.config_lines l1 config = inr config1 ->
  Config.config_lines (l1 ++ l2) config = Config.config_lines l2 config1.
Proof.
  revert config. induction l1 as [|raw l1 IH]; intros config; simpl.
  - intros [= ->]. reflexivity.
  - destruct (Config.config_line config raw) as [x|c']; [discriminate|].
    apply IH.
Qed.


Lemma assignment_is_read config raw key value :
  Py.strip raw = key +:+ String "=" value ->
  Py.contains "=" key = false ->
  Py.startswith "#" key = false ->
  Py.startswith "export " (Py.strip raw) = false ->
  Config.config_line config raw
  = inr (<[key := Config.strip_chars Config.quotes value]> config).
Proof.
  intros Hraw Hkey Hhash Hexp. unfold Config.config_line. cbv zeta.
  rewrite Hexp, Hraw.
  assert (Ht : truthy (key +:+ String "=" value) = true)
    by (destruct key; reflexivity).
  assert (Hh : Py.startswith "#" (key +:+ String "=" value) = false).
  { destruct key as [|c key]; [reflexivity|].
    rewrite append_cons.
    change (Py.startswith "#" (String c ?s)) with (Ascii.eqb "#" c && true).
    change (Py.startswith "#" (String c key))
      with (Ascii.eqb "#" c && true) in Hhash.
    exact Hhash. }
  assert (Hc : Py.contains "=" (key +:+ String "=" value) = true).
  { apply contains_append_r. rewrite contains_eq_cons. reflexivity. }
  rewrite Ht, Hh, Hc. simpl andb. cbv iota.
  rewrite (split_once_at key value Hkey). reflexivity.
Qed.

Lemma exported_assignment_is_read config raw key value :
  Py.strip raw = "export " +:+ key +:+ String "=" value ->
  Py.contains "=" key = false ->
  Config.config_line config raw
  = inr (<[key := Config.strip_chars Config.quotes value]> config).
Proof.
  intros Hraw Hkey. unfold Config.config_line. cbv zeta. rewrite Hraw.
  assert (Hc : Py.contains "=" ("export " +:+ key +:+ String "=" value)
               = true).
  { rewrite contains_eq_export. apply contains_append_r.
    rewrite contains_eq_cons. reflexivity. }
  rewrite Hc.
  change (truthy ("export " +:+ key +:+ String "=" value)) with true.
  change (Py.startswith "#" ("export " +:+ key +:+ String "=" value))
    with false.
  change (Py.startswith "export " ("export " +:+ key +:+ String "=" value))
    with true.
  simpl andb. cbv iota.
  change (Config.drop 7 ("export " +:+ key +:+ String "=" value))
    with (key +:+ String "=" value).
  rewrite (split_once_at key value Hkey). reflexivity.
Qed.

(** X18: A line [KEY=VALUE], with or without the word "export" before it,
    sets [KEY] to [VALUE] without the quotes around it, the line being
    split at its first "="; and the value the file gives to a key is the
    one of its last assignment. *)
Theorem assignment_lines_set_keys (lines : list string) raw key value :
  Py.contains "=" key = false ->
  (Py.strip raw = "export " +:+ key +:+ String "=" value \/
   (Py.strip raw = key +:+ String "=" value /\
    Py.startswith "#" key = false /\
    Py.startswith "export " (Py.strip raw) = false)) ->
  (forall config,
     Config.config_line config raw
     = inr (<[key := Config.strip_chars Config.quotes value]> config)) /\
  exists loaded,
    Config.load_config (Some (lines ++ [raw])) = inr loaded /\
    loaded !! key = Some (Config.strip_chars Config.quotes value).
Proof.
  intros Hkey Hraw.
  assert (Hline : forall config,
            Config.config_line config raw
            = inr (<[key := Config.strip_chars Config.quotes value]> config)).
  { intros config. destruct Hraw as [H|(H & Hh & He)].
    - apply exported_assignment_is_read; assumption.
    - apply assignment_is_read; assumption. }
  split; [exact Hline|].
  destruct (config_lines_return lines ∅) as (c1 & H1).
  unfold Config.load_config. rewrite (config_lines_app _ _ _ _ H1).
  simpl. rewrite Hline. eexists. split; [reflexivity|].
  apply lookup_insert_eq.
Qed.

Lemma lstrip_chars_head (chars : list ascii) s c s' :
  Config.lstrip_chars chars s = String c s' -> Config.among chars c = false.
Proof.
  induction s as [|d s IH]; simpl; [discriminate|].
  destruct (Config.among chars d) eqn:Ed; [exact IH|].
  intros [= <- <-]. exact Ed.
Qed.

Lemma lstrip_chars_keeps_last (chars : list ascii) s c :
  Config.among chars c = false ->
  exists y, Config.lstrip_chars chars (s +:+ String c "") = y +:+ String c "".
Proof.
  intros Hc. induction s as [|d s IH].
  - exists "". change ("" +:+ String c "") with (String c ""). simpl.
    rewrite Hc. reflexivity.
  - rewrite append_cons. simpl. destruct (Config.among chars d).
    + exact IH.
    + exists (String d s). reflexivity.
Qed.

(** X19: The value stored for a key neither begins nor ends with a quote. *)
Theorem stored_value_has_no_outer_quotes value c rest :
  (Config.strip_chars Config.quotes value = String c rest ->
   Config.among Config.quotes c = false) /\
  (Py.rev_string (Config.strip_chars Config.quotes value) = String c rest ->
   Config.among Config.quotes c = false).
Proof.
  unfold Config.strip_chars. split.
  - destruct (Config.lstrip_chars Config.quotes value) as [|d t] eqn:Et.
    + change (Py.rev_string "") with "". simpl. discriminate.
    + pose proof (lstrip_chars_head _ _ _ _ Et) as Hd.
      rewrite rev_string_cons.
      destruct (lstrip_chars_keeps_last Config.quotes (Py.rev_string t) d Hd)
        as (y & ->).
      rewrite rev_string_append.
      change (Py.rev_string (String d "")) with (String d "").
      rewrite append_cons. intros [= <- _]. exact Hd.
  - rewrite rev_string_involutive. apply lstrip_chars_head.
Qed.

(** X20: The name node of the module.  When the last line of the file sets
    [HDFS_NAMENODE_PORT] to something that is not a number, the host and
    the port are the defaults, whatever host the lines before it name;
    when it sets it to a number, that number is the port.  Without a file
    they are the defaults. *)
Theorem malformed_port_discards_host (lines : list string) raw value :
  Py.strip raw = "HDFS_NAMENODE_PORT=" +:+ value \/
  Py.strip raw = "export HDFS_NAMENODE_PORT=" +:+ value ->
  (Py.int (Config.strip_chars Config.quotes value) = None ->
   Config.namenode (Some (lines ++ [raw]))
   = ("big-data-005.kuhn-labs.com", 8020)) /\
  (forall port,
     Py.int (Config.strip_chars Config.quotes value) = Some port ->
     snd (Config.namenode (Some (lines ++ [raw]))) = port) /\
  Config.namenode None = ("big-data-005.kuhn-labs.com", 8020).
Proof.
  intros Hraw.
  assert (Hline : forall config,
            Config.config_line config raw
            = inr (<["HDFS_NAMENODE_PORT"
                     := Config.strip_chars Config.quotes value]> config)).
  { intros config. destruct Hraw as [H|H].
    - apply assignment_is_read; [exact H | reflexivity | reflexivity |].
      rewrite H. reflexivity.
    - apply exported_assignment_is_read; [exact H | reflexivity]. }
  destruct (config_lines_return lines ∅) as (c1 & H1).
  assert (Hload : Config.load_config (Some (lines ++ [raw]))
                  = inr (<["HDFS_NAMENODE_PORT"
                           := Config.strip_chars Config.quotes value]> c1)).
  { unfold Config.load_config. rewrite (config_lines_app _ _ _ _ H1).
    simpl. rewrite Hline. reflexivity. }
  assert (Hget : Config.get
                   (<["HDFS_NAMENODE_PORT"
                      := Config.strip_chars Config.quotes value]> c1)
                   "HDFS_NAMENODE_PORT" "8020"
                 = Config.strip_chars Config.quotes value).
  { unfold Config.get. rewrite lookup_insert_eq. reflexivity. }
  unfold Config.namenode. rewrite Hload, Hget.
  split; [|split; [|reflexivity]].
  - intros ->. reflexivity.
  - intros port ->. reflexivity.
Qed.

End ConfigFile.


(** * The remote analysis *)

Section RemoteAnalysis.

Import RemoteHDFS.

Context {W : Type} (sh : Shell W).

Implicit Types (w : W) (files : list string) (st : SizeState).

Lemma andthen_eq {A B} (m : Sh W A) (k : A -> Sh W B) w :
  andthen m k w =
  match m w with
  | (a, w1, t1) => match k a w1 with (b, w2, t2) => (b, w2, t1 ++ t2) end
  end.
Proof. reflexivity. Qed.

(** One call of [run_hdfs_command]: one command for the shell, the given
    one behind [ssh], whatever the shell answers. *)
Lemma run_hdfs_command_commands (command : string) w :
  commands (run_hdfs_command sh command w) = [ssh command].
Proof.
  unfold run_hdfs_command.
  destruct (shell_run sh (ssh command) w) as [[x|p] w1]; [destruct x|];
    reflexivity.
Qed.

(** One file of [get_file_sizes]: one [stat], and an entry for the file
    whatever the answer. *)
Lemma size_one_run (f : string) st w :
  exists st' w1,
    size_one sh f st w = (st', w1, [ssh (stat_command f)]) /\
    exists meta, sized st' = <[f := meta]> (sized st).
Proof.
  unfold size_one. rewrite andthen_eq.
  pose proof (run_hdfs_command_commands (stat_command f) w) as Hc.
  destruct (run_hdfs_command sh (stat_command f) w) as [[[ok out] w1] t1].
  unfold commands in Hc. simpl in Hc. subst t1. cbn [fst snd].
  destruct ok; cbv beta iota; [destruct (Py.int (Py.strip out))|];
    unfold done; cbv beta iota; simpl app;
    do 2 eexists; (split; [reflexivity|]); eexists; reflexivity.
Qed.

Lemma size_loop_run files (seen : list string) st w :
  (forall f, List.In f seen <-> is_Some (sized st !! f)) ->
  exists st' w1,
    each files (size_one sh) st w
    = (st', w1, List.map (fun f => ssh (stat_command f)) files) /\
    (forall f, List.In f (seen ++ files) <-> is_Some (sized st' !! f)).
Proof.
  revert seen st w. induction files as [|f files IH]; intros seen st w Hst.
  - exists st, w. split; [reflexivity|]. rewrite app_nil_r. exact Hst.
  - simpl each. rewrite andthen_eq.
    destruct (size_one_run f st w) as (st1 & w1 & -> & meta & Hmeta).
    destruct (IH (seen ++ [f]) st1 w1) as (st' & w2 & -> & Hst').
    + intros g. rewrite Hmeta, List.in_app_iff, Hst. simpl.
      destruct (decide (f = g)) as [->|Hne].
      * rewrite lookup_insert_eq. split; [intros _; eexists; reflexivity|].
        intros _. right. left. reflexivity.
      * rewrite lookup_insert_ne by exact Hne. split.
        -- intros [H|[H|[]]]; [exact H | contradiction].
        -- intros H. left. exact H.
    + exists st', w2. split; [reflexivity|].
      intros g. rewrite <- Hst', <- app_assoc. reflexivity.
Qed.

Lemma get_file_sizes_run files w :
  let r := get_file_sizes sh files w in
  commands r = List.map (fun f => ssh (stat_command f)) files /\
  (forall f, List.In f files <-> is_Some (fi_files (value r) !! f)) /\
  fi_file_count (value r) = Z.of_nat (List.length files).
Proof.
  cbv zeta. unfold get_file_sizes, get_file_sizes_state. rewrite andthen_eq.
  destruct (size_loop_run files [] (mkSizeState ∅ 0) w)
    as (st & w1 & -> & Hst).
  { intros f. simpl. split; [intros []|].
    intros [m Hm]. rewrite lookup_empty in Hm. discriminate Hm. }
  unfold commands, value. simpl. rewrite app_nil_r.
  split; [reflexivity|]. split; [exact Hst | reflexivity].
Qed.

(** X21: [get_file_sizes] asks for the size of every file it is given, once
    and in order, and gives every one of them an entry in its table,
    also those whose size it could not get; [file_count] is the number of
    files it was given. *)
Theorem remote_sizes_cover_every_file files w :
  let r := get_file_sizes sh files w in
  commands r = List.map (fun f => ssh (stat_command f)) files /\
  (forall f, List.In f files <-> is_Some (fi_files (value r) !! f)) /\
  fi_file_count (value r) = Z.of_nat (List.length files).
Proof. exact (get_file_sizes_run files w). Qed.

Lemma dry_run_returns_true (date : string) w :
  fst (value (consolidate_date_dry_run sh date w)) = true.
Proof.
  unfold consolidate_date_dry_run. rewrite andthen_eq.
  destruct (get_daily_files sh date w) as [[files wl] tl].
  destruct (Z.of_nat (List.length files) <? Remote.MIN_FILES_TO_CONSOLIDATE);
    [reflexivity|].
  rewrite andthen_eq.
  destruct (get_file_sizes sh files wl) as [[info wi] ti]. reflexivity.
Qed.

(** X22: The dry run of the remote analysis always returns [True].  It lists
    the partition and, when at least five files are listed, asks for the
    size of each of them: it passes no other command to the shell.  And it
    reports that it would skip exactly when fewer than five files are
    listed, also when the listing failed. *)
Theorem remote_dry_run_only_reads (date : string) w :
  let r := consolidate_date_dry_run sh date w in
  let files := value (get_daily_files sh date w) in
  fst (value r) = true /\
  commands r
  = ssh (ls_command date)
    :: (if Z.of_nat (List.length files) <? 5 then []
        else List.map (fun f => ssh (stat_command f)) files) /\
  (snd (value r) = Remote.WouldSkip <-> Z.of_nat (List.length files) < 5).
Proof.
  cbv zeta. unfold consolidate_date_dry_run. rewrite andthen_eq.
  assert (Hl : commands (get_daily_files sh date w) = [ssh (ls_command date)]).
  { unfold get_daily_files. rewrite andthen_eq.
    pose proof (run_hdfs_command_commands (ls_command date) w) as Hc.
    destruct (run_hdfs_command sh (ls_command date) w) as [[[ok out] w1] t1].
    unfold commands in *. simpl in Hc. subst t1. cbn [fst snd].
    destruct (negb ok); reflexivity. }
  destruct (get_daily_files sh date w) as [[files wl] tl].
  unfold commands in Hl. simpl in Hl. subst tl.
  change (value (files, wl, [ssh (ls_command date)])) with files.
  unfold Remote.MIN_FILES_TO_CONSOLIDATE.
  destruct (Z.ltb_spec (Z.of_nat (List.length files)) 5) as [Hlt|Hge].
  - unfold value, commands. simpl.
    split; [reflexivity|]. split; [reflexivity|].
    split; [intros _; exact Hlt | reflexivity].
  - rewrite andthen_eq.
    pose proof (get_file_sizes_run files wl) as (Hc & _ & _).
    destruct (get_file_sizes sh files wl) as [[info wi] ti].
    unfold commands in Hc. simpl in Hc. subst ti.
    unfold value, commands. simpl. rewrite app_nil_r.
    split; [reflexivity|]. split; [reflexivity|].
    split; [discriminate | lia].
Qed.

(** X23: [main] of the remote analysis: without [--dry-run] it passes nothing
    to the shell and returns 1; with [--dry-run] it returns 0, whatever
    the shell answers. *)
Theorem remote_main_status (args : Args) w :
  (arg_dry_run args = false ->
   value (main sh args w) = 1 /\ commands (main sh args w) = []) /\
  (arg_dry_run args = true ->
   value (main sh args w) = 0 /\
   commands (main sh args w)
   = commands (consolidate_date_dry_run sh (arg_date args) w)).
Proof.
  unfold main. split; intros ->.
  - split; reflexivity.
  - rewrite andthen_eq.
    pose proof (dry_run_returns_true (arg_date args) w) as Hv.
    destruct (consolidate_date_dry_run sh (arg_date args) w)
      as [[[ok report] w1] t1].
    unfold value in *. simpl in Hv. subst ok.
    unfold commands. simpl. rewrite app_nil_r. split; reflexivity.
Qed.

End RemoteAnalysis.


(** * More runs on the simulated cluster *)

(** The upload fails: nothing is published and nothing is reaped. *)
Lemma failed_run_publishes_nothing_witness :
  outcome (consolidate_date Sim.env Sim.self Sim.day 128 false
             (Sim.five (Sim.mkFaults [] [] true false false)))
  = inr false /\
  Forall (fun e => put_ok e = false /\ is_reap e = false)
    (trace (consolidate_date Sim.env Sim.self Sim.day 128 false
              (Sim.five (Sim.mkFaults [] [] true false false)))).
Proof.
  assert (Ho : outcome (consolidate_date Sim.env Sim.self Sim.day 128 false
                          (Sim.five (Sim.mkFaults [] [] true false false)))
               = inr false) by (vm_compute; reflexivity).
  split; [exact Ho|].
  exact (proj1 (failed_run_publishes_nothing Sim.env Sim.self Sim.day 128
                  false (Sim.five (Sim.mkFaults [] [] true false false))) Ho).
Defined.

(** No download succeeds. *)
Lemma no_download_no_publication_witness :
  outcome (get_daily_files Sim.env Sim.self Sim.day
             (world (cleanup_corrupted_files Sim.env Sim.self Sim.day false
                       (Sim.five
                          (Sim.mkFaults
                             (List.map Sim.file_name [1; 2; 3; 4; 5]%nat)
                             [] false false false)))))
  = inr (List.map Sim.file_name [1; 2; 3; 4; 5]%nat) /\
  MIN_FILES_TO_CONSOLIDATE
  <= Z.of_nat (List.length (List.map Sim.file_name [1; 2; 3; 4; 5]%nat)) /\
  downloaded_paths
    (trace (consolidate_date Sim.env Sim.self Sim.day 128 false
              (Sim.five
                 (Sim.mkFaults (List.map Sim.file_name [1; 2; 3; 4; 5]%nat)
                    [] false false false)))) = [] /\
  outcome (consolidate_date Sim.env Sim.self Sim.day 128 false
             (Sim.five
                (Sim.mkFaults (List.map Sim.file_name [1; 2; 3; 4; 5]%nat)
                   [] false false false)))
  = inr false.
Proof.
  assert (H1 : outcome (get_daily_files Sim.env Sim.self Sim.day
                  (world (cleanup_corrupted_files Sim.env Sim.self Sim.day
                            false
                            (Sim.five
                               (Sim.mkFaults
                                  (List.map Sim.file_name [1; 2; 3; 4; 5]%nat)
                                  [] false false false)))))
               = inr (List.map Sim.file_name [1; 2; 3; 4; 5]%nat))
    by (vm_compute; reflexivity).
  assert (H2 : MIN_FILES_TO_CONSOLIDATE
               <= Z.of_nat (List.length
                              (List.map Sim.file_name [1; 2; 3; 4; 5]%nat)))
    by (vm_compute; discriminate).
  assert (H3 : downloaded_paths
                 (trace (consolidate_date Sim.env Sim.self Sim.day 128 false
                           (Sim.five
                              (Sim.mkFaults
                                 (List.map Sim.file_name [1; 2; 3; 4; 5]%nat)
                                 [] false false false)))) = [])
    by (vm_compute; reflexivity).
  repeat (split; [assumption|]).
  exact (proj1 (no_download_no_publication Sim.env Sim.self Sim.day 128
                  (Sim.five
                     (Sim.mkFaults
                        (List.map Sim.file_name [1; 2; 3; 4; 5]%nat)
                        [] false false false))
                  (List.map Sim.file_name [1; 2; 3; 4; 5]%nat) H1 H2 H3)).
Defined.

(** One date, without [--days-back]. *)
Lemma single_date_is_not_parsed_witness :
  (arg_days_back (mkArgs "2025-08-15" 128 true None false) = None \/
   arg_days_back (mkArgs "2025-08-15" 128 true None false) = Some 0) /\
  exists b : bool,
    outcome (main Sim.env (mkArgs "2025-08-15" 128 true None false)
               (Sim.five Sim.no_faults))
    = inr (if b then 0 else 1).
Proof.
  assert (H : arg_days_back (mkArgs "2025-08-15" 128 true None false) = None \/
              arg_days_back (mkArgs "2025-08-15" 128 true None false) = Some 0)
    by (left; reflexivity).
  split; [exact H|].
  destruct (single_date_is_not_parsed Sim.env
              (mkArgs "2025-08-15" 128 true None false)
              (Sim.five Sim.no_faults) H) as (c & b & _ & _ & Hmain & _).
  exists b. exact Hmain.
Defined.

(** [--days-back -1]. *)
Lemma negative_days_back_processes_nothing_witness :
  arg_days_back (mkArgs "2025-08-15" 128 false (Some (-1)) false)
  = Some (-1) /\
  -1 < 0 /\
  strptime Sim.env
    (arg_date (mkArgs "2025-08-15" 128 false (Some (-1)) false))
  = inr 739478 /\
  outcome (main Sim.env (mkArgs "2025-08-15" 128 false (Some (-1)) false)
             (Sim.five Sim.no_faults)) = inr 0.
Proof.
  assert (H1 : arg_days_back
                 (mkArgs "2025-08-15" 128 false (Some (-1)) false)
               = Some (-1)) by reflexivity.
  assert (H2 : -1 < 0) by lia.
  assert (H3 : strptime Sim.env
                 (arg_date (mkArgs "2025-08-15" 128 false (Some (-1)) false))
               = inr 739478) by reflexivity.
  repeat (split; [assumption|]).
  exact (proj1 (negative_days_back_processes_nothing Sim.env
                  (mkArgs "2025-08-15" 128 false (Some (-1)) false)
                  (-1) 739478 (Sim.five Sim.no_faults) H1 H2 H3)).
Defined.

(** A date the calendar does not know. *)
Lemma unreadable_batch_processes_nothing_witness :
  arg_days_back (mkArgs "2025-02-30" 128 false (Some 1) false) = Some 1 /\
  1 <> 0 /\
  strptime Sim.env (arg_date (mkArgs "2025-02-30" 128 false (Some 1) false))
  = inl ValueError /\
  exit_status
    (outcome (main Sim.env (mkArgs "2025-02-30" 128 false (Some 1) false)
                (Sim.five Sim.no_faults))) = 1.
Proof.
  assert (H1 : arg_days_back (mkArgs "2025-02-30" 128 false (Some 1) false)
               = Some 1) by reflexivity.
  assert (H2 : 1 <> 0) by lia.
  assert (H3 : strptime Sim.env
                 (arg_date (mkArgs "2025-02-30" 128 false (Some 1) false))
               = inl ValueError) by reflexivity.
  repeat (split; [assumption|]).
  exact (proj1 (proj2 (unreadable_batch_processes_nothing Sim.env
                         (mkArgs "2025-02-30" 128 false (Some 1) false) 1
                         (Sim.five Sim.no_faults) H1 H2
                         (or_introl (ex_intro _ ValueError H3))))).
Defined.

(** 300 MB and 400 MB. *)
Lemma target_files_fill_the_total_witness :
  (inject_Z Remote.TARGET_FILE_SIZE_MB <= 300 # 1)%Q /\
  (300 # 1 <= 400 # 1)%Q /\
  Remote.target_files (300 # 1) = 2 /\
  Remote.target_files (300 # 1) <= Remote.target_files (400 # 1).
Proof.
  assert (H1 : (inject_Z Remote.TARGET_FILE_SIZE_MB <= 300 # 1)%Q)
    by (vm_compute; discriminate).
  assert (H2 : (300 # 1 <= 400 # 1)%Q) by (vm_compute; discriminate).
  split; [exact H1|]. split; [exact H2|]. split; [reflexivity|].
  exact (proj2 (proj2 (target_files_fill_the_total (300 # 1) (400 # 1)
                         H1 H2))).
Defined.

(** A comment, then an exported host in quotes. *)
Lemma assignment_lines_set_keys_witness :
  Py.contains "=" "HDFS_NAMENODE_HOST" = false /\
  Py.strip "  export HDFS_NAMENODE_HOST='nn1.example.com'  "
  = "export " +:+ "HDFS_NAMENODE_HOST" +:+ String "=" "'nn1.example.com'" /\
  Config.strip_chars Config.quotes "'nn1.example.com'" = "nn1.example.com" /\
  exists loaded,
    Config.load_config
      (Some (["# the name node"]
             ++ ["  export HDFS_NAMENODE_HOST='nn1.example.com'  "]))
    = inr loaded /\
    loaded !! "HDFS_NAMENODE_HOST"
    = Some (Config.strip_chars Config.quotes "'nn1.example.com'").
Proof.
  assert (H1 : Py.contains "=" "HDFS_NAMENODE_HOST" = false) by reflexivity.
  assert (H2 : Py.strip "  export HDFS_NAMENODE_HOST='nn1.example.com'  "
               = "export " +:+ "HDFS_NAMENODE_HOST"
                 +:+ String "=" "'nn1.example.com'")
    by (vm_compute; reflexivity).
  split; [exact H1|]. split; [exact H2|].
  split; [vm_compute; reflexivity|].
  exact (proj2 (assignment_lines_set_keys ["# the name node"]
                  "  export HDFS_NAMENODE_HOST='nn1.example.com'  "
                  "HDFS_NAMENODE_HOST" "'nn1.example.com'" H1
                  (or_introl H2))).
Defined.

(** A host, then a port that is not a number. *)
Lemma malformed_port_discards_host_witness :
  (Py.strip "HDFS_NAMENODE_PORT=80a0" = "HDFS_NAMENODE_PORT=" +:+ "80a0" \/
   Py.strip "HDFS_NAMENODE_PORT=80a0"
   = "export HDFS_NAMENODE_PORT=" +:+ "80a0") /\
  Py.int (Config.strip_chars Config.quotes "80a0") = None /\
  Config.namenode
    (Some (["HDFS_NAMENODE_HOST=nn1.example.com"]
           ++ ["HDFS_NAMENODE_PORT=80a0"]))
  = ("big-data-005.kuhn-labs.com", 8020).
Proof.
  assert (H1 : Py.strip "HDFS_NAMENODE_PORT=80a0"
               = "HDFS_NAMENODE_PORT=" +:+ "80a0" \/
               Py.strip "HDFS_NAMENODE_PORT=80a0"
               = "export HDFS_NAMENODE_PORT=" +:+ "80a0")
    by (left; vm_compute; reflexivity).
  assert (H2 : Py.int (Config.strip_chars Config.quotes "80a0") = None)
    by (vm_compute; reflexivity).
  split; [exact H1|]. split; [exact H2|].
  exact (proj1 (malformed_port_discards_host
                  ["HDFS_NAMENODE_HOST=nn1.example.com"]
                  "HDFS_NAMENODE_PORT=80a0" "80a0" H1) H2).
Defined.

(** * The constructor *)

Section Constructor.

Context {W Table : Type} (env : Env W Table).

(** X24: [__init__] never raises and tries at most one connection.  The
    consolidator it builds uses the client exactly when the [hdfs3] module
    is there and the connection succeeded; otherwise, also when the
    connection raised, it falls back on the command line. *)
Theorem init_falls_back_on_the_command_line (hdfs_host : string)
    (hdfs_port : Z) (w : W) :
  let i := init env hdfs_host hdfs_port w in
  exists consolidator,
    outcome i = inr consolidator /\
    (HDFS3_AVAILABLE env = false ->
     trace i = [] /\ hdfs consolidator = false) /\
    (HDFS3_AVAILABLE env = true ->
     exists res,
       trace i = [mkEvent In_init (HdfsConnect hdfs_host hdfs_port res)] /\
       hdfs consolidator = match res with inr _ => true | inl _ => false end).
Proof.
  cbv zeta. unfold init, try_except, bind, perform.
  destruct (HDFS3_AVAILABLE env).
  - destruct (hdfs_connect env hdfs_host hdfs_port w) as [[x|[]] w0]; simpl;
      eexists; (split; [reflexivity|]); (split; [discriminate|]);
      intros _; eexists; split; reflexivity.
  - eexists. split; [reflexivity|]. split; [|discriminate].
    intros _. split; reflexivity.
Qed.

End Constructor.
